(** * chatbot-backend: the retrieval-augmented query pipeline

  A shallow embedding of [app/utils/text_utils.py] (the text chunker),
  [app/core/llm_client.py] (the embedding and generation gateway),
  [app/core/vector_store.py] (the vector index adapter),
  [app/core/document_processor.py] and [app/core/rag_engine.py] (the
  orchestrator), followed by the properties of the specification that
  concern them.

  Conventions.
  - A Python [str] is a list of Unicode code points ([N]); [len], slicing,
    [str.rfind] and [str.strip] follow CPython, including the treatment of
    negative and out-of-range indices.
  - Python integers are [Z].
  - A [while] loop is a function with a fuel argument that answers [None]
    when the loop has not left after [fuel] tests of its condition.
  - Effects (collaborator calls, the file system, random identifiers, the
    clock) are threaded through an explicit [World]; the collaborators'
    answers are functions of the history of events so far.
  - An [async] function is run to completion by its caller, one request at
    a time. Calls to the logger are left out: they change neither what is
    returned nor what is raised. An [except Exception] handler is a handler
    for every exception of the model. *)

From Stdlib Require Import ZArith NArith List Lia Bool Ascii String DecimalString Sorted.
From stdpp Require Import base option list countable gmap.
Import ListNotations.

Local Open Scope Z_scope.

(** ** Python values shared by all modules *)

Module Py.

(** A character is a Unicode code point. *)
Definition char : Type := N.
Definition str : Type := list char.

(** A string literal of the source (ASCII only) as a [str]. *)
Definition lit (s : string) : str := map N_of_ascii (list_ascii_of_string s).

Definition len {A} (l : list A) : Z := Z.of_nat (length l).

(** [str.isspace] of one character: CPython's [_PyUnicode_IsWhitespace]. *)
Definition isspace (c : char) : bool :=
  ((9 <=? c) && (c <=? 13) || (28 <=? c) && (c <=? 31) || (c =? 32)
   || (c =? 133) || (c =? 160) || (c =? 5760)
   || (8192 <=? c) && (c <=? 8202) || (c =? 8232) || (c =? 8233)
   || (c =? 8239) || (c =? 8287) || (c =? 12288))%N.

(** A negative index counts from the end, and is clipped at 0. *)
Definition adjust_index (n i : Z) : Z :=
  if i <? 0 then Z.max 0 (i + n) else i.

(** [text[start:stop]] (step 1): both bounds are adjusted, then clipped
    at [len(text)]; an empty range gives the empty string. *)
Definition slice {A} (text : list A) (start stop : Z) : list A :=
  let lo := Z.min (len text) (adjust_index (len text) start) in
  let hi := Z.min (len text) (adjust_index (len text) stop) in
  take (Z.to_nat (hi - lo)) (drop (Z.to_nat lo) text).

(** The index of the last occurrence of [c] in [seg], whose first element
    has index [i]; [acc] when there is none. *)
Fixpoint find_last (c : char) (seg : str) (i acc : Z) : Z :=
  match seg with
  | [] => acc
  | x :: rest => find_last c rest (i + 1) (if (x =? c)%N then i else acc)
  end.

(** [text.rfind(c, start, stop)] for a one-character [c]: the highest
    index in the adjusted range, or -1. *)
Definition rfind (text : str) (c : char) (start stop : Z) : Z :=
  let hi := if stop >? len text then len text
            else adjust_index (len text) stop in
  let lo := adjust_index (len text) start in
  find_last c (take (Z.to_nat (hi - lo)) (drop (Z.to_nat lo) text)) lo (-1).

Fixpoint lstrip (s : str) : str :=
  match s with
  | [] => []
  | c :: rest => if isspace c then lstrip rest else s
  end.

Definition rstrip (s : str) : str := rev (lstrip (rev s)).

(** [s.strip()] *)
Definition strip (s : str) : str := rstrip (lstrip s).

(** Truth value of a sequence: non-empty. *)
Definition truthy {A} (l : list A) : bool :=
  match l with [] => false | _ => true end.

End Py.

(** ** app/utils/text_utils.py *)

Module text_utils.
Import Py.

Definition dot : char := 46%N.
Definition question : char := 63%N.
Definition exclamation : char := 33%N.

(** Lines 40-51 of [chunk_text]: the end of the window that starts at
    [start], moved back to just after a sentence end when one is found in
    the last 100 characters and lies after [start]. *)
Definition window_end (text : str) (chunk_size start : Z) : Z :=
  let end_ := start + chunk_size in
  if end_ <? len text then
    let last_period := rfind text dot (end_ - 100) end_ in
    let last_question := rfind text question (end_ - 100) end_ in
    let last_exclamation := rfind text exclamation (end_ - 100) end_ in
    let break_point :=
      Z.max (Z.max last_period last_question) last_exclamation in
    if break_point >? start then break_point + 1 else end_
  else end_.

(** Lines 39-59: the [while start < len(text)] loop, with the values of
    [start] and [chunks] on entry. *)
Fixpoint chunk_loop (fuel : nat) (text : str) (chunk_size overlap : Z)
    (start : Z) (chunks : list str) : option (list str) :=
  match fuel with
  | O => None
  | S fuel' =>
      if start <? len text then
        let end_ := window_end text chunk_size start in
        let chunk := strip (slice text start end_) in
        let chunks' := if truthy chunk then chunks ++ [chunk] else chunks in
        chunk_loop fuel' text chunk_size overlap (end_ - overlap) chunks'
      else Some chunks
  end.

(** [chunk_text(text, chunk_size, overlap)] *)
Definition chunk_text (fuel : nat) (text : str) (chunk_size overlap : Z)
    : option (list str) :=
  if len text <=? chunk_size then Some [text]
  else chunk_loop fuel text chunk_size overlap 0 [].

(** The windows [(start, end)] the loop visits, in order: the loop above
    with the chunk list replaced by the list of its slice bounds. *)
Fixpoint chunk_windows (fuel : nat) (text : str) (chunk_size overlap : Z)
    (start : Z) : option (list (Z * Z)) :=
  match fuel with
  | O => None
  | S fuel' =>
      if start <? len text then
        let end_ := window_end text chunk_size start in
        cons (start, end_) <$>
          chunk_windows fuel' text chunk_size overlap (end_ - overlap)
      else Some []
  end.

(** The chunks a list of windows contributes: each slice stripped, the
    empty ones dropped. *)
Definition chunks_of (text : str) (ws : list (Z * Z)) : list str :=
  filter (fun c => truthy c = true)
         (map (fun w => strip (slice text w.1 w.2)) ws).

End text_utils.

(** ** Values, exceptions and the world outside the program *)

Module Runtime.
Import Py.

(** The payload values the program stores and reads back: [None],
    integers and strings. *)
Inductive value : Type :=
| VNone
| VInt (z : Z)
| VStr (s : str).

#[export] Instance value_eq_dec : EqDecision value.
Proof. solve_decision. Defined.

Definition value_enc (v : value) : unit + (Z + str) :=
  match v with
  | VNone => inl tt
  | VInt z => inr (inl z)
  | VStr s => inr (inr s)
  end.

Definition value_dec (x : unit + (Z + str)) : value :=
  match x with
  | inl _ => VNone
  | inr (inl z) => VInt z
  | inr (inr s) => VStr s
  end.

#[export] Instance value_countable : Countable value.
Proof.
  apply (inj_countable' value_enc value_dec). intros []; reflexivity.
Defined.

(** An exception: its class name and [str(e)]. *)
Record exn : Type := Exc { exn_class : str; exn_msg : str }.

Definition ValueError (msg : str) : exn := Exc (lit "ValueError") msg.
Definition Exception (msg : str) : exn := Exc (lit "Exception") msg.
Definition KeyError (key : str) : exn := Exc (lit "KeyError") key.

Inductive result (A : Type) : Type :=
| Ok (a : A)
| Err (e : exn).
Arguments Ok {A} a.
Arguments Err {A} e.

(** A component of a vector or a score: a binary64 value, given by its
    bit pattern. No arithmetic is done on them by the program. *)
Definition float : Type := N.

(** [qdrant_client.models.PointStruct] *)
Record PointStruct : Type :=
  { point_id : str; point_vector : list float; point_payload : gmap str value }.

(** A hit returned by [QdrantClient.search]. *)
Record ScoredPoint : Type :=
  { hit_id : value; hit_score : float; hit_payload : gmap str value }.

(** What the program does to the outside, in order. *)
Inductive event : Type :=
| EvExtract (file_ext file_path : str)
| EvEmbed (task_type content : str)
| EvGenerate (prompt : str)
| EvUpsert (points : list PointStruct)
| EvSearch (query_vector : list float) (limit : Z)
           (query_filter : option (list (str * value)))
| EvUuid4
| EvUtcnow
| EvRemove (file_path : str).

(** Everything the program takes from outside the repository. The
    collaborators answer as a function of the history of events so far,
    so two calls with the same arguments may be answered differently. *)
Record Env : Type :=
  { (* Unicode tables of the Python runtime *)
    isalnum : char -> bool;
    lower : str -> str;
    (* PyPDF2, open(), pandas, pytesseract: the text of a file *)
    extract_text : list event -> str -> str -> result str;
    (* genai.embed_content(...)['embedding'] *)
    embed_content : list event -> str -> str -> result (list float);
    (* GenerativeModel.generate_content(prompt).text *)
    generate_content : list event -> str -> result str;
    (* QdrantClient.upsert; [None] when it returns *)
    qdrant_upsert : list event -> list PointStruct -> option exn;
    (* QdrantClient.search *)
    qdrant_search : list event -> list float -> Z ->
                    option (list (str * value)) -> result (list ScoredPoint);
    (* uuid.uuid4().int *)
    uuid4 : list event -> N;
    (* datetime.utcnow().isoformat() *)
    utcnow_isoformat : list event -> str;
    (* os.remove; [None] when it returns *)
    os_remove : list event -> str -> option exn }.

Record World : Type :=
  { history : list event;      (* oldest first *)
    files : gset str }.        (* the paths that exist on disk *)

Definition record (ev : event) (w : World) : World :=
  {| history := history w ++ [ev]; files := files w |}.

(** Computations: a result or an exception, and the world after. *)
Definition M (A : Type) : Type := World -> result A * World.

Definition ret {A} (a : A) : M A := fun w => (Ok a, w).
Definition raise {A} (e : exn) : M A := fun w => (Err e, w).
Definition bind {A B} (c : M A) (k : A -> M B) : M B :=
  fun w => match c w with
           | (Ok a, w') => k a w'
           | (Err e, w') => (Err e, w')
           end.
(** [try: c  except Exception as e: h e] *)
Definition try_except {A} (c : M A) (h : exn -> M A) : M A :=
  fun w => match c w with
           | (Ok a, w') => (Ok a, w')
           | (Err e, w') => h e w'
           end.
(** A collaborator call: the answer is computed from the history, and
    the call is recorded. *)
Definition call {A} (ev : event) (answer : list event -> result A) : M A :=
  fun w => (answer (history w), record ev w).

(** [d[key]] *)
Definition getitem (d : gmap str value) (key : str) : M value :=
  match d !! key with
  | Some v => ret v
  | None => raise (KeyError key)
  end.

(** [d.get(key, default)] *)
Definition get (d : gmap str value) (key : str) (default : value) : value :=
  match d !! key with
  | Some v => v
  | None => default
  end.

(** [format(v)] as used by an f-string. *)
Definition str_of_Z (z : Z) : str :=
  lit (DecimalString.NilZero.string_of_int (Z.to_int z)).

Definition format (v : value) : str :=
  match v with
  | VNone => lit "None"
  | VInt z => str_of_Z z
  | VStr s => s
  end.

(** [str(u)] of a UUID with integer value [u]: 32 hexadecimal digits in
    groups of 8-4-4-4-12. *)
Definition hex_digit (d : N) : char :=
  (if d <? 10 then 48 + d else 87 + d)%N.

Fixpoint hex_fixed (width : nat) (v : N) : str :=
  match width with
  | O => []
  | S w => hex_fixed w (v / 16)%N ++ [hex_digit (v mod 16)%N]
  end.

Definition str_uuid (u : N) : str :=
  let hex := hex_fixed 32 u in
  take 8 hex ++ lit "-" ++ take 4 (drop 8 hex) ++ lit "-"
    ++ take 4 (drop 12 hex) ++ lit "-" ++ take 4 (drop 16 hex) ++ lit "-"
    ++ drop 20 hex.

(** [str(uuid.uuid4())] *)
Definition uuid4_str (env : Env) : M str :=
  call EvUuid4 (fun h => Ok (str_uuid (uuid4 env h))).

End Runtime.

Declare Scope py_scope.
Delimit Scope py_scope with py.
Notation "'do' x <- c ; k" := (Runtime.bind c (fun x => k))
  (at level 10, x name, c at level 100, k at level 200) : py_scope.
Notation "'do' ' p <- c ; k" :=
  (Runtime.bind c (fun x => match x with p => k end))
  (at level 10, p pattern, c at level 100, k at level 200) : py_scope.
Local Open Scope py_scope.

(** ** app/config.py *)

Module config.
Definition EMBEDDING_DIMENSION : Z := 3072.
Definition TOP_K_RESULTS : Z := 5.
End config.

(** ** app/utils/text_utils.py, continued: [clean_text] *)

Module text_clean.
Import Py Runtime.

(** [re.sub(r'\s+', ' ', text)]: every maximal run of whitespace becomes
    one space. [in_run] tells that the previous character was whitespace. *)
Fixpoint sub_whitespace (in_run : bool) (text : str) : str :=
  match text with
  | [] => []
  | c :: rest =>
      if isspace c then
        if in_run then sub_whitespace true rest
        else 32%N :: sub_whitespace true rest
      else c :: sub_whitespace false rest
  end.

(** The characters the class [[^\w\s.,!?;:()\-\']] does not match. *)
Definition kept (env : Env) (c : char) : bool :=
  isalnum env c || (c =? 95)%N || isspace c
  || bool_decide (c ∈ lit ".,!?;:()-'").

Definition clean_text (env : Env) (text : str) : str :=
  let text := sub_whitespace false text in
  let text := List.filter (kept env) text in
  strip text.

End text_clean.

(** ** app/utils/file_utils.py *)

Module file_utils.
Import Py Runtime.

(** [delete_file]: removes the file when it exists; an exception of
    [os.remove] is logged and swallowed. *)
Definition delete_file (env : Env) (file_path : str) : M unit :=
  fun w =>
    if bool_decide (file_path ∈ files w) then
      match os_remove env (history w) file_path with
      | None =>
          (Ok tt, {| history := history w ++ [EvRemove file_path];
                     files := files w ∖ {[file_path]} |})
      | Some _ => (Ok tt, record (EvRemove file_path) w)
      end
    else (Ok tt, w).

End file_utils.

(** ** app/core/llm_client.py *)

Module llm_client.
Import Py Runtime.

(** [GeminiClient.generate_response] *)
Definition generate_response (env : Env) (prompt : str) : M str :=
  try_except
    (call (EvGenerate prompt) (fun h => generate_content env h prompt))
    (fun e => raise (Exception (lit "Failed to generate response: "
                                  ++ exn_msg e))).

(** [GeminiClient.generate_embeddings] *)
Definition generate_embeddings (env : Env) (text : str) : M (list float) :=
  try_except
    (call (EvEmbed (lit "retrieval_document") text)
          (fun h => embed_content env h (lit "retrieval_document") text))
    (fun e => raise (Exception (lit "Failed to generate embeddings: "
                                  ++ exn_msg e))).

(** [GeminiClient.generate_query_embedding] *)
Definition generate_query_embedding (env : Env) (query : str)
    : M (list float) :=
  try_except
    (call (EvEmbed (lit "retrieval_query") query)
          (fun h => embed_content env h (lit "retrieval_query") query))
    (fun e => raise (Exception (lit "Failed to generate query embeddings: "
                                  ++ exn_msg e))).

(** [sep.join(parts)] *)
Fixpoint join (sep : str) (parts : list str) : str :=
  match parts with
  | [] => []
  | [p] => p
  | p :: rest => p ++ sep ++ join sep rest
  end.

Definition nl : str := [10%N].

(** [[f"Document {i+1}:\n{doc}" for i, doc in enumerate(context)]], the
    enumeration starting at [i]. *)
Fixpoint documents (i : Z) (context : list value) : list str :=
  match context with
  | [] => []
  | doc :: rest =>
      (lit "Document " ++ str_of_Z (i + 1) ++ lit ":" ++ nl ++ format doc)
        :: documents (i + 1) rest
  end.

Definition rag_prompt (query : str) (context : list value) : str :=
  let context_text := join (nl ++ nl) (documents 0 context) in
  lit "You are a helpful AI assistant. Answer the user's question based on the provided context documents.

Context Documents:
" ++ context_text ++ lit "

User Question: " ++ query ++ lit "

Instructions:
- Answer based primarily on the context provided
- If the context doesn't contain enough information, say so
- Be concise and accurate
- Cite which document number you're referencing when relevant

Answer:".

(** [GeminiClient.generate_rag_response] *)
Definition generate_rag_response (env : Env) (query : str)
    (context : list value) : M str :=
  try_except (generate_response env (rag_prompt query context))
             (fun e => raise e).

End llm_client.

(** ** app/core/vector_store.py *)

Module vector_store.
Import Py Runtime.

(** The body of the [for ... in zip(texts, embeddings, metadata)] loop of
    [add_documents], over the zipped list: the points and the ids, in
    order. *)
Fixpoint build_points (env : Env)
    (items : list (str * list float * gmap str value))
    : M (list PointStruct * list str) :=
  match items with
  | [] => ret ([], [])
  | (text, embedding, meta) :: rest =>
      do doc_id <- uuid4_str env;
      do stamp <- call EvUtcnow (fun h => Ok (utcnow_isoformat env h));
      let meta := <[lit "text" := VStr text]> meta in
      let meta := <[lit "timestamp" := VStr stamp]> meta in
      let point := {| point_id := doc_id; point_vector := embedding;
                      point_payload := meta |} in
      do '(points, doc_ids) <- build_points env rest;
      ret (point :: points, doc_id :: doc_ids)
  end.

(** [VectorStore.add_documents] *)
Definition add_documents (env : Env) (texts : list str)
    (embeddings : list (list float)) (metadata : list (gmap str value))
    : M (list str) :=
  try_except
    (do '(points, doc_ids) <-
        build_points env (zip (zip texts embeddings) metadata);
     do _ <- call (EvUpsert points)
                  (fun h => match qdrant_upsert env h points with
                            | None => Ok tt
                            | Some e => Err e
                            end);
     ret doc_ids)
    (fun e => raise e).

(** An entry of the list [VectorStore.search] returns. *)
Record SearchResult : Type :=
  { sr_id : value; sr_score : float; sr_text : value;
    sr_metadata : gmap str value }.

Definition format_result (hit : ScoredPoint) : SearchResult :=
  {| sr_id := hit_id hit;
     sr_score := hit_score hit;
     sr_text := get (hit_payload hit) (lit "text") (VStr []);
     sr_metadata :=
       filter (fun kv => kv.1 <> lit "text") (hit_payload hit) |}.

(** [VectorStore.search] *)
Definition search (env : Env) (query_embedding : list float)
    (top_k : option Z) (filter_dict : option (gmap str value))
    : M (list SearchResult) :=
  try_except
    (let top_k := match top_k with
                  | None => config.TOP_K_RESULTS
                  | Some k => k
                  end in
     let search_filter :=
       match filter_dict with
       | None => None
       | Some d => if bool_decide (d = ∅) then None
                   else Some (map_to_list d)
       end in
     do hits <- call (EvSearch query_embedding top_k search_filter)
                     (fun h => qdrant_search env h query_embedding top_k
                                 search_filter);
     ret (map format_result hits))
    (fun e => raise e).

End vector_store.

(** ** app/core/document_processor.py *)

Module document_processor.
Import Py Runtime.

(** The part of [s] after the last [sep], all of [s] when there is none:
    [s.split(sep)[-1]], and [os.path.basename] for [sep = '/']. *)
Fixpoint after_last (sep : char) (s : str) : str :=
  match s with
  | [] => []
  | c :: rest =>
      if bool_decide (sep ∈ rest) then after_last sep rest
      else if (c =? sep)%N then rest else s
  end.

Definition supported_types : list str :=
  [lit "pdf"; lit "txt"; lit "xlsx"; lit "xls"; lit "png"; lit "jpg";
   lit "jpeg"].

(** [DocumentProcessor.process_document]. The chunker's loop is given
    [len(text) + 1] rounds; [TimeoutError] stands for a loop that has not
    left by then. *)
Definition process_document (env : Env) (file_path : str)
    : M (list str * gmap str value) :=
  try_except
    (let file_ext := lower env (after_last 46%N file_path) in
     let filename := after_last 47%N file_path in
     if negb (bool_decide (file_ext ∈ supported_types)) then
       raise (ValueError (lit "Unsupported file type: " ++ file_ext))
     else
       do text <- call (EvExtract file_ext file_path)
                       (fun h => extract_text env h file_ext file_path);
       let text := text_clean.clean_text env text in
       if negb (truthy (strip text)) then
         raise (ValueError (lit "No text could be extracted from document"))
       else
         match text_utils.chunk_text (S (length text)) text 1000 200 with
         | None => raise (Exc (lit "TimeoutError") [])
         | Some chunks =>
             let metadata : gmap str value :=
               <[lit "total_chunks" := VInt (len chunks)]>
               (<[lit "file_type" := VStr file_ext]>
                (<[lit "filename" := VStr filename]> ∅)) in
             ret (chunks, metadata)
         end)
    (fun e => raise e).

End document_processor.

(** ** app/core/rag_engine.py *)

Module rag_engine.
Import Py Runtime.

(** Lines 39-42: one embedding per chunk, in order, stopping at the
    first call that raises. *)
Fixpoint embed_chunks (env : Env) (chunks : list str)
    : M (list (list float)) :=
  match chunks with
  | [] => ret []
  | chunk :: rest =>
      do embedding <- llm_client.generate_embeddings env chunk;
      do embeddings <- embed_chunks env rest;
      ret (embedding :: embeddings)
  end.

(** Lines 45-49: a copy of the base metadata per chunk, with its index. *)
Definition chunk_metadata (base_metadata : gmap str value) (n : nat)
    : list (gmap str value) :=
  map (fun i => <[lit "chunk_index" := VInt (Z.of_nat i)]> base_metadata)
      (seq 0 n).

Record IngestResult : Type :=
  { success : bool; message : str; document_ids : list str;
    filename : value; chunks_count : Z }.

(** [RAGEngine.process_and_store_document] *)
Definition process_and_store_document (env : Env) (file_path : str)
    : M IngestResult :=
  try_except
    (do '(chunks, base_metadata) <-
        document_processor.process_document env file_path;
     if negb (truthy chunks) then
       raise (ValueError (lit "No text chunks extracted from document"))
     else
       do embeddings <- embed_chunks env chunks;
       let metadata_list := chunk_metadata base_metadata (length chunks) in
       do doc_ids <- vector_store.add_documents env chunks embeddings
                                                metadata_list;
       do _ <- file_utils.delete_file env file_path;
       do name <- getitem base_metadata (lit "filename");
       ret {| success := true;
              message := lit "Document processed and stored successfully";
              document_ids := doc_ids;
              filename := name;
              chunks_count := len chunks |})
    (fun e => do _ <- file_utils.delete_file env file_path; raise e).

Record QueryResult : Type :=
  { response : str; conversation_id : str; sources : list value;
    has_context : bool;
    relevance_scores : option (list float) }.   (* absent without context *)

(** [list(set(xs))]: the distinct elements, in the order of the set. *)
Definition list_set (xs : list value) : list value :=
  elements (list_to_set xs : gset value).

Definition no_context_prompt (user_query : str) : str :=
  lit "Answer this question: " ++ user_query ++ llm_client.nl
    ++ llm_client.nl ++ lit "Note: No reference documents are available.".

(** Lines 96-97: [if not conversation_id: conversation_id =
    str(uuid.uuid4())]. [None] and the empty string are both false. *)
Definition ensure_conversation_id (env : Env)
    (conversation_id : option str) : M str :=
  match conversation_id with
  | None => uuid4_str env
  | Some cid => if negb (truthy cid) then uuid4_str env else ret cid
  end.

(** [RAGEngine.query] *)
Definition query (env : Env) (user_query : str)
    (conversation_id : option str) (top_k : Z) : M QueryResult :=
  try_except
    (do conversation_id <- ensure_conversation_id env conversation_id;
     do query_embedding <- llm_client.generate_query_embedding env user_query;
     do search_results <-
        vector_store.search env query_embedding (Some top_k) None;
     if negb (truthy search_results) then
       do response <- llm_client.generate_response env
                        (no_context_prompt user_query);
       ret {| response := response; conversation_id := conversation_id;
              sources := []; has_context := false;
              relevance_scores := None |}
     else
       let context_chunks := map vector_store.sr_text search_results in
       let sources :=
         list_set (map (fun result =>
                          get (vector_store.sr_metadata result)
                              (lit "filename") (VStr (lit "Unknown")))
                       search_results) in
       do response <- llm_client.generate_rag_response env user_query
                        context_chunks;
       ret {| response := response; conversation_id := conversation_id;
              sources := sources; has_context := true;
              relevance_scores :=
                Some (map vector_store.sr_score search_results) |})
    (fun e => raise e).

End rag_engine.

(** ** Concrete inputs used below *)

Module Examples.
Import Py Runtime.

(** Five characters, a sentence end at index 1. *)
Definition looping_text : str := lit "a.bbb".

(** 2500 times the letter a. *)
Definition text_a2500 : str := repeat 97%N 2500.

Definition padded_text : str := lit " a ".

Definition spaced_text : str := lit "ab      ef".

Definition upload : str := lit "uploads/notes.TXT".

Definition hello : str := lit "Hello world. This is a test.".

(** The base metadata of [upload] when its text is [hello]. *)
Definition hello_metadata : gmap str value :=
  <[lit "total_chunks" := VInt 1]>
  (<[lit "file_type" := VStr (lit "txt")]>
   (<[lit "filename" := VStr (lit "notes.TXT")]> ∅)).

Definition ascii_alnum (c : char) : bool :=
  ((48 <=? c) && (c <=? 57) || (65 <=? c) && (c <=? 90)
   || (97 <=? c) && (c <=? 122))%N.

Definition ascii_lower (s : str) : str :=
  map (fun c => if (65 <=? c)%N && (c <=? 90)%N then (c + 32)%N else c) s.

Definition doc_a_hit (chunk_index : Z) : ScoredPoint :=
  {| hit_id := VStr (lit "id");
     hit_score := 0%N;
     hit_payload :=
       <[lit "text" := VStr (lit "X is a letter.")]>
       (<[lit "filename" := VStr (lit "doc_a.pdf")]>
        (<[lit "chunk_index" := VInt chunk_index]> ∅)) |}.

Definition nameless_hit : ScoredPoint :=
  {| hit_id := VInt 7;
     hit_score := 0%N;
     hit_payload := <[lit "text" := VStr (lit "No name.")]> ∅ |}.

(** Collaborators that always answer: a two-component embedding, no
    search hit, a fixed completion. *)
Definition quiet_env : Env :=
  {| isalnum := ascii_alnum;
     lower := ascii_lower;
     extract_text := fun _ _ _ => Ok hello;
     embed_content := fun _ _ _ => Ok [0%N; 0%N];
     generate_content := fun _ _ => Ok (lit "An answer.");
     qdrant_upsert := fun _ _ => None;
     qdrant_search := fun _ _ _ _ => Ok [];
     uuid4 := fun h => N.of_nat (length h);
     utcnow_isoformat := fun _ => lit "2024-01-01T00:00:00";
     os_remove := fun _ _ => None |}.

(** The same, with an embedding model that is out of quota. *)
Definition failing_env : Env :=
  {| isalnum := ascii_alnum;
     lower := ascii_lower;
     extract_text := fun _ _ _ => Ok hello;
     embed_content := fun _ _ _ => Err (Exc (lit "ResourceExhausted")
                                            (lit "quota"));
     generate_content := fun _ _ => Ok (lit "An answer.");
     qdrant_upsert := fun _ _ => None;
     qdrant_search := fun _ _ _ _ => Ok [];
     uuid4 := fun h => N.of_nat (length h);
     utcnow_isoformat := fun _ => lit "2024-01-01T00:00:00";
     os_remove := fun _ _ => None |}.

(** The same as [quiet_env], with an index that answers two chunks of
    doc_a.pdf and one entry without a filename. *)
Definition indexed_env : Env :=
  {| isalnum := ascii_alnum;
     lower := ascii_lower;
     extract_text := fun _ _ _ => Ok hello;
     embed_content := fun _ _ _ => Ok [0%N; 0%N];
     generate_content := fun _ _ => Ok (lit "An answer.");
     qdrant_upsert := fun _ _ => None;
     qdrant_search :=
       fun _ _ _ _ => Ok [doc_a_hit 0; doc_a_hit 1; nameless_hit];
     uuid4 := fun h => N.of_nat (length h);
     utcnow_isoformat := fun _ => lit "2024-01-01T00:00:00";
     os_remove := fun _ _ => None |}.

(** The same as [quiet_env], for a file of 2500 letters a. *)
Definition long_env : Env :=
  {| isalnum := ascii_alnum;
     lower := ascii_lower;
     extract_text := fun _ _ _ => Ok text_a2500;
     embed_content := fun _ _ _ => Ok [0%N; 0%N];
     generate_content := fun _ _ => Ok (lit "An answer.");
     qdrant_upsert := fun _ _ => None;
     qdrant_search := fun _ _ _ _ => Ok [];
     uuid4 := fun h => N.of_nat (length h);
     utcnow_isoformat := fun _ => lit "2024-01-01T00:00:00";
     os_remove := fun _ _ => None |}.


(** Nothing has happened yet; the uploaded file is on disk. *)
Definition start : World := {| history := []; files := {[upload]} |}.

End Examples.

(** ** What the properties observe *)

Module Observations.
Import Py Runtime.

(** The batches handed to [QdrantClient.upsert], oldest first. *)
Definition upserts (h : list event) : list (list PointStruct) :=
  flat_map (fun ev => match ev with
                      | EvUpsert points => [points]
                      | _ => []
                      end) h.

(** [os.remove] does not fail on [file_path]. *)
Definition removable (env : Env) (file_path : str) : Prop :=
  forall h, os_remove env h file_path = None.

(** Some embedding call of the ingest of [file_path] raises [e]: the
    document is processed into chunks, the chunks before [chunk] are
    embedded, and the call for [chunk] raises, leaving the world [w']. *)
Definition embedding_fails (env : Env) (file_path : str) (w : World)
    (e : exn) (w' : World) : Prop :=
  exists chunks base_metadata w1 before chunk after embeddings w2,
    document_processor.process_document env file_path w
      = (Ok (chunks, base_metadata), w1) /\
    chunks = before ++ chunk :: after /\
    rag_engine.embed_chunks env before w1 = (Ok embeddings, w2) /\
    llm_client.generate_embeddings env chunk w2 = (Err e, w').

(** The payload [add_documents] stores for a chunk: its metadata, the
    chunk text and a timestamp. *)
Definition stored_payload (text stamp : str) (meta : gmap str value)
    : gmap str value :=
  <[lit "timestamp" := VStr stamp]> (<[lit "text" := VStr text]> meta).

(** The point [add_documents] builds for an item of its zipped
    arguments: a generated id, the item's vector, the stored payload. *)
Definition stored_as (env : Env) (p : PointStruct)
    (item : str * list float * gmap str value) : Prop :=
  (exists h, point_id p = str_uuid (uuid4 env h)) /\
  point_vector p = item.1.2 /\
  exists stamp, point_payload p = stored_payload item.1.1 stamp item.2.

(** The filename of a search result as the specification words it: the
    [filename] field of its metadata, "Unknown" when it has none. *)
Definition filename_or_unknown (result : vector_store.SearchResult)
    : value :=
  match vector_store.sr_metadata result !! lit "filename" with
  | Some name => name
  | None => VStr (lit "Unknown")
  end.

(** The events of the first [n] rounds of the loop of [add_documents]:
    one id drawn and one reading of the clock per round. *)
Definition draws (n : nat) : list event :=
  concat (replicate n [EvUuid4; EvUtcnow]).

(** The value [uuid.uuid4()] returns in round [i] of that loop during the
    ingest of a document whose processing left the world [w1] and gave
    [chunks]: the call comes after the embedding calls of all chunks and
    the [i] rounds before it. *)
Definition drawn (env : Env) (chunks : list str) (w1 : World) (i : nat) : N :=
  uuid4 env (history w1
               ++ map (EvEmbed (lit "retrieval_document")) chunks
               ++ draws i).
End Observations.

(** ** app/config.py, continued: the settings read from the environment *)

Module settings.
Import Py.

(** The fields of [Settings] the code below reads. *)
Record Settings : Type :=
  { ALLOWED_FILE_TYPES : str;
    MAX_FILE_SIZE_MB : Z;
    UPLOAD_DIR : str;
    QDRANT_COLLECTION_NAME : str }.

(** The values of the class definition, used when the environment sets
    nothing. *)
Definition defaults : Settings :=
  {| ALLOWED_FILE_TYPES := lit "pdf,xlsx,xls,txt,png,jpg,jpeg";
     MAX_FILE_SIZE_MB := 10;
     UPLOAD_DIR := lit "uploads";
     QDRANT_COLLECTION_NAME := lit "RAG-ChatBot" |}.

(** [s.split(sep)] for a one-character [sep]. *)
Fixpoint split (sep : char) (s : str) : list str :=
  match s with
  | [] => [[]]
  | c :: rest =>
      if (c =? sep)%N then [] :: split sep rest
      else match split sep rest with
           | [] => [[c]]
           | part :: parts => (c :: part) :: parts
           end
  end.

(** [Settings.allowed_file_types_list] *)
Definition allowed_file_types_list (cfg : Settings) : list str :=
  map strip (split 44%N (ALLOWED_FILE_TYPES cfg)).

(** [Settings.max_file_size_bytes] *)
Definition max_file_size_bytes (cfg : Settings) : Z :=
  MAX_FILE_SIZE_MB cfg * 1024 * 1024.

End settings.

(** ** The web framework and the services the code below calls *)

Module Platform.
Import Py Runtime.

(** What the code below takes from outside the repository, beside [Env].
    These calls are not recorded in the history. *)
Record Platform : Type :=
  { (* str(e) of an HTTPException with this status code and detail *)
    http_str : Z -> str -> str;
    (* open(path, "wb") and write(content): [None] when both return,
       otherwise the exception and whether the file was created *)
    write_file : list event -> str -> list N -> option (exn * bool);
    (* QdrantClient.get_collection(name): points_count and status *)
    qdrant_get_collection : list event -> str -> result (value * value);
    (* whether a class of this name is ValueError or a subclass of it *)
    is_ValueError : str -> bool;
    (* the exception of a response model given a filename that is not a
       string *)
    validation_error : value -> exn }.

(** [HTTPException(status_code=..., detail=...)] as an exception. *)
Definition HTTPException (pf : Platform) (status_code : Z) (detail : str)
    : exn :=
  Exc (lit "HTTPException") (http_str pf status_code detail).

(** What a route hands to the framework: a value to serialise, or an
    [HTTPException] it raised. *)
Inductive http (A : Type) : Type :=
| Response (a : A)
| HTTPError (status_code : Z) (detail : str).
Arguments Response {A} a.
Arguments HTTPError {A} status_code detail.

End Platform.

(** ** app/utils/file_utils.py, continued *)

Module upload_utils.
Import Py Runtime Platform settings.

(** [fastapi.UploadFile]: the name the client sent and the bytes. *)
Record UploadFile : Type :=
  { upload_filename : str; upload_content : list N }.

(** [validate_file_type] *)
Definition validate_file_type (env : Env) (cfg : Settings) (filename : str)
    : bool :=
  let ext := lower env (document_processor.after_last 46%N filename) in
  bool_decide (ext ∈ allowed_file_types_list cfg).

(** [validate_file_size] *)
Definition validate_file_size (cfg : Settings) (file_size : Z) : bool :=
  file_size <=? max_file_size_bytes cfg.

(** [os.path.join(a, b)] on a POSIX system. *)
Definition path_join (a b : str) : str :=
  if bool_decide (head b = Some 47%N) then b
  else if bool_decide (a = [] \/ last a = Some 47%N) then a ++ b
  else a ++ lit "/" ++ b.

(** [with open(file_path, "wb") as f: f.write(content)] *)
Definition write (pf : Platform) (file_path : str) (content : list N)
    : M unit :=
  fun w =>
    match write_file pf (history w) file_path content with
    | None =>
        (Ok tt, {| history := history w; files := files w ∪ {[file_path]} |})
    | Some (e, created) =>
        (Err e, {| history := history w;
                   files := if created then files w ∪ {[file_path]}
                            else files w |})
    end.

(** [save_upload_file]. The upload has a filename, and reading it gives
    its content. *)
Definition save_upload_file (env : Env) (cfg : Settings) (pf : Platform)
    (upload_file : UploadFile) : M str :=
  if negb (validate_file_type env cfg (upload_filename upload_file)) then
    raise (HTTPException pf 400
             (lit "File type not allowed. Allowed types: "
                ++ ALLOWED_FILE_TYPES cfg))
  else
    let content := upload_content upload_file in
    let file_size := len content in
    if negb (validate_file_size cfg file_size) then
      raise (HTTPException pf 400
               (lit "File too large. Maximum size: "
                  ++ str_of_Z (MAX_FILE_SIZE_MB cfg) ++ lit "MB"))
    else
      do unique <- uuid4_str env;
      let unique_filename :=
        unique ++ lit "_" ++ upload_filename upload_file in
      let file_path := path_join (UPLOAD_DIR cfg) unique_filename in
      try_except
        (do _ <- write pf file_path content; ret file_path)
        (fun e => raise (HTTPException pf 500 (lit "Error saving file"))).

End upload_utils.

(** ** app/core/vector_store.py and app/core/rag_engine.py, continued:
    collection statistics *)

Module stats.
Import Py Runtime Platform settings.

(** [VectorStore.get_collection_info] *)
Definition get_collection_info (cfg : Settings) (pf : Platform)
    : M (gmap str value) :=
  fun w =>
    match qdrant_get_collection pf (history w) (QDRANT_COLLECTION_NAME cfg)
    with
    | Ok (points_count, status) =>
        (Ok (<[lit "status" := status]>
             (<[lit "points_count" := points_count]>
              (<[lit "name" := VStr (QDRANT_COLLECTION_NAME cfg)]> ∅))), w)
    | Err _ => (Ok ∅, w)
    end.

(** [RAGEngine.get_collection_stats] *)
Definition get_collection_stats (cfg : Settings) (pf : Platform)
    : M (gmap str value) :=
  try_except (get_collection_info cfg pf)
             (fun e => ret (<[lit "error" := VStr (exn_msg e)]> ∅)).

End stats.

(** ** app/services/chat_service.py *)

Module chat_service.
Import Py Runtime Platform settings upload_utils.

(** [ChatService.handle_chat_message] *)
Definition handle_chat_message (env : Env) (message : str)
    (conversation_id : option str) : M rag_engine.QueryResult :=
  try_except
    (rag_engine.query env message conversation_id 5)
    (fun e => raise (Exception (lit "Failed to process message: "
                                  ++ exn_msg e))).

(** [ChatService.handle_file_upload] *)
Definition handle_file_upload (env : Env) (cfg : Settings) (pf : Platform)
    (file : UploadFile) : M rag_engine.IngestResult :=
  try_except
    (do file_path <- save_upload_file env cfg pf file;
     do result <- rag_engine.process_and_store_document env file_path;
     ret result)
    (fun e => raise (Exception (lit "Failed to process file: "
                                  ++ exn_msg e))).

(** [ChatService.get_stats] *)
Definition get_stats (cfg : Settings) (pf : Platform) : M (gmap str value) :=
  try_except (stats.get_collection_stats cfg pf)
             (fun e => ret (<[lit "error" := VStr (exn_msg e)]> ∅)).

End chat_service.

(** ** app/api/routes/chat.py: the upload and statistics routes *)

Module routes.
Import Py Runtime Platform settings upload_utils.

(** [app.models.document.DocumentUploadResponse] *)
Record DocumentUploadResponse : Type :=
  { success : bool; message : str; document_id : option str;
    filename : str }.

(** [upload_document]. Building the response checks that the filename is
    a string; the exception of that check is handled like any other. *)
Definition upload_document (env : Env) (cfg : Settings) (pf : Platform)
    (file : UploadFile) : World -> http DocumentUploadResponse * World :=
  fun w =>
    let handle (e : exn) : http DocumentUploadResponse :=
      if is_ValueError pf (exn_class e) then HTTPError 400 (exn_msg e)
      else HTTPError 500 (lit "Failed to process document: " ++ exn_msg e) in
    match chat_service.handle_file_upload env cfg pf file w with
    | (Ok result, w') =>
        match rag_engine.filename result with
        | VStr name =>
            (Response
               {| success := rag_engine.success result;
                  message := rag_engine.message result;
                  document_id :=
                    match rag_engine.document_ids result with
                    | doc_id :: _ => Some doc_id
                    | [] => None
                    end;
                  filename := name |}, w')
        | other => (handle (validation_error pf other), w')
        end
    | (Err e, w') => (handle e, w')
    end.

(** [get_stats] *)
Definition get_stats (cfg : Settings) (pf : Platform)
    : World -> http (gmap str value) * World :=
  fun w =>
    match chat_service.get_stats cfg pf w with
    | (Ok stats, w') => (Response stats, w')
    | (Err e, w') => (HTTPError 500 (exn_msg e), w')
    end.

End routes.

(** ** app/utils/text_utils.py, continued: [extract_keywords] *)

Module keywords.
Import Py Runtime.

(** [\w]: an alphanumeric character or the underscore. *)
Definition is_word (env : Env) (c : char) : bool :=
  isalnum env c || (c =? 95)%N.

(** [[a-zA-Z]] *)
Definition is_letter (c : char) : bool :=
  ((65 <=? c) && (c <=? 90) || (97 <=? c) && (c <=? 122))%N.

Definition word_at (env : Env) (c : option char) : bool :=
  match c with
  | Some c => is_word env c
  | None => false
  end.

(** [\b] between [prev] and [cur] ([None] outside the string): exactly
    one of the two is a word character. *)
Definition boundary (env : Env) (prev cur : option char) : bool :=
  xorb (word_at env prev) (word_at env cur).

(** The number of letters [s] starts with. *)
Fixpoint letters_run (s : str) : nat :=
  match s with
  | c :: rest => if is_letter c then S (letters_run rest) else O
  | [] => O
  end.

(** [[a-zA-Z]{4,}\b] at the start of [s], with at most [k] letters: the
    greedy quantifier takes [k] letters and gives them back one by one
    until a word boundary follows; it needs 4 of them. *)
Fixpoint longest_match (env : Env) (s : str) (k : nat) : option nat :=
  match k with
  | O => None
  | S k' =>
      if (4 <=? k)%nat && boundary env (s !! k') (s !! k) then Some k
      else longest_match env s k'
  end.

(** The length of the match of [\b[a-zA-Z]{4,}\b] at the start of [s],
    which follows [prev]. *)
Definition match_at (env : Env) (prev : option char) (s : str) : option nat :=
  if boundary env prev (head s) then longest_match env s (letters_run s)
  else None.

(** [re.findall(r'\b[a-zA-Z]{4,}\b', ...)] from left to right: [skip]
    characters still belong to the last match; after them the pattern is
    tried at every position, and a match is not searched again. *)
Fixpoint scan (env : Env) (prev : option char) (s : str) (skip : nat)
    : list str :=
  match s with
  | [] => []
  | c :: rest =>
      match skip with
      | S n => scan env (Some c) rest n
      | O =>
          match match_at env prev s with
          | Some k => take k s :: scan env (Some c) rest (k - 1)
          | None => scan env (Some c) rest O
          end
      end
  end.

Definition stop_words : list str :=
  [lit "this"; lit "that"; lit "with"; lit "from"; lit "have"; lit "been";
   lit "were"; lit "will"; lit "would"; lit "could"; lit "should"].

(** [word_freq[word] = word_freq.get(word, 0) + 1] on a dictionary kept
    as the list of its items in insertion order. *)
Fixpoint bump (word : str) (word_freq : list (str * Z)) : list (str * Z) :=
  match word_freq with
  | [] => [(word, 1)]
  | (w, n) :: rest =>
      if bool_decide (w = word) then (w, n + 1) :: rest
      else (w, n) :: bump word rest
  end.

Definition count_words (words : list str) : list (str * Z) :=
  fold_left (fun word_freq word => bump word word_freq) words [].

(** [sorted(items, key=lambda x: x[1], reverse=True)]: the sort is
    stable, so an item is put after the items that came before it and have
    a count at least as large. *)
Fixpoint insert_sorted (x : str * Z) (l : list (str * Z)) : list (str * Z) :=
  match l with
  | [] => [x]
  | y :: rest => if x.2 <=? y.2 then y :: insert_sorted x rest else x :: l
  end.

Definition sorted_by_count (items : list (str * Z)) : list (str * Z) :=
  fold_left (fun acc x => insert_sorted x acc) items [].

(** The words [extract_keywords] counts: the matches in the lower-cased
    text that are not stop words. *)
Definition counted_words (env : Env) (text : str) : list str :=
  List.filter (fun w => negb (bool_decide (w ∈ stop_words)))
              (scan env None (lower env text) O).

(** How often [word] occurs in [words]. *)
Definition occurrences (word : str) (words : list str) : Z :=
  len (List.filter (fun w => bool_decide (w = word)) words).

(** [extract_keywords] *)
Definition extract_keywords (env : Env) (text : str) (top_n : Z) : list str :=
  let words := scan env None (lower env text) O in
  let words :=
    List.filter (fun w => negb (bool_decide (w ∈ stop_words))) words in
  let word_freq := count_words words in
  let sorted_words := sorted_by_count word_freq in
  map fst (slice sorted_words 0 top_n).

End keywords.

(** ** More concrete inputs *)

Module Examples2.
Import Py Runtime Platform settings upload_utils Examples.

(** [quiet_env] with an extractor that finds spaces, a tab and two
    characters that cleaning removes. *)
Definition blank_env : Env :=
  {| isalnum := ascii_alnum;
     lower := ascii_lower;
     extract_text := fun _ _ _ => Ok [32%N; 35%N; 9%N; 64%N; 32%N];
     embed_content := fun _ _ _ => Ok [0%N; 0%N];
     generate_content := fun _ _ => Ok (lit "An answer.");
     qdrant_upsert := fun _ _ => None;
     qdrant_search := fun _ _ _ _ => Ok [];
     uuid4 := fun h => N.of_nat (length h);
     utcnow_isoformat := fun _ => lit "2024-01-01T00:00:00";
     os_remove := fun _ _ => None |}.

(** [quiet_env] with an index that refuses every call. *)
Definition down_env : Env :=
  {| isalnum := ascii_alnum;
     lower := ascii_lower;
     extract_text := fun _ _ _ => Ok hello;
     embed_content := fun _ _ _ => Ok [0%N; 0%N];
     generate_content := fun _ _ => Ok (lit "An answer.");
     qdrant_upsert :=
       fun _ _ => Some (Exc (lit "UnexpectedResponse") (lit "503"));
     qdrant_search :=
       fun _ _ _ _ => Err (Exc (lit "UnexpectedResponse") (lit "503"));
     uuid4 := fun h => N.of_nat (length h);
     utcnow_isoformat := fun _ => lit "2024-01-01T00:00:00";
     os_remove := fun _ _ => None |}.

Definition word_file : str := lit "uploads/report.docx".

(** A platform on which writing works, the collection has three points,
    and only [ValueError] itself counts as a [ValueError]. *)
Definition plain_platform : Platform :=
  {| http_str := fun status detail => str_of_Z status ++ lit ": " ++ detail;
     write_file := fun _ _ _ => None;
     qdrant_get_collection := fun _ _ => Ok (VInt 3, VStr (lit "green"));
     is_ValueError := fun cls => bool_decide (cls = lit "ValueError");
     validation_error := fun _ => Exc (lit "ValidationError") (lit "filename") |}.

(** The same platform, with an index that cannot be reached. *)
Definition offline_platform : Platform :=
  {| http_str := fun status detail => str_of_Z status ++ lit ": " ++ detail;
     write_file := fun _ _ _ => None;
     qdrant_get_collection :=
       fun _ _ => Err (Exc (lit "ConnectionError") (lit "refused"));
     is_ValueError := fun cls => bool_decide (cls = lit "ValueError");
     validation_error := fun _ => Exc (lit "ValidationError") (lit "filename") |}.

Definition notes_upload : UploadFile :=
  {| upload_filename := lit "Notes.TXT"; upload_content := [72%N; 105%N] |}.

Definition word_upload : UploadFile :=
  {| upload_filename := lit "report.docx"; upload_content := [72%N; 105%N] |}.

(** Nothing has happened yet and the disk is empty. *)
Definition fresh : World := {| history := []; files := ∅ |}.

(** The same as [quiet_env], on a disk that refuses to remove files. *)
Definition locked_env : Env :=
  {| isalnum := ascii_alnum;
     lower := ascii_lower;
     extract_text := fun _ _ _ => Ok hello;
     embed_content := fun _ _ _ => Ok [0%N; 0%N];
     generate_content := fun _ _ => Ok (lit "An answer.");
     qdrant_upsert := fun _ _ => None;
     qdrant_search := fun _ _ _ _ => Ok [];
     uuid4 := fun h => N.of_nat (length h);
     utcnow_isoformat := fun _ => lit "2024-01-01T00:00:00";
     os_remove := fun _ _ => Some (Exc (lit "PermissionError")
                                       (lit "Permission denied")) |}.

(** The same as [failing_env], on a disk that refuses to remove files. *)
Definition locked_failing_env : Env :=
  {| isalnum := ascii_alnum;
     lower := ascii_lower;
     extract_text := fun _ _ _ => Ok hello;
     embed_content := fun _ _ _ => Err (Exc (lit "ResourceExhausted")
                                            (lit "quota"));
     generate_content := fun _ _ => Ok (lit "An answer.");
     qdrant_upsert := fun _ _ => None;
     qdrant_search := fun _ _ _ _ => Ok [];
     uuid4 := fun h => N.of_nat (length h);
     utcnow_isoformat := fun _ => lit "2024-01-01T00:00:00";
     os_remove := fun _ _ => Some (Exc (lit "PermissionError")
                                       (lit "Permission denied")) |}.
End Examples2.

(** * Properties *)

(** ** Strings: slices, [rfind], [strip] *)

Section StringFacts.
Import Py.

Lemma len_nonneg {A} (l : list A) : 0 <= len l.
Proof. unfold len. lia. Qed.

Lemma find_last_bounds c seg : forall i acc,
  find_last c seg i acc = acc \/
  (i <= find_last c seg i acc < i + len seg).
Proof.
  induction seg as [|x rest IH]; intros i acc; simpl.
  - now left.
  - unfold len in *. simpl length. rewrite Nat2Z.inj_succ.
    destruct (IH (i + 1) (if (x =? c)%N then i else acc)) as [E | B].
    + rewrite E. destruct (x =? c)%N; [right; lia | now left].
    + right. lia.
Qed.

(** [rfind] answers -1 or an index of its adjusted range. *)
Lemma rfind_bounds text c start stop :
  0 <= stop <= len text ->
  rfind text c start stop = -1 \/
  (adjust_index (len text) start <= rfind text c start stop < stop).
Proof.
  intros Hstop. unfold rfind.
  replace (if stop >? len text then len text
           else adjust_index (len text) stop) with stop.
  2:{ destruct (Z.gtb_spec stop (len text)); [lia|].
      unfold adjust_index. destruct (Z.ltb_spec stop 0); lia. }
  set (lo := adjust_index (len text) start).
  assert (0 <= lo) as Hlo.
  { unfold lo, adjust_index. destruct (Z.ltb_spec start 0); lia. }
  match goal with |- context [find_last c ?seg lo (-1)] =>
    destruct (find_last_bounds c seg lo (-1)) as [E | B];
    [now left | right];
    assert (len seg <= Z.max 0 (stop - lo)) as Hseg
  end.
  { unfold len. rewrite length_take. lia. }
  lia.
Qed.

Lemma length_slice {A} (text : list A) start stop :
  0 <= start -> start <= stop ->
  len (slice text start stop) = Z.min (len text) stop - Z.min (len text) start.
Proof.
  intros H0 H1. unfold slice, adjust_index.
  destruct (Z.ltb_spec start 0); [lia|].
  destruct (Z.ltb_spec stop 0); [lia|].
  unfold len. rewrite length_take, length_drop. lia.
Qed.

Lemma slice_elem_of {A} (text : list A) start stop x :
  x ∈ slice text start stop -> x ∈ text.
Proof.
  unfold slice. intros H.
  eapply subseteq_drop, subseteq_take, H.
Qed.

Lemma lstrip_idem s : lstrip (lstrip s) = lstrip s.
Proof.
  induction s as [|c rest IH]; simpl; [reflexivity|].
  destruct (isspace c) eqn:E; [exact IH|]. simpl. now rewrite E.
Qed.

Lemma length_lstrip s : (length (lstrip s) <= length s)%nat.
Proof.
  induction s as [|c rest IH]; simpl; [lia|].
  destruct (isspace c); simpl; lia.
Qed.

(** A left-stripped string is empty or starts with a character that is
    not whitespace. *)
Lemma lstrip_head s :
  lstrip s = [] \/ exists c rest, lstrip s = c :: rest /\ isspace c = false.
Proof.
  induction s as [|c rest IH]; simpl; [now left|].
  destruct (isspace c) eqn:E; [exact IH|]. right. eauto.
Qed.

Lemma lstrip_fixed c rest : isspace c = false -> lstrip (c :: rest) = c :: rest.
Proof. intros E. simpl. now rewrite E. Qed.

(** Stripping on the left never removes a last character that is not
    whitespace. *)
Lemma lstrip_snoc s c :
  isspace c = false -> exists s', lstrip (s ++ [c]) = s' ++ [c].
Proof.
  intros E. induction s as [|x rest IH]; simpl.
  - rewrite E. now exists [].
  - destruct (isspace x); [exact IH|]. now exists (x :: rest).
Qed.

Lemma lstrip_nonempty s c :
  c ∈ s -> isspace c = false -> lstrip s <> [].
Proof.
  induction s as [|x rest IH]; intros Hin E.
  - inversion Hin.
  - simpl. destruct (isspace x) eqn:Ex; [|discriminate].
    apply IH; [|exact E]. inversion Hin; subst; [congruence | assumption].
Qed.

(** Stripping on the right keeps a string left-stripped. *)
Lemma rstrip_keeps_lstrip s : lstrip s = s -> lstrip (rstrip s) = rstrip s.
Proof.
  intros Hs. destruct (lstrip_head s) as [E | (c & rest & E & Hc)].
  - rewrite Hs in E. subst s. reflexivity.
  - rewrite Hs in E. subst s. unfold rstrip. simpl rev.
    destruct (lstrip_snoc (rev rest) c Hc) as [s' ->].
    rewrite rev_app_distr. simpl. now rewrite Hc.
Qed.

Lemma rstrip_idem s : rstrip (rstrip s) = rstrip s.
Proof. unfold rstrip. now rewrite rev_involutive, lstrip_idem. Qed.

(** [strip] is idempotent: a stripped string equals its own strip. *)
Lemma strip_idem s : strip (strip s) = strip s.
Proof.
  unfold strip.
  rewrite (rstrip_keeps_lstrip (lstrip s) (lstrip_idem s)).
  apply rstrip_idem.
Qed.

Lemma strip_nonempty s c : c ∈ s -> isspace c = false -> strip s <> [].
Proof.
  intros Hin E. unfold strip, rstrip.
  destruct (lstrip_head s) as [E0 | (x & rest & E0 & Hx)].
  - exfalso. now apply (lstrip_nonempty s c).
  - rewrite E0. simpl rev.
    destruct (lstrip_snoc (rev rest) x Hx) as [s' ->].
    rewrite rev_app_distr. discriminate.
Qed.

(** A string without whitespace is its own strip. *)
Lemma strip_no_space s :
  (forall c, c ∈ s -> isspace c = false) -> strip s = s.
Proof.
  intros H.
  assert (forall t, (forall c, c ∈ t -> isspace c = false) -> lstrip t = t)
    as L.
  { intros [|x t'] Ht; [reflexivity|]. apply lstrip_fixed, Ht. left. }
  unfold strip, rstrip. rewrite (L s H), L.
  - apply rev_involutive.
  - intros c Hc. apply H. apply list_elem_of_In.
    apply in_rev. now apply list_elem_of_In.
Qed.

End StringFacts.

(** ** The chunker's loop *)

Section ChunkerFacts.
Import Py text_utils.

(** The window end is the nominal cut [start + chunk_size], or it was
    moved back: then the nominal cut lies inside the text, the new end is
    at least two characters after [start], and at most 99 before the
    nominal cut once that cut is at 100 or later. *)
Lemma window_end_cases text chunk_size start :
  0 <= start -> 0 < chunk_size ->
  window_end text chunk_size start = start + chunk_size \/
  (start + chunk_size < len text /\
   start + 2 <= window_end text chunk_size start <= start + chunk_size /\
   (100 <= start + chunk_size ->
    start + chunk_size - 99 <= window_end text chunk_size start)).
Proof.
  intros Hs Hc. unfold window_end.
  destruct (Z.ltb_spec (start + chunk_size) (len text)) as [Hlt | Hge];
    [|now left].
  set (e := start + chunk_size).
  set (bp := Z.max (Z.max (rfind text dot (e - 100) e)
                          (rfind text question (e - 100) e))
                   (rfind text exclamation (e - 100) e)).
  destruct (Z.gtb_spec bp start) as [Hbp | Hbp]; [right | now left].
  split; [exact Hlt|].
  assert (0 <= e <= len text) as He by (unfold e; lia).
  assert (100 <= e -> adjust_index (len text) (e - 100) = e - 100) as Hlo.
  { intros. unfold adjust_index. destruct (Z.ltb_spec (e - 100) 0); lia. }
  pose proof (rfind_bounds text dot (e - 100) e He) as P.
  pose proof (rfind_bounds text question (e - 100) e He) as Q.
  pose proof (rfind_bounds text exclamation (e - 100) e He) as X.
  assert (bp < e /\ (100 <= e -> e - 100 <= bp)) as [Hlt_e Hge_lo].
  { split; [unfold bp; lia|]. intros H100. rewrite (Hlo H100) in *.
    unfold bp in *. lia. }
  unfold e in *. lia.
Qed.

(** With [chunk_size - overlap >= 100] every round moves [start]
    forward. *)
Lemma window_progress text chunk_size overlap start :
  0 <= start -> 0 <= overlap -> 100 <= chunk_size - overlap ->
  start < window_end text chunk_size start - overlap.
Proof.
  intros Hs Ho Hc.
  destruct (window_end_cases text chunk_size start) as [E | (_ & B & L)];
    lia.
Qed.

Lemma chunk_windows_terminates text chunk_size overlap :
  0 <= overlap -> 100 <= chunk_size - overlap ->
  forall fuel start,
    0 <= start -> Z.max 0 (len text - start) < Z.of_nat fuel ->
    exists ws, chunk_windows fuel text chunk_size overlap start = Some ws.
Proof.
  intros Ho Hc. induction fuel as [|fuel IH]; intros start Hs Hf; [lia|].
  simpl. destruct (Z.ltb_spec start (len text)) as [Hlt | Hge].
  - pose proof (window_progress text chunk_size overlap start Hs Ho Hc).
    destruct (IH (window_end text chunk_size start - overlap)) as [ws ->];
      [lia | lia |]. simpl. eauto.
  - eauto.
Qed.

(** The loop returns the chunks it was entered with, followed by the
    chunks of the windows it visits. *)
Lemma chunk_loop_windows text chunk_size overlap : forall fuel start chunks,
  chunk_loop fuel text chunk_size overlap start chunks =
  (fun ws => chunks ++ chunks_of text ws) <$>
    chunk_windows fuel text chunk_size overlap start.
Proof.
  induction fuel as [|fuel IH]; intros start chunks; simpl; [reflexivity|].
  destruct (start <? len text).
  - rewrite IH.
    destruct (chunk_windows fuel text chunk_size overlap _) as [ws|];
      simpl; [|reflexivity].
    f_equal. unfold chunks_of. simpl map. rewrite filter_cons.
    destruct (strip (slice text start (window_end text chunk_size start)))
      as [|c s] eqn:E; simpl.
    + destruct (decide (false = true)) as [D|D]; [discriminate|].
      reflexivity.
    + destruct (decide (true = true)) as [D|D]; [|congruence].
      now rewrite <- app_assoc.
  - simpl. unfold chunks_of. simpl. now rewrite app_nil_r.
Qed.

(** More fuel does not change a result. *)
Lemma chunk_windows_fuel text chunk_size overlap : forall fuel fuel' start ws,
  chunk_windows fuel text chunk_size overlap start = Some ws ->
  (fuel <= fuel')%nat ->
  chunk_windows fuel' text chunk_size overlap start = Some ws.
Proof.
  induction fuel as [|fuel IH]; intros fuel' start ws H Hle;
    [discriminate|].
  destruct fuel' as [|fuel']; [lia|]. simpl in *.
  destruct (start <? len text); [|exact H].
  destruct (chunk_windows fuel text chunk_size overlap _) as [ws0|] eqn:E;
    [|discriminate].
  rewrite (IH fuel' _ ws0 E); [exact H | lia].
Qed.

Lemma chunk_text_fuel text chunk_size overlap fuel fuel' chunks chunks' :
  chunk_text fuel text chunk_size overlap = Some chunks ->
  chunk_text fuel' text chunk_size overlap = Some chunks' ->
  chunks = chunks'.
Proof.
  unfold chunk_text. destruct (len text <=? chunk_size); [congruence|].
  rewrite !chunk_loop_windows. intros H H'.
  destruct (chunk_windows fuel _ _ _ _) as [ws|] eqn:E; [|discriminate].
  destruct (chunk_windows fuel' _ _ _ _) as [ws'|] eqn:E'; [|discriminate].
  destruct (Nat.le_ge_cases fuel fuel') as [L | L].
  - rewrite (chunk_windows_fuel _ _ _ _ _ _ _ E L) in E'.
    simpl in *. congruence.
  - rewrite (chunk_windows_fuel _ _ _ _ _ _ _ E' L) in E.
    simpl in *. congruence.
Qed.

(** Every chunk of a list of windows is stripped and not empty. *)
Lemma chunks_of_trimmed text ws c :
  c ∈ chunks_of text ws -> strip c = c /\ c <> [].
Proof.
  unfold chunks_of. intros H.
  apply list_elem_of_filter in H as [Ht H].
  apply list_elem_of_In, in_map_iff in H as (w & <- & _).
  split; [apply strip_idem|]. intros E. rewrite E in Ht. discriminate.
Qed.

(** With the parameters [document_processor] uses the chunker returns
    within [len(text) + 1] rounds. *)
Lemma chunk_text_terminates text chunk_size overlap :
  0 <= overlap -> 100 <= chunk_size - overlap ->
  exists chunks,
    chunk_text (S (length text)) text chunk_size overlap = Some chunks.
Proof.
  intros Ho Hc. unfold chunk_text.
  destruct (len text <=? chunk_size); [eauto|].
  rewrite chunk_loop_windows.
  destruct (chunk_windows_terminates text chunk_size overlap Ho Hc
              (S (length text)) 0) as [ws ->]; [lia | unfold len; lia |].
  simpl. eauto.
Qed.

(** So the rounds [process_document] allows are enough: the chunker
    returns for every text. *)
Corollary chunk_text_default_returns text :
  text_utils.chunk_text (S (length text)) text 1000 200 <> None.
Proof.
  destruct (chunk_text_terminates text 1000 200) as [chunks ->];
    [lia | lia | discriminate].
Qed.

End ChunkerFacts.

(** ** The chunker: the properties of the specification *)

Section Chunker.
Import Py text_utils Examples.

Lemma chunk_windows_in fuel text chunk_size overlap start :
  start < len text ->
  chunk_windows (S fuel) text chunk_size overlap start =
  cons (start, window_end text chunk_size start) <$>
    chunk_windows fuel text chunk_size overlap
      (window_end text chunk_size start - overlap).
Proof.
  intros H. simpl. destruct (Z.ltb_spec start (len text)); [reflexivity|lia].
Qed.

Lemma chunk_windows_out fuel text chunk_size overlap start :
  len text <= start ->
  chunk_windows (S fuel) text chunk_size overlap start = Some [].
Proof.
  intros H. simpl. destruct (Z.ltb_spec start (len text)); [lia|reflexivity].
Qed.

Lemma window_end_past text chunk_size start :
  len text <= start + chunk_size ->
  window_end text chunk_size start = start + chunk_size.
Proof.
  intros H. unfold window_end.
  destruct (Z.ltb_spec (start + chunk_size) (len text)); [lia|reflexivity].
Qed.

(** In a text without whitespace, the chunks of windows that start inside
    the text and are not empty are the slices themselves. *)
Lemma chunks_of_no_space text ws :
  (forall c, c ∈ text -> isspace c = false) ->
  Forall (fun w => 0 <= w.1 < len text /\ w.1 < w.2) ws ->
  chunks_of text ws = map (fun w => slice text w.1 w.2) ws.
Proof.
  intros Hns. unfold chunks_of. induction 1 as [|w ws [Hw1 Hw2] _ IH];
    [reflexivity|].
  simpl map. rewrite filter_cons.
  assert (strip (slice text w.1 w.2) = slice text w.1 w.2) as ->.
  { apply strip_no_space. intros c Hc. eapply Hns, slice_elem_of, Hc. }
  assert (truthy (slice text w.1 w.2) = true) as Ht.
  { pose proof (length_slice text w.1 w.2 ltac:(lia) ltac:(lia)) as L.
    destruct (slice text w.1 w.2); [|reflexivity].
    change (len (@nil char)) with 0 in L. lia. }
  destruct (decide (truthy (slice text w.1 w.2) = true)); [|contradiction].
  simpl map. f_equal. exact IH.
Qed.

(** C1, at a failing input. With [chunk_size = 4] and [overlap = 2] (so
    [chunk_size > 0] and [0 <= overlap < chunk_size]) the loop of
    [chunk_text] never leaves on the five-character text "a.bbb": the
    window that starts at 0 is cut back to end after the sentence end at
    index 1, and [start = end - overlap] is 0 again. Whatever the number
    of rounds allowed, no result is returned. *)
Theorem chunk_text_diverges :
  forall fuel, chunk_text fuel looping_text 4 2 = None.
Proof.
  intros fuel. unfold chunk_text.
  replace (len looping_text <=? 4) with false by reflexivity.
  generalize (@nil str).
  induction fuel as [|fuel IH]; intros chunks; [reflexivity|].
  simpl chunk_loop.
  replace (0 <? len looping_text) with true by reflexivity.
  replace (window_end looping_text 4 0) with 2 by reflexivity.
  replace (2 - 2) with 0 by reflexivity.
  apply IH.
Qed.

(** C2 fails as stated: the text made of 2500 letters a is cut into 4
    chunks, not 3, however many rounds the loop is given. *)
Lemma chunk_text_2500_not_three :
  ~ exists fuel chunks,
      chunk_text fuel text_a2500 1000 200 = Some chunks /\
      length chunks = 3%nat.
Proof.
  intros (fuel & chunks & H & L).
  assert (exists c4, chunk_text 5 text_a2500 1000 200 = Some c4 /\
                     length c4 = 4%nat) as (c4 & H4 & L4).
  { eexists. split; [vm_compute; reflexivity|reflexivity]. }
  rewrite (chunk_text_fuel _ _ _ _ _ _ _ H H4) in L. lia.
Qed.

(** C2, amended. A text of 2500 characters is cut with
    [chunk_size = 1000] and [overlap = 200] along exactly four windows:
    each of the first three ends within the last 100 characters of its
    nominal cut, the next one starts 200 before that end, and the fourth
    is the tail of the text. The chunks are the stripped windows that are
    not empty: four chunks when the text has no whitespace. When no window
    end is moved ([e1 = 1000] and the second window ends at 1800), the
    windows start at 0, 800, 1600 and 2400. *)
Theorem chunk_text_2500 (text : str) (fuel : nat) :
  len text = 2500 -> (5 <= fuel)%nat ->
  let e1 := window_end text 1000 0 in
  let e2 := window_end text 1000 (e1 - 200) in
  let e3 := window_end text 1000 (e2 - 200) in
  let ws := [(0, e1); (e1 - 200, e2); (e2 - 200, e3);
             (e3 - 200, e3 + 800)] in
  chunk_windows fuel text 1000 200 0 = Some ws /\
  chunk_text fuel text 1000 200 = Some (chunks_of text ws) /\
  (900 < e1 <= 1000 /\ e1 + 700 < e2 <= e1 + 800 /\
   e2 + 700 < e3 <= e2 + 800) /\
  ((forall c, c ∈ text -> isspace c = false) ->
   length (chunks_of text ws) = 4%nat) /\
  (e1 = 1000 -> window_end text 1000 800 = 1800 ->
   ws = [(0, 1000); (800, 1800); (1600, 2600); (2400, 3400)]).
Proof.
  intros Hlen Hfuel e1 e2 e3 ws.
  assert (900 < e1 <= 1000) as B1.
  { destruct (window_end_cases text 1000 0) as [E | (_ & B & L)];
      unfold e1; lia. }
  assert (e1 + 700 < e2 <= e1 + 800) as B2.
  { destruct (window_end_cases text 1000 (e1 - 200)) as [E | (_ & B & L)];
      unfold e2; lia. }
  assert (e2 + 700 < e3 <= e2 + 800) as B3.
  { destruct (window_end_cases text 1000 (e2 - 200)) as [E | (_ & B & L)];
      unfold e3; lia. }
  assert (window_end text 1000 (e3 - 200) = e3 + 800) as E4.
  { rewrite window_end_past; lia. }
  assert (chunk_windows fuel text 1000 200 0 = Some ws) as Hws.
  { do 5 (destruct fuel as [|fuel]; [lia|]).
    rewrite chunk_windows_in by lia. fold e1.
    rewrite chunk_windows_in by lia. fold e2.
    rewrite chunk_windows_in by lia. fold e3.
    rewrite chunk_windows_in by lia. rewrite E4.
    rewrite chunk_windows_out by lia. reflexivity. }
  split; [exact Hws|]. split; [|split; [lia|split]].
  - unfold chunk_text.
    destruct (Z.leb_spec (len text) 1000); [lia|].
    rewrite chunk_loop_windows, Hws. reflexivity.
  - intros Hns. rewrite chunks_of_no_space; [reflexivity|exact Hns|].
    unfold ws. repeat constructor; simpl; lia.
  - intros H1 H2. unfold ws.
    assert (e2 = 1800) as -> by (unfold e2; rewrite H1; exact H2).
    assert (e3 = 2600) as ->.
    { unfold e3. rewrite window_end_past; lia. }
    rewrite H1. reflexivity.
Qed.

Lemma chunk_text_2500_witness :
  len text_a2500 = 2500 /\ (5 <= 5)%nat /\
  chunk_text 5 text_a2500 1000 200 =
  Some (chunks_of text_a2500
          [(0, 1000); (800, 1800); (1600, 2600); (2400, 3400)]).
Proof.
  assert (len text_a2500 = 2500) as H by reflexivity.
  assert (5 <= 5)%nat as H5 by lia.
  split; [exact H|]. split; [exact H5|].
  exact (proj1 (proj2 (chunk_text_2500 text_a2500 5 H H5))).
Defined.

(** C7 fails as stated: a text no longer than [chunk_size] is returned
    as it is, here with its leading and trailing space, and the empty
    text is returned as one empty chunk. *)
Lemma chunk_text_short_untrimmed :
  chunk_text 1 padded_text 10 2 = Some [padded_text] /\
  strip padded_text <> padded_text /\
  chunk_text 1 [] 10 2 = Some [[]].
Proof. split; [reflexivity|]. split; [discriminate|reflexivity]. Qed.

(** C7, amended. For a text longer than [chunk_size], every chunk of the
    returned sequence equals its own strip and is not empty. *)
Theorem chunk_text_trimmed (fuel : nat) (text : str)
    (chunk_size overlap : Z) (chunks : list str) :
  chunk_size < len text ->
  chunk_text fuel text chunk_size overlap = Some chunks ->
  forall c, c ∈ chunks -> strip c = c /\ c <> [].
Proof.
  intros Hlen. unfold chunk_text.
  destruct (Z.leb_spec (len text) chunk_size); [lia|].
  rewrite chunk_loop_windows.
  destruct (chunk_windows fuel text chunk_size overlap 0) as [ws|];
    [|discriminate].
  simpl. intros [= <-] c Hc. eapply chunks_of_trimmed, Hc.
Qed.

Lemma chunk_text_trimmed_witness :
  4 < len spaced_text /\
  chunk_text 4 spaced_text 4 0 = Some [lit "ab"; lit "ef"] /\
  forall c, c ∈ [lit "ab"; lit "ef"] -> strip c = c /\ c <> [].
Proof.
  assert (4 < len spaced_text) as H by reflexivity.
  assert (chunk_text 4 spaced_text 4 0 = Some [lit "ab"; lit "ef"]) as E
    by reflexivity.
  split; [exact H|]. split; [exact E|].
  exact (chunk_text_trimmed 4 spaced_text 4 0 _ H E).
Defined.

(** C8. A text no longer than [chunk_size] is returned whole, as the
    only chunk. *)
Theorem chunk_text_short (fuel : nat) (text : str) (chunk_size overlap : Z) :
  len text <= chunk_size ->
  chunk_text fuel text chunk_size overlap = Some [text].
Proof.
  intros H. unfold chunk_text.
  destruct (Z.leb_spec (len text) chunk_size); [reflexivity|lia].
Qed.

Lemma chunk_text_short_witness :
  len padded_text <= 1000 /\
  chunk_text 0 padded_text 1000 200 = Some [padded_text].
Proof.
  assert (len padded_text <= 1000) as H by (vm_compute; discriminate).
  split; [exact H|]. exact (chunk_text_short 0 padded_text 1000 200 H).
Defined.

End Chunker.

(** ** Effects: what each operation leaves behind *)

Section Frames.
Import Py Runtime Observations.
Variable env : Env.

Lemma upserts_app h1 h2 : upserts (h1 ++ h2) = upserts h1 ++ upserts h2.
Proof. apply flat_map_app. Qed.

Lemma upserts_record ev w :
  upserts (history (record ev w)) = upserts (history w) ++ upserts [ev].
Proof. apply upserts_app. Qed.

Lemma delete_file_returns file_path w :
  (file_utils.delete_file env file_path w).1 = Ok tt.
Proof.
  unfold file_utils.delete_file. case_bool_decide; [|reflexivity].
  destruct (os_remove env (history w) file_path); reflexivity.
Qed.

Lemma delete_file_upserts file_path w :
  upserts (history (file_utils.delete_file env file_path w).2)
  = upserts (history w).
Proof.
  unfold file_utils.delete_file. case_bool_decide; [|reflexivity].
  destruct (os_remove env (history w) file_path); simpl;
    rewrite upserts_app; simpl; apply app_nil_r.
Qed.

Lemma delete_file_removes file_path w :
  removable env file_path ->
  file_path ∉ files (file_utils.delete_file env file_path w).2.
Proof.
  intros Hrm. unfold file_utils.delete_file.
  destruct (bool_decide_reflect (file_path ∈ files w)) as [Hin | Hout];
    [|exact Hout].
  rewrite Hrm. simpl. apply not_elem_of_difference. right.
  now apply elem_of_singleton.
Qed.

(** The embedding gateway returns what the collaborator returned, of any
    length, and turns its exception into an [Exception] carrying the
    cause. *)
Lemma generate_embeddings_eq text w :
  llm_client.generate_embeddings env text w =
  (match embed_content env (history w) (lit "retrieval_document") text with
   | Ok vector => Ok vector
   | Err e => Err (Exception (lit "Failed to generate embeddings: "
                                ++ exn_msg e))
   end,
   record (EvEmbed (lit "retrieval_document") text) w).
Proof.
  unfold llm_client.generate_embeddings, try_except, call, raise.
  destruct (embed_content env (history w) _ text); reflexivity.
Qed.

Lemma embed_chunks_frame chunks : forall w r w',
  rag_engine.embed_chunks env chunks w = (r, w') ->
  upserts (history w') = upserts (history w) /\ files w' = files w /\
  (forall embeddings, r = Ok embeddings ->
                      length embeddings = length chunks).
Proof.
  induction chunks as [|chunk rest IH]; intros w r w' H; simpl in H.
  - injection H as <- <-.
    split; [|split]; [reflexivity..|]. intros ? [= <-]. reflexivity.
  - unfold bind in H. rewrite generate_embeddings_eq in H.
    destruct (embed_content env (history w) _ chunk) as [v|e].
    + destruct (rag_engine.embed_chunks env rest _) as [[vs|e] w1] eqn:E;
        apply IH in E as (U & F & L); injection H as <- <-;
        rewrite U, upserts_record, F; simpl; rewrite app_nil_r;
        repeat split; try discriminate.
      intros ? [= <-]. simpl. now rewrite (L vs).
    + injection H as <- <-. rewrite upserts_record. simpl.
      rewrite app_nil_r. split; [|split]; [reflexivity..|discriminate].
Qed.

(** The embedding loop raises exactly when one of its calls does, after
    the calls before it have returned. *)
Lemma embed_chunks_raises before chunk after : forall w embeddings w2 e w3,
  rag_engine.embed_chunks env before w = (Ok embeddings, w2) ->
  llm_client.generate_embeddings env chunk w2 = (Err e, w3) ->
  rag_engine.embed_chunks env (before ++ chunk :: after) w = (Err e, w3).
Proof.
  induction before as [|b rest IH]; intros w embeddings w2 e w3 H1 H2;
    simpl in *.
  - injection H1 as <- <-. unfold bind. now rewrite H2.
  - unfold bind in *.
    destruct (llm_client.generate_embeddings env b w) as [[v|e0] w1];
      [|discriminate].
    destruct (rag_engine.embed_chunks env rest w1) as [[vs|e0] w1'] eqn:E;
      [|discriminate].
    injection H1 as <- <-. now rewrite (IH _ _ _ _ _ E H2).
Qed.

(** [process_document] neither touches the index nor the files; when it
    returns, the metadata carries the number of chunks and the name. *)
Lemma process_document_frame file_path w r w' :
  document_processor.process_document env file_path w = (r, w') ->
  upserts (history w') = upserts (history w) /\ files w' = files w /\
  (forall chunks base, r = Ok (chunks, base) ->
     base !! lit "total_chunks" = Some (VInt (len chunks)) /\
     base !! lit "chunk_index" = None /\
     exists name, base !! lit "filename" = Some name).
Proof.
  unfold document_processor.process_document, try_except, bind, call,
    raise, ret.
  destruct (negb (bool_decide _)).
  { intros [= <- <-]. split; [|split]; [reflexivity..|discriminate]. }
  assert (forall ev, upserts (history (record (EvExtract ev file_path) w))
                     = upserts (history w)) as U.
  { intros. rewrite upserts_record. apply app_nil_r. }
  destruct (extract_text env (history w) _ file_path) as [text|e].
  2:{ intros [= <- <-]. split; [|split]; [apply U|reflexivity|discriminate]. }
  destruct (negb (truthy _)).
  { intros [= <- <-]. split; [|split]; [apply U|reflexivity|discriminate]. }
  destruct (text_utils.chunk_text _ _ 1000 200) as [chunks|].
  2:{ intros [= <- <-]. split; [|split]; [apply U|reflexivity|discriminate]. }
  intros [= <- <-]. split; [|split]; [apply U|reflexivity|].
  intros ? ? [= <- <-].
  split; [apply lookup_insert_eq|]. split; [reflexivity|].
  eexists. reflexivity.
Qed.

End Frames.

(** ** The vector index adapter *)

Section VectorStore.
Import Py Runtime Observations.
Variable env : Env.

(** The loop of [add_documents] always returns: one point per item, in
    order, with the item's vector as it is and the ids of the points as
    second component. It does not call the index. *)
Lemma build_points_spec items : forall w,
  exists points w',
    vector_store.build_points env items w
      = (Ok (points, map point_id points), w') /\
    upserts (history w') = upserts (history w) /\ files w' = files w /\
    Forall2 (stored_as env) points items.
Proof.
  induction items as [|[[text embedding] meta] rest IH]; intros w; simpl.
  - exists [], w. repeat split. constructor.
  - unfold bind, uuid4_str, call, ret. simpl.
    match goal with |- context [vector_store.build_points env rest ?w1] =>
      destruct (IH w1) as (points & w' & -> & U & F & HF)
    end.
    exists ({| point_id := str_uuid (uuid4 env (history w));
               point_vector := embedding;
               point_payload :=
                 stored_payload text
                   (utcnow_isoformat env (history (record EvUuid4 w)))
                   meta |} :: points), w'.
    split; [reflexivity|].
    split; [|split].
    + rewrite U, !upserts_record. simpl. now rewrite !app_nil_r.
    + rewrite F. reflexivity.
    + constructor; [|exact HF]. unfold stored_as. simpl.
      split; [eauto|]. split; [reflexivity|]. eexists. reflexivity.
Qed.

Lemma add_documents_eq texts embeddings metadata w :
  exists points w1,
    vector_store.add_documents env texts embeddings metadata w =
    (match qdrant_upsert env (history w1) points with
     | None => Ok (map point_id points)
     | Some e => Err e
     end, record (EvUpsert points) w1) /\
    upserts (history w1) = upserts (history w) /\ files w1 = files w /\
    Forall2 (stored_as env) points (zip (zip texts embeddings) metadata).
Proof.
  destruct (build_points_spec (zip (zip texts embeddings) metadata) w)
    as (points & w1 & E & U & F & HF).
  exists points, w1. split; [|auto].
  unfold vector_store.add_documents, try_except, bind, call, ret, raise.
  rewrite E.
  destruct (qdrant_upsert env (history w1) points); reflexivity.
Qed.

(** The vectors of a zipped batch are the embeddings handed in. *)
Lemma zip_vectors (texts : list str) (embeddings : list (list float))
    (metadata : list (gmap str value)) :
  length texts = length embeddings -> length metadata = length embeddings ->
  map (fun item => item.1.2) (zip (zip texts embeddings) metadata)
  = embeddings.
Proof.
  revert texts metadata.
  induction embeddings as [|v vs IH]; intros [|t ts] [|m ms] H1 H2;
    simpl in *; try discriminate; [reflexivity|].
  f_equal. apply IH; congruence.
Qed.

Lemma Forall2_vectors points items :
  Forall2 (stored_as env) points items ->
  map point_vector points = map (fun item => item.1.2) items.
Proof.
  induction 1 as [|p item ps its (_ & Hv & _) _ IH]; simpl; [reflexivity|].
  now rewrite Hv, IH.
Qed.

Lemma stored_payload_text text stamp meta :
  stored_payload text stamp meta !! lit "text" = Some (VStr text).
Proof.
  unfold stored_payload.
  rewrite lookup_insert_ne by (intros K; vm_compute in K; discriminate K).
  apply lookup_insert_eq.
Qed.

Lemma stored_payload_other text stamp meta key :
  key <> lit "timestamp" -> key <> lit "text" ->
  stored_payload text stamp meta !! key = meta !! key.
Proof.
  intros K1 K2. unfold stored_payload.
  now rewrite !lookup_insert_ne by congruence.
Qed.

End VectorStore.

(** ** The orchestrator *)

Section Orchestrator.
Import Py Runtime Observations.
Variable env : Env.

Lemma delete_file_run file_path w :
  file_utils.delete_file env file_path w =
  (Ok tt, (file_utils.delete_file env file_path w).2).
Proof.
  pose proof (delete_file_returns env file_path w) as H.
  destruct (file_utils.delete_file env file_path w) as [r w'].
  simpl in *. now subst r.
Qed.

(** [process_and_store_document] in terms of the steps it takes: on
    every path, [delete_file] is the last thing that touches the world. *)
Lemma process_and_store_document_eq file_path w :
  let cleanup w' := (file_utils.delete_file env file_path w').2 in
  rag_engine.process_and_store_document env file_path w =
  match document_processor.process_document env file_path w with
  | (Err e, w1) => (Err e, cleanup w1)
  | (Ok (chunks, base_metadata), w1) =>
      if negb (truthy chunks) then
        (Err (ValueError (lit "No text chunks extracted from document")),
         cleanup w1)
      else
        match rag_engine.embed_chunks env chunks w1 with
        | (Err e, w2) => (Err e, cleanup w2)
        | (Ok embeddings, w2) =>
            match vector_store.add_documents env chunks embeddings
                    (rag_engine.chunk_metadata base_metadata
                       (length chunks)) w2 with
            | (Err e, w3) => (Err e, cleanup w3)
            | (Ok doc_ids, w3) =>
                match base_metadata !! lit "filename" with
                | None => (Err (KeyError (lit "filename")),
                           cleanup (cleanup w3))
                | Some name =>
                    (Ok {| rag_engine.success := true;
                           rag_engine.message :=
                             lit "Document processed and stored successfully";
                           rag_engine.document_ids := doc_ids;
                           rag_engine.filename := name;
                           rag_engine.chunks_count := len chunks |},
                     cleanup w3)
                end
            end
        end
  end.
Proof.
  intros cleanup. unfold rag_engine.process_and_store_document.
  unfold try_except at 1. unfold bind at 1.
  destruct (document_processor.process_document env file_path w)
    as [[[chunks base]|e] w1].
  2:{ unfold bind, raise. now rewrite delete_file_run. }
  destruct (negb (truthy chunks)).
  { unfold bind, raise. now rewrite delete_file_run. }
  unfold bind at 1.
  destruct (rag_engine.embed_chunks env chunks w1) as [[embeddings|e] w2].
  2:{ unfold bind, raise. now rewrite delete_file_run. }
  unfold bind at 1.
  destruct (vector_store.add_documents env chunks embeddings _ w2)
    as [[doc_ids|e] w3].
  2:{ unfold bind, raise. now rewrite delete_file_run. }
  unfold bind at 1. rewrite delete_file_run.
  unfold bind at 1. unfold getitem.
  destruct (base !! lit "filename") as [name|]; [reflexivity|].
  unfold raise at 1. unfold bind, raise. now rewrite delete_file_run.
Qed.

End Orchestrator.

(** ** Ingest: the properties of the specification *)

Section Ingest.
Import Py Runtime Observations Examples Examples2.

(** C3 fails as stated: the embedding gateway returns a vector of two
    components although [EMBEDDING_DIMENSION] is 3072, and the ingest
    hands that vector to [upsert]. *)
Lemma embedding_dimension_unchecked :
  (llm_client.generate_embeddings quiet_env (lit "Hello") start).1
    = Ok [0%N; 0%N] /\
  len [0%N; 0%N] <> config.EMBEDDING_DIMENSION /\
  exists point,
    upserts (history
               (rag_engine.process_and_store_document quiet_env upload
                  start).2) = [[point]] /\
    len (point_vector point) <> config.EMBEDDING_DIMENSION.
Proof.
  split; [reflexivity|]. split; [discriminate|].
  eexists. split; [vm_compute; reflexivity|]. discriminate.
Qed.

(** C3, amended. The document-embedding operation raises whenever the
    external call raises: a plain [Exception] whose message is "Failed to
    generate embeddings: " followed by the cause. Otherwise it returns the
    vector of the external call, whatever its length, and
    [add_documents] hands the vectors it is given to [upsert] as they
    are. *)
Theorem embedding_passed_through (env : Env) (text : str) (w : World)
    (texts : list str) (embeddings : list (list float))
    (metadata : list (gmap str value)) (w0 : World) :
  length texts = length embeddings ->
  length metadata = length embeddings ->
  llm_client.generate_embeddings env text w =
    (match embed_content env (history w) (lit "retrieval_document") text
     with
     | Ok vector => Ok vector
     | Err e => Err (Exception (lit "Failed to generate embeddings: "
                                  ++ exn_msg e))
     end,
     record (EvEmbed (lit "retrieval_document") text) w) /\
  exists points,
    last (history
            (vector_store.add_documents env texts embeddings metadata
               w0).2) = Some (EvUpsert points) /\
    map point_vector points = embeddings.
Proof.
  intros H1 H2. split; [apply generate_embeddings_eq|].
  destruct (add_documents_eq env texts embeddings metadata w0)
    as (points & w1 & -> & _ & _ & HF).
  exists points. split.
  - simpl. apply last_snoc.
  - rewrite (Forall2_vectors env _ _ HF). now apply zip_vectors.
Qed.

Lemma embedding_passed_through_witness :
  (llm_client.generate_embeddings failing_env (lit "Hello") start).1
    = Err (Exception (lit "Failed to generate embeddings: quota")) /\
  exists points,
    last (history
            (vector_store.add_documents quiet_env [lit "Hello"]
               [[0%N; 0%N]] [∅] start).2) = Some (EvUpsert points) /\
    map point_vector points = [[0%N; 0%N]].
Proof.
  split.
  - exact (f_equal fst
             (proj1 (embedding_passed_through failing_env (lit "Hello")
                       start [lit "Hello"] [[0%N; 0%N]] [∅] start
                       eq_refl eq_refl))).
  - exact (proj2 (embedding_passed_through quiet_env (lit "Hello") start
                    [lit "Hello"] [[0%N; 0%N]] [∅] start
                    eq_refl eq_refl)).
Defined.

Lemma delete_file_history env file_path w :
  history (file_utils.delete_file env file_path w).2 =
  history w ++ (if bool_decide (file_path ∈ files w) then [EvRemove file_path]
                else []).
Proof.
  unfold file_utils.delete_file.
  destruct (bool_decide (file_path ∈ files w)); [|now rewrite app_nil_r].
  destruct (os_remove env (history w) file_path); reflexivity.
Qed.

(** When [os.remove] fails, [delete_file] swallows the exception and the
    files are as before. *)
Lemma delete_file_keeps env file_path w :
  (forall h, os_remove env h file_path <> None) ->
  files (file_utils.delete_file env file_path w).2 = files w.
Proof.
  intros Hfail. unfold file_utils.delete_file.
  case_bool_decide; [|reflexivity].
  destruct (os_remove env (history w) file_path) eqn:E; [reflexivity|].
  now apply Hfail in E.
Qed.

(** The ingest touches the files only in its cleanup: they are those
    [delete_file] leaves, applied to files as they were on entry. *)
Lemma ingest_files env file_path w :
  exists w0,
    files w0 = files w /\
    files (rag_engine.process_and_store_document env file_path w).2
    = files (file_utils.delete_file env file_path w0).2.
Proof.
  rewrite process_and_store_document_eq. cbv zeta.
  destruct (document_processor.process_document env file_path w)
    as [[[chunks base]|e] w1] eqn:PD;
    destruct (process_document_frame env _ _ _ _ PD) as (_ & F1 & HB);
    [|exists w1; split; [exact F1 | reflexivity]].
  destruct (HB chunks base eq_refl) as (_ & _ & name & Hname).
  destruct (negb (truthy chunks));
    [exists w1; split; [exact F1 | reflexivity]|].
  destruct (rag_engine.embed_chunks env chunks w1)
    as [[embeddings|e] w2] eqn:EC;
    destruct (embed_chunks_frame env _ _ _ _ EC) as (_ & F2 & _);
    [|exists w2; split; [congruence | reflexivity]].
  destruct (add_documents_eq env chunks embeddings
              (rag_engine.chunk_metadata base (length chunks)) w2)
    as (points & w3 & -> & _ & F3 & _).
  exists (record (EvUpsert points) w3).
  split; [simpl; congruence|].
  destruct (qdrant_upsert env (history w3) points); [reflexivity|].
  rewrite Hname. reflexivity.
Qed.

(** C4 fails as stated: when [os.remove] raises, [delete_file] logs and
    swallows the exception, and the uploaded file is still on disk after
    the ingest, both when an embedding call raised and when the ingest
    returned. *)
Lemma ingest_file_left_behind :
  (rag_engine.process_and_store_document locked_failing_env upload start).1
    = Err (Exception (lit "Failed to generate embeddings: quota")) /\
  upload ∈ files
    (rag_engine.process_and_store_document locked_failing_env upload
       start).2 /\
  (exists r,
     (rag_engine.process_and_store_document locked_env upload start).1
       = Ok r) /\
  upload ∈ files
    (rag_engine.process_and_store_document locked_env upload start).2.
Proof.
  split; [vm_compute; reflexivity|].
  split.
  { destruct (ingest_files locked_failing_env upload start)
      as (w0 & F & ->).
    rewrite delete_file_keeps by discriminate. rewrite F.
    change (files start) with ({[upload]} : gset str).
    now apply elem_of_singleton_2. }
  split; [eexists; vm_compute; reflexivity|].
  destruct (ingest_files locked_env upload start) as (w0 & F & ->).
  rewrite delete_file_keeps by discriminate. rewrite F.
  change (files start) with ({[upload]} : gset str).
  now apply elem_of_singleton_2.
Qed.

(** C4, amended. When an embedding call raises, the ingest raises the
    same exception, the world is the one that call left with
    [delete_file] applied to it, and no batch was handed to [upsert];
    this holds whatever [os.remove] does. The uploaded file is gone after
    [process_and_store_document], whether it returned or raised, when
    [os.remove] does not fail on it; when [os.remove] fails on it, the
    files on disk are those there were before the ingest. *)
Theorem ingest_cleanup (env : Env) (file_path : str) (w : World) :
  let out := rag_engine.process_and_store_document env file_path w in
  (removable env file_path -> file_path ∉ files out.2) /\
  ((forall h, os_remove env h file_path <> None) ->
   files out.2 = files w) /\
  forall e w',
    embedding_fails env file_path w e w' ->
    out = (Err e, (file_utils.delete_file env file_path w').2) /\
    upserts (history out.2) = upserts (history w).
Proof.
  cbv zeta. split; [|split].
  - intros Hrm. destruct (ingest_files env file_path w) as (w0 & _ & ->).
    now apply delete_file_removes.
  - intros Hfail. destruct (ingest_files env file_path w) as (w0 & F & ->).
    now rewrite delete_file_keeps.
  - rewrite process_and_store_document_eq. cbv zeta.
    intros e w'
      (chunks & base & w1 & before & chunk & after & embs & w2 &
       PD & -> & EB & GE).
    rewrite PD.
    replace (truthy (before ++ chunk :: after)) with true
      by (destruct before; reflexivity).
    simpl negb. cbv iota.
    pose proof (embed_chunks_raises env before chunk after _ _ _ _ _ EB GE)
      as EC.
    rewrite EC. split; [reflexivity|]. simpl.
    rewrite delete_file_upserts.
    apply embed_chunks_frame in EC as (-> & _).
    now apply process_document_frame in PD as (-> & _).
Qed.

Lemma ingest_cleanup_witness :
  removable failing_env upload /\
  (upload ∉ files
     (rag_engine.process_and_store_document failing_env upload start).2) /\
  (rag_engine.process_and_store_document failing_env upload start).1
    = Err (Exception (lit "Failed to generate embeddings: quota")) /\
  upserts (history
             (rag_engine.process_and_store_document failing_env upload
                start).2) = [] /\
  files (rag_engine.process_and_store_document locked_failing_env upload
           start).2 = {[upload]}.
Proof.
  assert (removable failing_env upload) as Hrm by (intros h; reflexivity).
  destruct (ingest_cleanup failing_env upload start)
    as (Hgone & _ & Hfail).
  split; [exact Hrm|]. split; [exact (Hgone Hrm)|].
  destruct (Hfail (Exception (lit "Failed to generate embeddings: quota"))
              (record (EvEmbed (lit "retrieval_document") hello)
                 (record (EvExtract (lit "txt") upload) start)))
    as [Hout Hup].
  { exists [hello], hello_metadata,
           (record (EvExtract (lit "txt") upload) start),
           [], hello, [], [],
           (record (EvExtract (lit "txt") upload) start).
    split; [vm_compute; reflexivity|].
    split; [reflexivity|]. split; reflexivity. }
  split; [exact (f_equal fst Hout)|]. split; [exact Hup|].
  destruct (ingest_cleanup locked_failing_env upload start)
    as (_ & Hkept & _).
  apply Hkept. discriminate.
Defined.

(** The embedding loop that returns has called the model once per chunk,
    for documents, in the order of the chunks. *)
Lemma embed_chunks_history env chunks : forall w embeddings w',
  rag_engine.embed_chunks env chunks w = (Ok embeddings, w') ->
  history w' =
  history w ++ map (EvEmbed (lit "retrieval_document")) chunks /\
  files w' = files w.
Proof.
  induction chunks as [|chunk rest IH]; intros w embeddings w' H; simpl in H.
  - injection H as _ <-. now rewrite app_nil_r.
  - unfold bind in H. rewrite generate_embeddings_eq in H.
    destruct (embed_content env (history w) _ chunk) as [v|e];
      [|discriminate].
    destruct (rag_engine.embed_chunks env rest _) as [[vs|e] w1] eqn:E;
      [|discriminate].
    injection H as _ <-. apply IH in E as [-> ->]. simpl.
    now rewrite <- app_assoc.
Qed.

Lemma length_hex_fixed width : forall v, length (hex_fixed width v) = width.
Proof.
  induction width as [|width IH]; intros v; cbn [hex_fixed];
    [reflexivity|].
  rewrite length_app, IH. simpl. lia.
Qed.

Lemma hex_digit_inj a b :
  (a < 16)%N -> (b < 16)%N -> hex_digit a = hex_digit b -> a = b.
Proof.
  unfold hex_digit. intros Ha Hb.
  destruct (N.ltb_spec a 10), (N.ltb_spec b 10); lia.
Qed.

(** Different values below [16 ^ width] have different digits. *)
Lemma hex_fixed_inj width : forall u v,
  (u < 16 ^ N.of_nat width)%N -> (v < 16 ^ N.of_nat width)%N ->
  hex_fixed width u = hex_fixed width v -> u = v.
Proof.
  induction width as [|width IH]; intros u v Hu Hv H.
  { change (16 ^ N.of_nat 0)%N with 1%N in *. lia. }
  cbn [hex_fixed] in H. apply app_inj_tail in H as [H1 H2].
  rewrite Nat2N.inj_succ, N.pow_succ_r' in Hu, Hv.
  pose proof (N.mod_lt u 16 ltac:(discriminate)) as Mu.
  pose proof (N.mod_lt v 16 ltac:(discriminate)) as Mv.
  apply hex_digit_inj in H2; [|assumption..].
  apply IH in H1;
    [|apply N.Div0.div_lt_upper_bound; assumption..].
  rewrite (N.div_mod u 16), (N.div_mod v 16) by discriminate.
  now rewrite H1, H2.
Qed.

Lemma uuid_groups {A} (l : list A) :
  l = take 8 l ++ take 4 (drop 8 l) ++ take 4 (drop 12 l)
        ++ take 4 (drop 16 l) ++ drop 20 l.
Proof.
  change (drop 20 l) with (drop (16 + 4) l).
  rewrite <- (drop_drop l 4 16), take_drop.
  change (drop 16 l) with (drop (12 + 4) l).
  rewrite <- (drop_drop l 4 12), take_drop.
  change (drop 12 l) with (drop (8 + 4) l).
  rewrite <- (drop_drop l 4 8), take_drop.
  symmetry. apply take_drop.
Qed.

(** Different 128-bit values are written differently. *)
Lemma str_uuid_inj u v :
  (u < 2 ^ 128)%N -> (v < 2 ^ 128)%N -> str_uuid u = str_uuid v -> u = v.
Proof.
  intros Hu Hv H. apply (hex_fixed_inj 32); [exact Hu | exact Hv |].
  unfold str_uuid in H. cbv zeta in H.
  pose proof (length_hex_fixed 32 u) as Lu.
  pose proof (length_hex_fixed 32 v) as Lv.
  set (hu := hex_fixed 32 u) in *. set (hv := hex_fixed 32 v) in *.
  clearbody hu hv.
  rewrite (uuid_groups hu), (uuid_groups hv).
  apply app_inj_1 in H as [-> H];
    [|rewrite !length_take; lia].
  apply app_inj_1 in H as [_ H]; [|reflexivity].
  apply app_inj_1 in H as [-> H];
    [|rewrite !length_take, !length_drop; lia].
  apply app_inj_1 in H as [_ H]; [|reflexivity].
  apply app_inj_1 in H as [-> H];
    [|rewrite !length_take, !length_drop; lia].
  apply app_inj_1 in H as [_ H]; [|reflexivity].
  apply app_inj_1 in H as [-> H];
    [|rewrite !length_take, !length_drop; lia].
  apply app_inj_1 in H as [_ ->]; [|reflexivity].
  reflexivity.
Qed.

Lemma length_draws n : length (draws n) = (2 * n)%nat.
Proof.
  unfold draws. induction n as [|n IH]; [reflexivity|].
  cbn [replicate concat]. rewrite length_app, IH. simpl. lia.
Qed.

(** The loop of [add_documents]: round [i] gives the point at position
    [i] the string of the UUID drawn in that round, after the [i] rounds
    before it; the loop draws one id and reads the clock once per item. *)
Lemma build_points_draws env items : forall w points ids w',
  vector_store.build_points env items w = (Ok (points, ids), w') ->
  history w' = history w ++ draws (length items) /\
  forall i point,
    points !! i = Some point ->
    point_id point = str_uuid (uuid4 env (history w ++ draws i)).
Proof.
  induction items as [|[[text embedding] meta] rest IH];
    intros w points ids w' H; simpl in H.
  - injection H as <- _ <-. split; [now rewrite app_nil_r|].
    intros i point Hi. inversion Hi.
  - unfold bind, uuid4_str, call, ret in H. simpl in H.
    match type of H with context [vector_store.build_points env rest ?w1] =>
      destruct (vector_store.build_points env rest w1)
        as [[[ps ids']|e] w''] eqn:E; [|discriminate];
      destruct (IH _ _ _ _ E) as [IH1 IH2]
    end.
    injection H as <- _ <-. simpl in IH1, IH2. split.
    + rewrite IH1. change (draws (length ((text, embedding, meta) :: rest)))
        with ([EvUuid4; EvUtcnow] ++ draws (length rest)).
      now rewrite <- !app_assoc.
    + intros [|i] point Hi; simpl in Hi.
      * injection Hi as <-. simpl. now rewrite app_nil_r.
      * rewrite (IH2 i point Hi).
        change (draws (S i)) with ([EvUuid4; EvUtcnow] ++ draws i).
        now rewrite <- !app_assoc.
Qed.

(** [add_documents], with the ids of the points and the calls of its
    loop. *)
Lemma add_documents_draws env texts embeddings metadata w :
  exists points w1,
    vector_store.add_documents env texts embeddings metadata w =
    (match qdrant_upsert env (history w1) points with
     | None => Ok (map point_id points)
     | Some e => Err e
     end, record (EvUpsert points) w1) /\
    upserts (history w1) = upserts (history w) /\ files w1 = files w /\
    Forall2 (stored_as env) points (zip (zip texts embeddings) metadata) /\
    history w1 =
    history w ++ draws (length (zip (zip texts embeddings) metadata)) /\
    forall i point,
      points !! i = Some point ->
      point_id point = str_uuid (uuid4 env (history w ++ draws i)).
Proof.
  destruct (build_points_spec env (zip (zip texts embeddings) metadata) w)
    as (points & w1 & E & U & F & HF).
  destruct (build_points_draws env _ _ _ _ _ E) as [H1 H2].
  exists points, w1. split; [|auto 6].
  unfold vector_store.add_documents, try_except, bind, call, ret, raise.
  rewrite E.
  destruct (qdrant_upsert env (history w1) points); reflexivity.
Qed.

(** C10. After an ingest that returned, exactly one batch was handed to
    [upsert]; with [n] the number of chunks of the document, the batch has
    [n] points, the point at position [i] carries the chunk at position
    [i] with [chunk_index = i] and [total_chunks = n], the returned
    [document_ids] are the ids of the points in order, [n] of them, and
    [chunks_count] is [n]. The id of the point at position [i] is the
    string of the UUID drawn in round [i] of the loop of [add_documents]:
    after the embedding calls the ingest has made [n] rounds of one
    [uuid4] call and one reading of the clock, then the one [upsert], then
    the cleanup. When the [n] UUIDs drawn are different 128-bit values,
    the [n] ids are different. *)
Theorem ingest_metadata (env : Env) (file_path : str) (w : World)
    (r : rag_engine.IngestResult) (w' : World) :
  rag_engine.process_and_store_document env file_path w = (Ok r, w') ->
  exists chunks base_metadata w1 points,
    document_processor.process_document env file_path w
      = (Ok (chunks, base_metadata), w1) /\
    upserts (history w') = upserts (history w) ++ [points] /\
    length points = length chunks /\
    rag_engine.chunks_count r = len chunks /\
    rag_engine.document_ids r = map point_id points /\
    length (rag_engine.document_ids r) = length chunks /\
    (forall i point,
       points !! i = Some point ->
       point_payload point !! lit "chunk_index" = Some (VInt (Z.of_nat i)) /\
       point_payload point !! lit "total_chunks"
         = Some (VInt (len chunks)) /\
       (exists chunk,
          chunks !! i = Some chunk /\
          point_payload point !! lit "text" = Some (VStr chunk)) /\
       point_id point = str_uuid (drawn env chunks w1 i)) /\
    history w' =
    history w1
      ++ map (EvEmbed (lit "retrieval_document")) chunks
      ++ draws (length chunks)
      ++ [EvUpsert points]
      ++ (if bool_decide (file_path ∈ files w) then [EvRemove file_path]
          else []) /\
    ((forall i, (i < length chunks)%nat ->
                (drawn env chunks w1 i < 2 ^ 128)%N) ->
     NoDup (map (drawn env chunks w1) (seq 0 (length chunks))) ->
     NoDup (rag_engine.document_ids r)).
Proof.
  rewrite process_and_store_document_eq. cbv zeta.
  destruct (document_processor.process_document env file_path w)
    as [[[chunks base]|e] w1] eqn:PD; [|discriminate].
  destruct (negb (truthy chunks)); [discriminate|].
  destruct (rag_engine.embed_chunks env chunks w1)
    as [[embeddings|e] w2] eqn:EC; [|discriminate].
  destruct (add_documents_draws env chunks embeddings
              (rag_engine.chunk_metadata base (length chunks)) w2)
    as (points & w3 & -> & U3 & F3 & HF & H3 & Hids).
  destruct (qdrant_upsert env (history w3) points); [discriminate|].
  destruct (process_document_frame env _ _ _ _ PD) as (U1 & F1 & HB).
  destruct (HB chunks base eq_refl) as (Htotal & Hindex & name & Hname).
  destruct (embed_chunks_frame env _ _ _ _ EC) as (U2 & F2 & HL).
  destruct (embed_chunks_history env _ _ _ _ EC) as [H2 _].
  specialize (HL embeddings eq_refl).
  rewrite Hname. intros [= <- <-].
  assert (length (zip (zip chunks embeddings)
                    (rag_engine.chunk_metadata base (length chunks)))
          = length chunks) as Hzip.
  { rewrite !length_zip_with. unfold rag_engine.chunk_metadata.
    rewrite length_map, length_seq. lia. }
  assert (length points = length chunks) as Hlen.
  { now rewrite (Forall2_length _ _ _ HF). }
  assert (forall i point,
            points !! i = Some point ->
            point_id point = str_uuid (drawn env chunks w1 i)) as Hdrawn.
  { intros i point Hi. rewrite (Hids i point Hi). unfold drawn.
    now rewrite H2, <- app_assoc. }
  exists chunks, base, w1, points. cbn [rag_engine.chunks_count
    rag_engine.document_ids snd].
  split; [reflexivity|]. split.
  { rewrite delete_file_upserts, upserts_record, U3, U2, U1.
    reflexivity. }
  split; [exact Hlen|]. split; [reflexivity|]. split; [reflexivity|].
  split; [now rewrite length_map|].
  split; [|split].
  - intros i point Hi.
    destruct (Forall2_lookup_l _ _ _ _ _ HF Hi) as (item & Hitem & HP).
    destruct HP as (_ & _ & stamp & Hpayload).
    rewrite Hpayload. clear Hpayload.
    destruct item as [[chunk v] meta].
    apply lookup_zip_with_Some in Hitem as (cv & meta' & E1 & Hcv & Hmeta).
    apply lookup_zip_with_Some in Hcv as (chunk' & v' & E2 & Hchunk & _).
    simplify_eq.
    unfold rag_engine.chunk_metadata in Hmeta.
    rewrite list_lookup_fmap in Hmeta.
    destruct (seq 0 (length chunks) !! i) as [j|] eqn:Hj; [|discriminate].
    apply lookup_seq in Hj as [-> _]. simpl in Hmeta.
    injection Hmeta as <-. simpl.
    rewrite !stored_payload_other
      by (intros K; vm_compute in K; discriminate K).
    rewrite stored_payload_text.
    split; [apply lookup_insert_eq|]. split; [|split].
    + rewrite lookup_insert_ne
        by (intros K; vm_compute in K; discriminate K).
      exact Htotal.
    + eauto.
    + now apply Hdrawn.
  - rewrite delete_file_history. cbn [record history files].
    rewrite H3, H2, Hzip, F3, F2, F1. now rewrite <- !app_assoc.
  - intros Hbound Hnd.
    assert (map point_id points
            = map str_uuid (map (drawn env chunks w1)
                              (seq 0 (length chunks)))) as ->.
    { apply list_eq. intros i. rewrite !list_lookup_fmap.
      destruct (points !! i) as [point|] eqn:Hi; simpl.
      - rewrite lookup_seq_lt
          by (rewrite <- Hlen; eapply lookup_lt_Some; exact Hi).
        simpl. now rewrite (Hdrawn i point Hi).
      - rewrite lookup_seq_ge; [reflexivity|].
        rewrite <- Hlen. now apply lookup_ge_None. }
    apply (NoDup_fmap_2_strong str_uuid); [|exact Hnd].
    intros x y Hx Hy Hxy.
    apply list_elem_of_In, in_map_iff in Hx as (i & <- & Hi).
    apply list_elem_of_In, in_map_iff in Hy as (j & <- & Hj).
    apply in_seq in Hi, Hj.
    apply str_uuid_inj; [apply Hbound; lia | apply Hbound; lia | exact Hxy].
Qed.

Lemma ingest_metadata_witness :
  exists r w',
    rag_engine.process_and_store_document long_env upload start
      = (Ok r, w') /\
    rag_engine.chunks_count r = 4 /\
    length (rag_engine.document_ids r) = 4%nat /\
    NoDup (rag_engine.document_ids r) /\
    length (upserts (history w')) = 1%nat.
Proof.
  assert (match (rag_engine.process_and_store_document long_env upload
                   start).1 with
          | Ok _ => true
          | Err _ => false
          end = true) as Hok by (vm_compute; reflexivity).
  assert (match document_processor.process_document long_env upload start
          with
          | (Ok (chunks, _), w1) => (length chunks, length (history w1))
          | _ => (0%nat, 0%nat)
          end = (4%nat, 1%nat)) as Hfour by (vm_compute; reflexivity).
  destruct (rag_engine.process_and_store_document long_env upload start)
    as [[r|e] w'] eqn:E; [|discriminate Hok].
  destruct (ingest_metadata long_env upload start r w' E)
    as (chunks & base & w1 & points & PD & U & L & C & _ & HI & _ & _ & D).
  rewrite PD in Hfour. injection Hfour as Hfour Hone.
  assert (forall i, drawn long_env chunks w1 i = N.of_nat (5 + 2 * i))
    as Hdrawn.
  { intros i. unfold drawn. cbn [uuid4 long_env].
    rewrite !length_app, length_map, length_draws, Hfour, Hone.
    reflexivity. }
  exists r, w'. split; [reflexivity|].
  split; [rewrite C; unfold len; now rewrite Hfour|].
  split; [now rewrite HI|]. split; [|rewrite U; reflexivity].
  apply D.
  - intros i Hi. rewrite Hdrawn, Hfour in *.
    apply (N.le_lt_trans _ (N.of_nat 11)); [lia | reflexivity].
  - rewrite Hfour. cbn [seq map]. rewrite !Hdrawn.
    apply (bool_decide_unpack _). vm_compute. exact I.
Defined.

End Ingest.

(** ** Query: the properties of the specification *)

Section Query.
Import Py Runtime Observations Examples.

Lemma generate_response_eq env prompt w :
  llm_client.generate_response env prompt w =
  (match generate_content env (history w) prompt with
   | Ok text => Ok text
   | Err e => Err (Exception (lit "Failed to generate response: "
                                ++ exn_msg e))
   end, record (EvGenerate prompt) w).
Proof.
  unfold llm_client.generate_response, try_except, call, raise.
  destruct (generate_content env (history w) prompt); reflexivity.
Qed.

(** The search adapter answers what the index answered, each hit
    reshaped; no hit gives the empty list, not an exception. *)
Lemma search_eq env query_embedding top_k w :
  vector_store.search env query_embedding (Some top_k) None w =
  (match qdrant_search env (history w) query_embedding top_k None with
   | Ok hits => Ok (map vector_store.format_result hits)
   | Err e => Err e
   end, record (EvSearch query_embedding top_k None) w).
Proof.
  unfold vector_store.search, try_except, bind, call, ret, raise.
  destruct (qdrant_search env (history w) query_embedding top_k None);
    reflexivity.
Qed.

(** Lines 96-97 never raise: a non-empty identifier is kept, anything
    else is replaced by the string of a UUID drawn now. *)
Lemma ensure_conversation_id_eq env cid w :
  rag_engine.ensure_conversation_id env cid w =
  match cid with
  | Some (c :: cs) => (Ok (c :: cs), w)
  | _ => (Ok (str_uuid (uuid4 env (history w))), record EvUuid4 w)
  end.
Proof. destruct cid as [[|c cs]|]; reflexivity. Qed.

(** [query] in terms of the steps it takes. *)
Lemma query_eq env user_query cid top_k w :
  rag_engine.query env user_query cid top_k w =
  match rag_engine.ensure_conversation_id env cid w with
  | (Err e, w0) => (Err e, w0)
  | (Ok c, w0) =>
    match llm_client.generate_query_embedding env user_query w0 with
    | (Err e, w1) => (Err e, w1)
    | (Ok v, w1) =>
      match vector_store.search env v (Some top_k) None w1 with
      | (Err e, w2) => (Err e, w2)
      | (Ok results, w2) =>
        if negb (truthy results) then
          match llm_client.generate_response env
                  (rag_engine.no_context_prompt user_query) w2 with
          | (Err e, w3) => (Err e, w3)
          | (Ok text, w3) =>
              (Ok {| rag_engine.response := text;
                     rag_engine.conversation_id := c;
                     rag_engine.sources := [];
                     rag_engine.has_context := false;
                     rag_engine.relevance_scores := None |}, w3)
          end
        else
          match llm_client.generate_rag_response env user_query
                  (map vector_store.sr_text results) w2 with
          | (Err e, w3) => (Err e, w3)
          | (Ok text, w3) =>
              (Ok {| rag_engine.response := text;
                     rag_engine.conversation_id := c;
                     rag_engine.sources :=
                       rag_engine.list_set
                         (map (fun result =>
                                 get (vector_store.sr_metadata result)
                                     (lit "filename")
                                     (VStr (lit "Unknown")))
                              results);
                     rag_engine.has_context := true;
                     rag_engine.relevance_scores :=
                       Some (map vector_store.sr_score results) |}, w3)
          end
      end
    end
  end.
Proof.
  unfold rag_engine.query. unfold try_except at 1. unfold bind at 1.
  destruct (rag_engine.ensure_conversation_id env cid w) as [[c|e] w0];
    [|reflexivity].
  unfold bind at 1.
  destruct (llm_client.generate_query_embedding env user_query w0)
    as [[v|e] w1]; [|reflexivity].
  unfold bind at 1.
  destruct (vector_store.search env v (Some top_k) None w1)
    as [[results|e] w2]; [|reflexivity].
  destruct (negb (truthy results)); unfold bind, ret.
  - destruct (llm_client.generate_response env _ w2) as [[text|e] w3];
      reflexivity.
  - destruct (llm_client.generate_rag_response env _ _ w2)
      as [[text|e] w3]; reflexivity.
Qed.

(** C5. When the index answers a query with no hit, the search returns
    the empty list without raising, and the query, given the completion
    the model generates for the question followed by the note that no
    reference documents are available, returns it with no sources and
    [has_context = false]. *)
Theorem query_without_context (env : Env) (user_query : str)
    (cid : option str) (top_k : Z) (w : World) (c : str) (w0 : World)
    (v : list float) (w1 : World) (text : str) :
  rag_engine.ensure_conversation_id env cid w = (Ok c, w0) ->
  llm_client.generate_query_embedding env user_query w0 = (Ok v, w1) ->
  qdrant_search env (history w1) v top_k None = Ok [] ->
  let w2 := record (EvSearch v top_k None) w1 in
  let prompt := lit "Answer this question: " ++ user_query
                  ++ [10%N; 10%N]
                  ++ lit "Note: No reference documents are available." in
  generate_content env (history w2) prompt = Ok text ->
  vector_store.search env v (Some top_k) None w1 = (Ok [], w2) /\
  rag_engine.query env user_query cid top_k w =
  (Ok {| rag_engine.response := text;
         rag_engine.conversation_id := c;
         rag_engine.sources := [];
         rag_engine.has_context := false;
         rag_engine.relevance_scores := None |},
   record (EvGenerate prompt) w2).
Proof.
  intros Hc Hv Hs w2 prompt Hg.
  assert (vector_store.search env v (Some top_k) None w1 = (Ok [], w2))
    as Hsearch by (rewrite search_eq, Hs; reflexivity).
  split; [exact Hsearch|].
  rewrite query_eq, Hc, Hv, Hsearch. simpl negb. cbv iota.
  rewrite generate_response_eq.
  change (rag_engine.no_context_prompt user_query) with prompt.
  now rewrite Hg.
Qed.

Lemma query_without_context_witness :
  rag_engine.query quiet_env (lit "What is X?") None 5 start =
  (Ok {| rag_engine.response := lit "An answer.";
         rag_engine.conversation_id :=
           lit "00000000-0000-0000-0000-000000000000";
         rag_engine.sources := [];
         rag_engine.has_context := false;
         rag_engine.relevance_scores := None |},
   {| history :=
        [EvUuid4; EvEmbed (lit "retrieval_query") (lit "What is X?");
         EvSearch [0%N; 0%N] 5 None;
         EvGenerate (lit "Answer this question: What is X?

Note: No reference documents are available.")];
      files := {[upload]} |}).
Proof.
  exact (proj2 (query_without_context quiet_env (lit "What is X?") None 5
                  start _ _ _ _ _ eq_refl eq_refl eq_refl eq_refl)).
Defined.

(** C6. When the search returns results, the query, given the completion
    the model generates, returns [has_context = true] and as sources the
    filenames of the results without repetition: a value is a source
    exactly when it is the [filename] of the metadata of some result, or
    "Unknown" for a result whose metadata has none. *)
Theorem query_sources (env : Env) (user_query : str) (cid : option str)
    (top_k : Z) (w : World) (c : str) (w0 : World) (v : list float)
    (w1 : World) (results : list vector_store.SearchResult) (w2 : World)
    (text : str) (w3 : World) :
  rag_engine.ensure_conversation_id env cid w = (Ok c, w0) ->
  llm_client.generate_query_embedding env user_query w0 = (Ok v, w1) ->
  vector_store.search env v (Some top_k) None w1 = (Ok results, w2) ->
  results <> [] ->
  llm_client.generate_rag_response env user_query
    (map vector_store.sr_text results) w2 = (Ok text, w3) ->
  exists r,
    rag_engine.query env user_query cid top_k w = (Ok r, w3) /\
    rag_engine.has_context r = true /\
    NoDup (rag_engine.sources r) /\
    forall name,
      name ∈ rag_engine.sources r <->
      exists result, result ∈ results /\ name = filename_or_unknown result.
Proof.
  intros Hc Hv Hs Hne Hg.
  rewrite query_eq, Hc, Hv, Hs.
  assert (truthy results = true) as ->
    by (destruct results; [contradiction|reflexivity]).
  simpl negb. cbv iota. rewrite Hg.
  eexists. split; [reflexivity|].
  unfold rag_engine.has_context, rag_engine.sources.
  split; [reflexivity|]. unfold rag_engine.list_set.
  split; [apply NoDup_elements|].
  intros name. rewrite elem_of_elements, elem_of_list_to_set. split.
  - intros Hin. apply list_elem_of_In, in_map_iff in Hin
      as (result & <- & Hin).
    exists result. split; [now apply list_elem_of_In | reflexivity].
  - intros (result & Hin & ->). apply list_elem_of_In, in_map_iff.
    exists result. split; [reflexivity | now apply list_elem_of_In].
Qed.

Lemma query_sources_witness :
  exists r w3,
    rag_engine.query indexed_env (lit "What is X?") (Some (lit "abc123")) 5
      start = (Ok r, w3) /\
    rag_engine.has_context r = true /\
    NoDup (rag_engine.sources r) /\
    VStr (lit "doc_a.pdf") ∈ rag_engine.sources r /\
    VStr (lit "Unknown") ∈ rag_engine.sources r /\
    VStr (lit "doc_b.txt") ∉ rag_engine.sources r.
Proof.
  edestruct (query_sources indexed_env (lit "What is X?")
               (Some (lit "abc123")) 5 start)
    as (r & Hq & Hc & Hnd & Hsrc).
  - reflexivity.
  - reflexivity.
  - rewrite search_eq. reflexivity.
  - discriminate.
  - vm_compute. reflexivity.
  - exists r. eexists. split; [exact Hq|]. split; [exact Hc|].
    split; [exact Hnd|]. split; [|split].
    + apply Hsrc. exists (vector_store.format_result (doc_a_hit 0)).
      split; [left | vm_compute; reflexivity].
    + apply Hsrc. exists (vector_store.format_result nameless_hit).
      split; [right; right; left | vm_compute; reflexivity].
    + intros Hin. apply Hsrc in Hin as (result & Hin & Hname).
      simpl in Hin.
      repeat (apply elem_of_cons in Hin as [-> | Hin];
              [vm_compute in Hname; discriminate Hname|]).
      inversion Hin.
Defined.

(** A query that returns carries the identifier that lines 96-97 chose,
    and only adds to the history. *)
Lemma query_keeps_id env user_query cid top_k w r w' :
  rag_engine.query env user_query cid top_k w = (Ok r, w') ->
  exists c w0,
    rag_engine.ensure_conversation_id env cid w = (Ok c, w0) /\
    rag_engine.conversation_id r = c /\
    exists evs, history w' = history w0 ++ evs.
Proof.
  rewrite query_eq.
  destruct (rag_engine.ensure_conversation_id env cid w) as [[c|e] w0];
    [|discriminate].
  intros H. exists c, w0. split; [reflexivity|]. revert H.
  unfold llm_client.generate_query_embedding, try_except, call, raise.
  destruct (embed_content env (history w0) _ user_query) as [v|e];
    [|discriminate].
  rewrite search_eq.
  destruct (qdrant_search env _ v top_k None) as [hits|e]; [|discriminate].
  destruct (negb (truthy _)).
  - rewrite generate_response_eq.
    destruct (generate_content env _ _); [|discriminate].
    intros [= <- <-]. split; [reflexivity|]. simpl.
    rewrite <- !app_assoc. eauto.
  - unfold llm_client.generate_rag_response, try_except, raise.
    rewrite generate_response_eq.
    destruct (generate_content env _ _); [|discriminate].
    intros [= <- <-]. split; [reflexivity|]. simpl.
    rewrite <- !app_assoc. eauto.
Qed.

(** C9 fails as stated: the empty string is a string, and a caller who
    supplies it gets a generated identifier back, not the empty string. *)
Lemma empty_conversation_id_replaced :
  exists r w',
    rag_engine.query quiet_env (lit "What is X?") (Some []) 5 start
      = (Ok r, w') /\
    rag_engine.conversation_id r
      = lit "00000000-0000-0000-0000-000000000000" /\
    rag_engine.conversation_id r <> [].
Proof.
  eexists _, _. split; [vm_compute; reflexivity|].
  split; [reflexivity|discriminate].
Qed.

(** C9, amended. For a query that returns: when no conversation id is
    supplied, or the empty string, the returned id is the string of the
    UUID drawn at the start of the call; when the caller supplies a
    non-empty string, the returned id is that string. *)
Theorem query_conversation_id (env : Env) (user_query : str)
    (cid : option str) (top_k : Z) (w : World) (r : rag_engine.QueryResult)
    (w' : World) :
  rag_engine.query env user_query cid top_k w = (Ok r, w') ->
  (cid = None \/ cid = Some [] ->
   rag_engine.conversation_id r = str_uuid (uuid4 env (history w)) /\
   head (drop (length (history w)) (history w')) = Some EvUuid4) /\
  (forall c, cid = Some c -> c <> [] -> rag_engine.conversation_id r = c).
Proof.
  intros H.
  apply query_keeps_id in H as (c & w0 & Hens & Hid & evs & Hh).
  rewrite ensure_conversation_id_eq in Hens. split.
  - intros Hcid.
    assert (c = str_uuid (uuid4 env (history w)) /\ w0 = record EvUuid4 w)
      as [-> ->] by (destruct Hcid as [-> | ->]; now injection Hens).
    split; [exact Hid|]. rewrite Hh. simpl.
    rewrite <- app_assoc, drop_app_length. reflexivity.
  - intros c' -> Hne. destruct c' as [|x xs]; [contradiction|].
    injection Hens as <- _. exact Hid.
Qed.

Lemma query_conversation_id_witness :
  exists r w',
    rag_engine.query quiet_env (lit "What is X?") (Some (lit "abc123")) 5
      start = (Ok r, w') /\
    rag_engine.conversation_id r = lit "abc123".
Proof.
  destruct (rag_engine.query quiet_env (lit "What is X?")
              (Some (lit "abc123")) 5 start) as [[r|e] w'] eqn:E;
    [|vm_compute in E; discriminate E].
  exists r, w'. split; [reflexivity|].
  apply (proj2 (query_conversation_id quiet_env _ _ _ _ _ _ E)
           (lit "abc123") eq_refl).
  discriminate.
Defined.

End Query.

(** * Further properties of the code *)

(** ** The chunker: sizes, order and coverage *)

Section ChunkerMore.
Import Py text_utils Examples.

Lemma length_strip s : (length (strip s) <= length s)%nat.
Proof.
  unfold strip, rstrip. rewrite length_rev.
  etransitivity; [apply length_lstrip|]. rewrite length_rev.
  apply length_lstrip.
Qed.

Lemma lstrip_keeps s c : c ∈ s -> isspace c = false -> c ∈ lstrip s.
Proof.
  induction s as [|x rest IH]; intros Hin Hc; [exact Hin|]. simpl.
  destruct (isspace x) eqn:Ex; [|exact Hin].
  apply IH; [|exact Hc]. apply elem_of_cons in Hin as [-> | Hin];
    [congruence | exact Hin].
Qed.

(** [strip] only removes whitespace. *)
Lemma strip_keeps s c : c ∈ s -> isspace c = false -> c ∈ strip s.
Proof.
  intros Hin Hc. unfold strip, rstrip.
  apply list_elem_of_In, (proj1 (in_rev _ _)), list_elem_of_In.
  apply lstrip_keeps; [|exact Hc].
  apply list_elem_of_In, (proj1 (in_rev _ _)), list_elem_of_In.
  apply lstrip_keeps; assumption.
Qed.

(** The character at an index between the bounds of a slice is in the
    slice. *)
Lemma slice_covers (text : str) start stop i c :
  0 <= start <= i -> i < stop ->
  text !! Z.to_nat i = Some c -> c ∈ slice text start stop.
Proof.
  intros Hs He Hi.
  assert (i < len text) as Hlen.
  { apply lookup_lt_Some in Hi. unfold len. lia. }
  unfold slice, adjust_index.
  destruct (Z.ltb_spec start 0); [lia|].
  destruct (Z.ltb_spec stop 0); [lia|].
  apply list_elem_of_lookup. exists (Z.to_nat (i - start)).
  rewrite lookup_take_lt by lia.
  rewrite lookup_drop. rewrite <- Hi. f_equal. lia.
Qed.

(** The windows of the loop when every round moves forward
    ([chunk_size - overlap >= 100]): each starts inside the text and has
    between 2 and [chunk_size] characters before clipping; the first
    starts at [start], each next one [overlap] characters before the end
    of the previous one and after its start; together they cover the text
    from [start] on; there are at most as many as characters left. *)
Lemma chunk_windows_spec text chunk_size overlap :
  0 <= overlap -> 100 <= chunk_size - overlap ->
  forall fuel start ws,
    0 <= start ->
    chunk_windows fuel text chunk_size overlap start = Some ws ->
    Forall (fun w => start <= w.1 < len text /\
                     w.1 + 2 <= w.2 <= w.1 + chunk_size) ws /\
    (forall w, ws !! 0%nat = Some w -> w.1 = start) /\
    (forall k w w', ws !! k = Some w -> ws !! S k = Some w' ->
                    w'.1 = w.2 - overlap /\ w.1 < w'.1) /\
    (forall i, start <= i < len text -> exists w, w ∈ ws /\ w.1 <= i < w.2) /\
    Z.of_nat (length ws) <= Z.max 0 (len text - start).
Proof.
  intros Ho Hc. induction fuel as [|fuel IH]; intros start ws Hs H;
    [discriminate|].
  simpl in H. destruct (Z.ltb_spec start (len text)) as [Hlt | Hge].
  2:{ injection H as <-. split; [constructor|]. split; [discriminate|].
      split; [discriminate|]. split; [lia | simpl; lia]. }
  set (e := window_end text chunk_size start) in *.
  assert (start + 2 <= e <= start + chunk_size) as He.
  { destruct (window_end_cases text chunk_size start) as [E | (_ & B & _)];
      unfold e; lia. }
  assert (start < e - overlap) as Hp
    by (apply window_progress; lia).
  destruct (chunk_windows fuel text chunk_size overlap (e - overlap))
    as [ws'|] eqn:E; [|discriminate].
  injection H as <-.
  destruct (IH (e - overlap) ws' ltac:(lia) E)
    as (HF & Hhead & Hadj & Hcov & Hlen).
  split; [|split; [|split; [|split]]].
  - constructor; [simpl; lia|].
    eapply Forall_impl; [exact HF|]. simpl. intros w. lia.
  - intros w [= <-]. reflexivity.
  - intros [|k] w w' Hw Hw'; simpl in Hw, Hw'.
    + injection Hw as <-. simpl. rewrite (Hhead w' Hw'). lia.
    + eapply Hadj; eassumption.
  - intros i Hi. destruct (Z.lt_ge_cases i e) as [Hie | Hie].
    + exists (start, e). split; [left | simpl; lia].
    + destruct (Hcov i ltac:(lia)) as (w & Hw & Hiw).
      exists w. split; [now right | exact Hiw].
  - simpl length. lia.
Qed.

(** The chunks of windows that start at 0 or later and span at most
    [chunk_size] characters have at most [chunk_size] characters. *)
Lemma chunks_of_bounded text chunk_size ws :
  Forall (fun w => 0 <= w.1 /\ w.1 <= w.2 <= w.1 + chunk_size) ws ->
  forall chunk, chunk ∈ chunks_of text ws -> len chunk <= chunk_size.
Proof.
  intros HF chunk Hin.
  unfold chunks_of in Hin. apply list_elem_of_filter in Hin as [_ Hin].
  apply list_elem_of_In, in_map_iff in Hin as (w & <- & Hw).
  rewrite Forall_forall in HF. apply list_elem_of_In, HF in Hw as [Hw1 Hw2].
  pose proof (length_strip (slice text w.1 w.2)) as L1.
  pose proof (length_slice text w.1 w.2 ltac:(lia) ltac:(lia)) as L2.
  unfold len in *. lia.
Qed.

(** When windows that start at 0 or later contain every index of the
    text, every character of the text that is not whitespace is in one of
    their chunks. *)
Lemma chunks_of_covers (text : str) ws :
  Forall (fun w => 0 <= w.1) ws ->
  (forall i, 0 <= i < len text -> exists w, w ∈ ws /\ w.1 <= i < w.2) ->
  forall c, c ∈ text -> isspace c = false ->
            exists chunk, chunk ∈ chunks_of text ws /\ c ∈ chunk.
Proof.
  intros HF Hcov c Hin Hsp.
  apply list_elem_of_lookup in Hin as [i Hi].
  destruct (Hcov (Z.of_nat i)) as (w & Hw & Hiw).
  { apply lookup_lt_Some in Hi. unfold len. lia. }
  rewrite Forall_forall in HF. pose proof (HF w Hw) as Hw1.
  assert (c ∈ strip (slice text w.1 w.2)) as Hc'.
  { apply strip_keeps; [|exact Hsp].
    apply (slice_covers text w.1 w.2 (Z.of_nat i)); [lia | lia |].
    now rewrite Nat2Z.id. }
  exists (strip (slice text w.1 w.2)). split; [|exact Hc'].
  unfold chunks_of. apply list_elem_of_filter. split.
  - destruct (strip (slice text w.1 w.2)); [inversion Hc' | reflexivity].
  - apply list_elem_of_In, in_map_iff. exists w.
    split; [reflexivity | now apply list_elem_of_In].
Qed.

(** X1. When [overlap >= 0] and [chunk_size - overlap >= 100], as with the
    parameters 1000 and 200 the document processor uses, [chunk_text]
    returns within [len(text) + 1] tests of its loop condition, with at most
    [max(1, len(text))] chunks. *)
Theorem chunk_text_returns (text : str) (chunk_size overlap : Z) :
  0 <= overlap -> 100 <= chunk_size - overlap ->
  exists chunks,
    chunk_text (S (length text)) text chunk_size overlap = Some chunks /\
    len chunks <= Z.max 1 (len text).
Proof.
  intros Ho Hc. unfold chunk_text.
  destruct (Z.leb_spec (len text) chunk_size) as [Hle | Hgt].
  { eexists. split; [reflexivity|]. change (len [text]) with 1. lia. }
  rewrite chunk_loop_windows.
  destruct (chunk_windows_terminates text chunk_size overlap Ho Hc
              (S (length text)) 0) as [ws Hws]; [lia | unfold len; lia |].
  rewrite Hws. eexists. split; [reflexivity|]. simpl.
  destruct (chunk_windows_spec text chunk_size overlap Ho Hc _ 0 _
              ltac:(lia) Hws) as (_ & _ & _ & _ & Hlen).
  assert (length (chunks_of text ws) <= length ws)%nat as L.
  { unfold chunks_of. etransitivity; [apply length_filter|].
    now rewrite length_map. }
  unfold len in *. lia.
Qed.

Lemma chunk_text_returns_witness :
  exists chunks,
    chunk_text (S (length text_a2500)) text_a2500 1000 200 = Some chunks /\
    len chunks <= Z.max 1 (len text_a2500).
Proof.
  apply (chunk_text_returns text_a2500 1000 200); lia.
Defined.

(** X2. When [overlap >= 0] and [chunk_size - overlap >= 100], no chunk
    that [chunk_text] returns has more than [chunk_size] characters. *)
Theorem chunk_text_bounded (fuel : nat) (text : str) (chunk_size overlap : Z)
    (chunks : list str) :
  0 <= overlap -> 100 <= chunk_size - overlap ->
  chunk_text fuel text chunk_size overlap = Some chunks ->
  forall chunk, chunk ∈ chunks -> len chunk <= chunk_size.
Proof.
  intros Ho Hc. unfold chunk_text.
  destruct (Z.leb_spec (len text) chunk_size) as [Hle | Hgt].
  { intros [= <-] chunk Hin. apply list_elem_of_singleton in Hin as ->.
    exact Hle. }
  rewrite chunk_loop_windows.
  destruct (chunk_windows fuel text chunk_size overlap 0) as [ws|] eqn:Hws;
    [|discriminate].
  simpl. intros [= <-].
  destruct (chunk_windows_spec text chunk_size overlap Ho Hc _ 0 _
              ltac:(lia) Hws) as (HF & _).
  apply chunks_of_bounded. eapply Forall_impl; [exact HF|].
  simpl. intros w. lia.
Qed.

Lemma chunk_text_bounded_witness :
  Forall (fun chunk => len chunk <= 1000)
    (chunks_of text_a2500
       [(0, 1000); (800, 1800); (1600, 2600); (2400, 3400)]).
Proof.
  apply Forall_forall.
  apply (chunk_text_bounded 5 text_a2500 1000 200); [lia | lia |].
  vm_compute. reflexivity.
Defined.

Lemma lstrip_split s :
  exists pre, s = pre ++ lstrip s /\ Forall (fun c => isspace c = true) pre.
Proof.
  induction s as [|c rest IH]; simpl.
  { exists []. split; [reflexivity | constructor]. }
  destruct (isspace c) eqn:E.
  - destruct IH as (pre & H & F). exists (c :: pre).
    split; [simpl; f_equal; exact H | now constructor].
  - exists []. split; [reflexivity | constructor].
Qed.

(** [strip] removes a prefix and a suffix of whitespace. *)
Lemma strip_split s :
  exists pre post,
    s = pre ++ strip s ++ post /\
    Forall (fun c => isspace c = true) pre /\
    Forall (fun c => isspace c = true) post.
Proof.
  destruct (lstrip_split s) as (pre & H1 & F1).
  destruct (lstrip_split (rev (lstrip s))) as (q & H2 & F2).
  exists pre, (rev q). split; [|split; [exact F1 | now apply List.Forall_rev]].
  unfold strip, rstrip. rewrite <- rev_app_distr, <- H2, rev_involutive.
  exact H1.
Qed.

(** A character that is not whitespace, at position [p] of the text and
    inside the window of [m] characters from [a], is at the same
    position in the stripped window, which is the text from some position
    [k] on. *)
Lemma strip_covers_at (text : str) (a m p : nat) c :
  (a <= p < a + m)%nat -> text !! p = Some c -> isspace c = false ->
  exists k,
    (k <= p < k + length (strip (take m (drop a text))))%nat /\
    take (length (strip (take m (drop a text)))) (drop k text)
    = strip (take m (drop a text)).
Proof.
  intros Hp Hc Hsp.
  destruct (strip_split (take m (drop a text)))
    as (pre & post & HS & Fpre & Fpost).
  remember (strip (take m (drop a text))) as chunk eqn:Hchunk.
  clear Hchunk.
  assert (take m (drop a text) !! (p - a)%nat = Some c) as Hat.
  { rewrite lookup_take_lt by lia. rewrite lookup_drop. rewrite <- Hc.
    f_equal. lia. }
  rewrite HS in Hat.
  destruct (decide (p - a < length pre)%nat) as [Hlt | Hge].
  { rewrite lookup_app_l in Hat by exact Hlt.
    rewrite Forall_lookup in Fpre. apply Fpre in Hat. congruence. }
  rewrite lookup_app_r in Hat by lia.
  destruct (decide (p - a - length pre < length chunk)%nat) as [Hin | Hout].
  2:{ rewrite lookup_app_r in Hat by lia.
      rewrite Forall_lookup in Fpost. apply Fpost in Hat. congruence. }
  exists (a + length pre)%nat. split; [lia|].
  rewrite <- drop_drop, <- (take_drop m (drop a text)), HS.
  rewrite <- !app_assoc, drop_app_length, take_app_length. reflexivity.
Qed.

(** When windows that start at 0 or later contain every index of the
    text, every position of the text that holds a character that is not
    whitespace lies in one of their chunks, and that chunk is the text
    from some position on. *)
Lemma chunks_of_covers_at (text : str) ws :
  Forall (fun w => 0 <= w.1) ws ->
  (forall i, 0 <= i < len text -> exists w, w ∈ ws /\ w.1 <= i < w.2) ->
  forall (p : nat) c,
    text !! p = Some c -> isspace c = false ->
    exists chunk k,
      chunk ∈ chunks_of text ws /\
      (k <= p < k + length chunk)%nat /\
      take (length chunk) (drop k text) = chunk.
Proof.
  intros HF Hcov p c Hc Hsp.
  pose proof (lookup_lt_Some _ _ _ Hc) as Hlen.
  destruct (Hcov (Z.of_nat p)) as (w & Hw & Hpw); [unfold len; lia|].
  rewrite Forall_forall in HF. pose proof (HF w Hw) as Hw1.
  assert (slice text w.1 w.2 =
          take (Z.to_nat (Z.min (len text) w.2 - w.1))
               (drop (Z.to_nat w.1) text)) as HS.
  { unfold slice, adjust_index.
    destruct (Z.ltb_spec w.1 0); [lia|].
    destruct (Z.ltb_spec w.2 0); [lia|].
    rewrite (Z.min_r (len text) w.1) by (unfold len; lia). reflexivity. }
  destruct (strip_covers_at text (Z.to_nat w.1)
              (Z.to_nat (Z.min (len text) w.2 - w.1)) p c)
    as (k & Hk & Heq); [unfold len; lia | exact Hc | exact Hsp |].
  rewrite <- HS in Hk, Heq.
  exists (strip (slice text w.1 w.2)), k.
  split; [|split; [exact Hk | exact Heq]].
  unfold chunks_of. apply list_elem_of_filter. split.
  - destruct (strip (slice text w.1 w.2)); [simpl in Hk; lia | reflexivity].
  - apply list_elem_of_In, in_map_iff. exists w.
    split; [reflexivity | now apply list_elem_of_In].
Qed.

(** X3. When [overlap >= 0] and [chunk_size - overlap >= 100], no
    occurrence of a character that is not whitespace is lost: for every
    position [p] of the text that holds such a character, some returned
    chunk is the piece of the text that starts at a position [k <= p] and
    ends after [p]. *)
Theorem chunk_text_covers (fuel : nat) (text : str) (chunk_size overlap : Z)
    (chunks : list str) :
  0 <= overlap -> 100 <= chunk_size - overlap ->
  chunk_text fuel text chunk_size overlap = Some chunks ->
  forall (p : nat) c,
    text !! p = Some c -> isspace c = false ->
    exists chunk k,
      chunk ∈ chunks /\
      (k <= p < k + length chunk)%nat /\
      take (length chunk) (drop k text) = chunk.
Proof.
  intros Ho Hc. unfold chunk_text.
  destruct (Z.leb_spec (len text) chunk_size) as [Hle | Hgt].
  { intros [= <-] p c Hp _. exists text, 0%nat.
    pose proof (lookup_lt_Some _ _ _ Hp).
    split; [left|]. split; [lia|]. apply firstn_all. }
  rewrite chunk_loop_windows.
  destruct (chunk_windows fuel text chunk_size overlap 0) as [ws|] eqn:Hws;
    [|discriminate].
  simpl. intros [= <-].
  destruct (chunk_windows_spec text chunk_size overlap Ho Hc _ 0 _
              ltac:(lia) Hws) as (HF & _ & _ & Hcov & _).
  apply chunks_of_covers_at; [|exact Hcov].
  eapply Forall_impl; [exact HF|]. simpl. intros w. lia.
Qed.

Lemma chunk_text_covers_witness :
  exists chunk k,
    chunk ∈ chunks_of text_a2500
              [(0, 1000); (800, 1800); (1600, 2600); (2400, 3400)] /\
    (k <= 2499 < k + length chunk)%nat /\
    take (length chunk) (drop k text_a2500) = chunk.
Proof.
  apply (chunk_text_covers 5 text_a2500 1000 200 _ ltac:(lia) ltac:(lia)
           ltac:(vm_compute; reflexivity) 2499%nat 97%N);
    vm_compute; reflexivity.
Defined.

(** X4. When [overlap >= 0] and [chunk_size - overlap >= 100], the windows
    the loop cuts start at 0 and move strictly forward: each window starts
    inside the text, exactly [overlap] characters before the end of the
    previous one, and spans at least 2 and at most [chunk_size] characters
    before clipping at the end of the text. *)
Theorem chunk_windows_ordered (fuel : nat) (text : str)
    (chunk_size overlap : Z) (ws : list (Z * Z)) :
  0 <= overlap -> 100 <= chunk_size - overlap ->
  chunk_windows fuel text chunk_size overlap 0 = Some ws ->
  (forall w, ws !! 0%nat = Some w -> w.1 = 0) /\
  (forall k w w', ws !! k = Some w -> ws !! S k = Some w' ->
                  w'.1 = w.2 - overlap /\ w.1 < w'.1) /\
  (forall w, w ∈ ws -> 0 <= w.1 < len text /\
                       w.1 + 2 <= w.2 <= w.1 + chunk_size).
Proof.
  intros Ho Hc Hws.
  destruct (chunk_windows_spec text chunk_size overlap Ho Hc _ 0 _
              ltac:(lia) Hws) as (HF & Hhead & Hadj & _).
  split; [exact Hhead|]. split; [exact Hadj|].
  intros w Hw. rewrite Forall_forall in HF. now apply HF.
Qed.

Lemma chunk_windows_ordered_witness :
  exists ws,
    chunk_windows 5 text_a2500 1000 200 0 = Some ws /\
    Forall (fun w => 0 <= w.1 < len text_a2500 /\
                     w.1 + 2 <= w.2 <= w.1 + 1000) ws.
Proof.
  exists [(0, 1000); (800, 1800); (1600, 2600); (2400, 3400)].
  split; [vm_compute; reflexivity|]. apply Forall_forall.
  apply (chunk_windows_ordered 5 text_a2500 1000 200); [lia | lia |].
  vm_compute. reflexivity.
Defined.

End ChunkerMore.

(** ** Cleaning and processing a document *)

Section Processing.
Import Py Runtime Observations Examples.

Lemma lstrip_subseteq s c : c ∈ lstrip s -> c ∈ s.
Proof.
  induction s as [|x rest IH]; simpl; [trivial|].
  destruct (isspace x); [|trivial]. intros H. right. now apply IH.
Qed.

Lemma strip_subseteq s c : c ∈ strip s -> c ∈ s.
Proof.
  unfold strip, rstrip. intros H.
  apply list_elem_of_In, (proj2 (in_rev _ _)), list_elem_of_In in H.
  apply lstrip_subseteq in H.
  apply list_elem_of_In, (proj2 (in_rev _ _)), list_elem_of_In in H.
  now apply lstrip_subseteq.
Qed.

(** A stripped string is empty or starts with a character that is not
    whitespace. *)
Lemma strip_head s :
  strip s = [] \/ exists c rest, strip s = c :: rest /\ isspace c = false.
Proof.
  unfold strip, rstrip.
  destruct (lstrip_head s) as [-> | (c & r & -> & Hc)]; [now left | right].
  simpl rev. destruct (lstrip_snoc (rev r) c Hc) as [s' ->].
  rewrite rev_app_distr. simpl. eauto.
Qed.

(** After the whitespace runs are replaced, the only whitespace left is
    the space, and the other characters are those of the text. *)
Lemma sub_whitespace_elem text c : forall in_run,
  c ∈ text_clean.sub_whitespace in_run text ->
  (isspace c = true -> c = 32%N) /\ (isspace c = false -> c ∈ text).
Proof.
  induction text as [|x rest IH]; intros in_run H; simpl in H.
  { inversion H. }
  destruct (isspace x) eqn:Ex.
  - destruct in_run.
    + destruct (IH _ H) as [A B]. split; [exact A|]. intros. right. auto.
    + apply elem_of_cons in H as [-> | H].
      * split; [reflexivity | discriminate].
      * destruct (IH _ H) as [A B]. split; [exact A|]. intros. right. auto.
  - apply elem_of_cons in H as [-> | H].
    + split; [congruence | left].
    + destruct (IH _ H) as [A B]. split; [exact A|]. intros. right. auto.
Qed.

Lemma sub_whitespace_keeps text c : forall in_run,
  c ∈ text -> isspace c = false ->
  c ∈ text_clean.sub_whitespace in_run text.
Proof.
  induction text as [|x rest IH]; intros in_run H Hc; [inversion H|].
  simpl. apply elem_of_cons in H as [-> | H].
  - rewrite Hc. left.
  - destruct (isspace x); [destruct in_run|]; try right; now apply IH.
Qed.

(** X5. [clean_text] returns a stripped text in which the only whitespace
    character is the space; a character that is not whitespace is in the
    result exactly when it is in the text and is a word character or one of
    [.,!?;:()-']. *)
Theorem clean_text_alphabet (env : Env) (text : str) :
  strip (text_clean.clean_text env text) = text_clean.clean_text env text /\
  (forall c, c ∈ text_clean.clean_text env text -> isspace c = true ->
             c = 32%N) /\
  (forall c, isspace c = false ->
             (c ∈ text_clean.clean_text env text <->
              c ∈ text /\
              (isalnum env c = true \/ c = 95%N \/ c ∈ lit ".,!?;:()-'"))).
Proof.
  unfold text_clean.clean_text. split; [apply strip_idem|]. split.
  - intros c Hin Hsp.
    apply strip_subseteq, list_elem_of_In, filter_In in Hin as [Hin _].
    apply list_elem_of_In in Hin.
    now apply (sub_whitespace_elem _ _ _ Hin).
  - intros c Hsp.
    assert (text_clean.kept env c = true <->
            isalnum env c = true \/ c = 95%N \/ c ∈ lit ".,!?;:()-'") as K.
    { unfold text_clean.kept. rewrite Hsp, orb_false_r, !orb_true_iff.
      rewrite N.eqb_eq, bool_decide_eq_true. tauto. }
    rewrite <- K. split.
    + intros Hin.
      apply strip_subseteq, list_elem_of_In, filter_In in Hin as [Hin Hk].
      apply list_elem_of_In in Hin.
      split; [now apply (sub_whitespace_elem _ _ _ Hin) | exact Hk].
    + intros [Hin Hk]. apply strip_keeps; [|exact Hsp].
      apply list_elem_of_In, filter_In. split; [|exact Hk].
      now apply list_elem_of_In, sub_whitespace_keeps.
Qed.

(** A text made of whitespace and of characters that are not kept is
    cleaned to the empty text. *)
Lemma clean_text_blank env text :
  (forall c, c ∈ text -> isspace c = true \/ text_clean.kept env c = false) ->
  text_clean.clean_text env text = [].
Proof.
  intros Hall. unfold text_clean.clean_text, strip.
  match goal with |- rstrip (lstrip ?t) = [] =>
    destruct (lstrip_head t) as [-> | (c & rest & E & Hc)]; [reflexivity|];
    assert (c ∈ lstrip t) as Hin by (rewrite E; left)
  end.
  apply lstrip_subseteq, list_elem_of_In, filter_In in Hin as [Hin Hk].
  apply list_elem_of_In, sub_whitespace_elem in Hin as [_ Hin].
  destruct (Hall c (Hin Hc)); congruence.
Qed.

(** What [process_document] does once the extension is supported and the
    extractor has returned [raw]. *)
Lemma process_document_extracted env file_path w raw :
  let file_ext := lower env (document_processor.after_last 46%N file_path) in
  file_ext ∈ document_processor.supported_types ->
  extract_text env (history w) file_ext file_path = Ok raw ->
  let text := text_clean.clean_text env raw in
  document_processor.process_document env file_path w =
  (if truthy text then
     match text_utils.chunk_text (S (length text)) text 1000 200 with
     | Some chunks =>
         Ok (chunks,
             <[lit "total_chunks" := VInt (len chunks)]>
             (<[lit "file_type" := VStr file_ext]>
              (<[lit "filename" :=
                   VStr (document_processor.after_last 47%N file_path)]> ∅)))
     | None => Err (Exc (lit "TimeoutError") [])
     end
   else Err (ValueError (lit "No text could be extracted from document")),
   record (EvExtract file_ext file_path) w).
Proof.
  intros file_ext Hext Hraw text. subst file_ext.
  unfold document_processor.process_document, try_except, bind, call, raise,
    ret.
  rewrite bool_decide_eq_true_2 by exact Hext.
  change (negb true) with false. cbv beta iota. rewrite Hraw. fold text.
  assert (strip text = text) as -> by apply strip_idem.
  destruct (truthy text); simpl negb; cbv beta iota; [|reflexivity].
  destruct (text_utils.chunk_text _ text 1000 200); reflexivity.
Qed.

(** X6. When the extractor returns a text made only of whitespace and of
    characters that cleaning removes, [process_document] raises
    [ValueError("No text could be extracted from document")]. *)
Theorem process_document_blank (env : Env) (file_path : str) (w : World)
    (raw : str) :
  let file_ext := lower env (document_processor.after_last 46%N file_path) in
  file_ext ∈ document_processor.supported_types ->
  extract_text env (history w) file_ext file_path = Ok raw ->
  (forall c, c ∈ raw -> isspace c = true \/ text_clean.kept env c = false) ->
  document_processor.process_document env file_path w =
  (Err (ValueError (lit "No text could be extracted from document")),
   record (EvExtract file_ext file_path) w).
Proof.
  intros file_ext Hext Hraw Hall.
  rewrite (process_document_extracted env file_path w raw Hext Hraw).
  now rewrite (clean_text_blank env raw Hall).
Qed.

(** What holds when [process_document] returns. *)
Lemma process_document_ok (env : Env) (file_path : str) (w : World)
    (chunks : list str) (base_metadata : gmap str value) (w' : World) :
  document_processor.process_document env file_path w
    = (Ok (chunks, base_metadata), w') ->
  let file_ext := lower env (document_processor.after_last 46%N file_path) in
  file_ext ∈ document_processor.supported_types /\
  w' = record (EvExtract file_ext file_path) w /\
  chunks <> [] /\
  (forall chunk, chunk ∈ chunks ->
                 strip chunk = chunk /\ chunk <> [] /\ len chunk <= 1000) /\
  base_metadata =
    <[lit "total_chunks" := VInt (len chunks)]>
    (<[lit "file_type" := VStr file_ext]>
     (<[lit "filename" :=
          VStr (document_processor.after_last 47%N file_path)]> ∅)).
Proof.
  intros H file_ext.
  destruct (decide (file_ext ∈ document_processor.supported_types))
    as [Hext | Hext].
  2:{ revert H.
      unfold document_processor.process_document, try_except, raise.
      fold file_ext. rewrite bool_decide_eq_false_2 by exact Hext.
      discriminate. }
  destruct (extract_text env (history w) file_ext file_path) as [raw|e]
    eqn:Hraw.
  2:{ revert H.
      unfold document_processor.process_document, try_except, bind, call,
        raise.
      fold file_ext. rewrite bool_decide_eq_true_2 by exact Hext.
      change (negb true) with false. cbv beta iota. rewrite Hraw.
      discriminate. }
  rewrite (process_document_extracted env file_path w raw Hext Hraw) in H.
  fold file_ext in H. set (text := text_clean.clean_text env raw) in *.
  destruct (truthy text) eqn:Ht; [|discriminate].
  destruct (text_utils.chunk_text (S (length text)) text 1000 200)
    as [chunks0|] eqn:Hch; [|discriminate].
  injection H as <- <- <-.
  split; [exact Hext|]. split; [reflexivity|].
  assert (strip text = text) as Hstrip by apply strip_idem.
  assert (exists c rest, text = c :: rest /\ isspace c = false)
    as (c0 & rest0 & Htext & Hc0).
  { pose proof (strip_head
                  (List.filter (text_clean.kept env)
                     (text_clean.sub_whitespace false raw))) as Hh.
    change (strip _) with text in Hh.
    destruct Hh as [E | Hh]; [rewrite E in Ht; discriminate | exact Hh]. }
  revert Hch. unfold text_utils.chunk_text.
  destruct (Z.leb_spec (len text) 1000) as [Hle | Hgt].
  { intros [= <-]. split; [discriminate|]. split; [|reflexivity].
    intros chunk Hin. apply list_elem_of_singleton in Hin as ->.
    split; [exact Hstrip|]. split; [rewrite Htext; discriminate | exact Hle]. }
  rewrite chunk_loop_windows.
  destruct (text_utils.chunk_windows (S (length text)) text 1000 200 0)
    as [ws|] eqn:Hws; [|discriminate].
  simpl. intros [= <-].
  destruct (chunk_windows_spec text 1000 200 ltac:(lia) ltac:(lia) _ 0 _
              ltac:(lia) Hws) as (HF & _ & _ & Hcov & _).
  split; [|split; [|reflexivity]].
  - destruct (chunks_of_covers text ws) with (c := c0)
      as (chunk & Hin & _); [| exact Hcov | rewrite Htext; left | exact Hc0 |].
    + eapply Forall_impl; [exact HF|]. simpl. intros x. lia.
    + intros E. rewrite E in Hin. inversion Hin.
  - intros chunk Hin.
    destruct (chunks_of_trimmed text ws chunk Hin) as [A B].
    split; [exact A|]. split; [exact B|].
    apply (chunks_of_bounded text 1000 ws); [|exact Hin].
    eapply Forall_impl; [exact HF|]. simpl. intros x. lia.
Qed.

(** X7. When [process_document] returns, it has called the extractor
    once and nothing else; there is at least one chunk; every chunk is
    stripped, not empty and at most 1000 characters long; the metadata
    holds exactly the basename of the path, the lower-cased extension, which
    is a supported one, and the number of chunks. *)
Theorem process_document_returns (env : Env) (file_path : str) (w : World)
    (chunks : list str) (base_metadata : gmap str value) (w' : World) :
  document_processor.process_document env file_path w
    = (Ok (chunks, base_metadata), w') ->
  let file_ext := lower env (document_processor.after_last 46%N file_path) in
  file_ext ∈ document_processor.supported_types /\
  w' = record (EvExtract file_ext file_path) w /\
  chunks <> [] /\
  (forall chunk, chunk ∈ chunks ->
                 strip chunk = chunk /\ chunk <> [] /\ len chunk <= 1000) /\
  base_metadata =
    <[lit "total_chunks" := VInt (len chunks)]>
    (<[lit "file_type" := VStr file_ext]>
     (<[lit "filename" :=
          VStr (document_processor.after_last 47%N file_path)]> ∅)).
Proof. exact (process_document_ok env file_path w chunks base_metadata w'). Qed.

Lemma process_document_returns_witness :
  exists chunks base_metadata w',
    document_processor.process_document long_env upload start
      = (Ok (chunks, base_metadata), w') /\
    chunks <> [] /\
    forall chunk, chunk ∈ chunks ->
                  strip chunk = chunk /\ chunk <> [] /\ len chunk <= 1000.
Proof.
  assert (match (document_processor.process_document long_env upload
                   start).1 with
          | Ok _ => true
          | Err _ => false
          end = true) as Hok by (vm_compute; reflexivity).
  destruct (document_processor.process_document long_env upload start)
    as [[[chunks base]|e] w'] eqn:E; [|discriminate Hok].
  exists chunks, base, w'. split; [reflexivity|].
  destruct (process_document_returns long_env upload start chunks base w' E)
    as (_ & _ & Hne & Hall & _).
  split; [exact Hne | exact Hall].
Defined.

End Processing.

(** ** Ingest: what is called, in which order, and what a failure leaves *)

Section IngestMore.
Import Py Runtime Observations Examples Examples2.

(** The removal that [delete_file] records. *)
(** The loop of [add_documents] draws an id and reads the clock once per
    item. *)
Lemma build_points_history env items : forall w,
  history (vector_store.build_points env items w).2 =
  history w ++ flat_map (fun _ => [EvUuid4; EvUtcnow]) items.
Proof.
  induction items as [|[[text embedding] meta] rest IH]; intros w; simpl.
  - now rewrite app_nil_r.
  - unfold bind, uuid4_str, call, ret. simpl.
    match goal with |- context [vector_store.build_points env rest ?w1] =>
      specialize (IH w1);
      destruct (vector_store.build_points env rest w1) as [[[ps ids]|e] w']
    end; simpl in *; rewrite IH; simpl; now rewrite <- !app_assoc.
Qed.

(** X8. A path whose lower-cased extension is not a supported one makes
    the ingest raise [ValueError("Unsupported file type: " + extension)]
    without calling the extractor, the embedding model or the index; only
    [delete_file] has run. *)
Theorem ingest_unsupported (env : Env) (file_path : str) (w : World) :
  let file_ext := lower env (document_processor.after_last 46%N file_path) in
  file_ext ∉ document_processor.supported_types ->
  rag_engine.process_and_store_document env file_path w =
  (Err (ValueError (lit "Unsupported file type: " ++ file_ext)),
   (file_utils.delete_file env file_path w).2).
Proof.
  intros file_ext Hext. rewrite process_and_store_document_eq. cbv zeta.
  unfold document_processor.process_document, try_except, raise.
  fold file_ext. rewrite bool_decide_eq_false_2 by exact Hext.
  reflexivity.
Qed.

Lemma ingest_unsupported_witness :
  rag_engine.process_and_store_document quiet_env word_file
    {| history := []; files := {[word_file]} |} =
  (Err (ValueError (lit "Unsupported file type: docx")),
   {| history := [EvRemove word_file]; files := ∅ |}).
Proof.
  rewrite (ingest_unsupported quiet_env word_file
             {| history := []; files := {[word_file]} |}).
  - vm_compute. reflexivity.
  - vm_compute. intros H. repeat (apply elem_of_cons in H as [H | H];
      [discriminate H|]). inversion H.
Defined.

(** X9. An ingest that returns has called, in this order and nothing
    else: the extractor once, the embedding model once per chunk in chunk
    order, the id generator and the clock once per chunk, the index once
    with one point per chunk, and [os.remove] when the file existed. *)
Theorem ingest_trace (env : Env) (file_path : str) (w : World)
    (r : rag_engine.IngestResult) (w' : World) :
  rag_engine.process_and_store_document env file_path w = (Ok r, w') ->
  exists chunks base_metadata w1 points,
    document_processor.process_document env file_path w
      = (Ok (chunks, base_metadata), w1) /\
    length points = length chunks /\
    history w' =
    history w
      ++ [EvExtract (lower env (document_processor.after_last 46%N file_path))
            file_path]
      ++ map (EvEmbed (lit "retrieval_document")) chunks
      ++ flat_map (fun _ => [EvUuid4; EvUtcnow]) chunks
      ++ [EvUpsert points]
      ++ (if bool_decide (file_path ∈ files w) then [EvRemove file_path]
          else []).
Proof.
  rewrite process_and_store_document_eq. cbv zeta.
  destruct (document_processor.process_document env file_path w)
    as [[[chunks base]|e] w1] eqn:PD; [|discriminate].
  destruct (negb (truthy chunks)); [discriminate|].
  destruct (rag_engine.embed_chunks env chunks w1)
    as [[embeddings|e] w2] eqn:EC; [|discriminate].
  pose proof (build_points_history env
                (zip (zip chunks embeddings)
                   (rag_engine.chunk_metadata base (length chunks))) w2)
    as HB.
  destruct (build_points_spec env
              (zip (zip chunks embeddings)
                 (rag_engine.chunk_metadata base (length chunks))) w2)
    as (points & w3 & Hbp & _ & F3 & HF).
  assert (vector_store.add_documents env chunks embeddings
            (rag_engine.chunk_metadata base (length chunks)) w2 =
          (match qdrant_upsert env (history w3) points with
           | None => Ok (map point_id points)
           | Some e => Err e
           end, record (EvUpsert points) w3)) as ->.
  { unfold vector_store.add_documents, try_except, bind, call, ret, raise.
    rewrite Hbp. destruct (qdrant_upsert env (history w3) points);
      reflexivity. }
  rewrite Hbp in HB. simpl in HB.
  destruct (qdrant_upsert env (history w3) points); [discriminate|].
  destruct (process_document_frame env _ _ _ _ PD) as (_ & F1 & HBm).
  destruct (HBm chunks base eq_refl) as (_ & _ & name & Hname).
  rewrite Hname. intros [= <- <-].
  destruct (embed_chunks_frame env _ _ _ _ EC) as (_ & F2 & HL).
  specialize (HL embeddings eq_refl).
  destruct (embed_chunks_history env _ _ _ _ EC) as [H2 _].
  destruct (process_document_ok env file_path w chunks base w1 PD)
    as (_ & -> & _).
  assert (length points = length chunks) as Hlen.
  { rewrite (Forall2_length _ _ _ HF), !length_zip_with.
    unfold rag_engine.chunk_metadata.
    rewrite length_map, length_seq. lia. }
  eexists chunks, base, _, points. split; [reflexivity|].
  split; [exact Hlen|].
  rewrite delete_file_history. simpl files. rewrite F3, F2. simpl files.
  simpl history. rewrite HB, H2. simpl history.
  assert (forall (A B C : Type) (f : list event) (l1 : list A) (l2 : list B)
                 (l3 : list C),
            length l1 = length l2 -> length l3 = length l1 ->
            flat_map (fun _ => f) (zip (zip l1 l2) l3)
            = flat_map (fun _ => f) l1) as Hflat.
  { clear. intros A B C f l1. induction l1 as [|a l1 IH];
      intros [|b l2] [|c l3] H1 H2; simpl in *; try discriminate;
      [reflexivity|]. f_equal. apply IH; congruence. }
  rewrite Hflat.
  - now rewrite <- !app_assoc.
  - congruence.
  - unfold rag_engine.chunk_metadata. now rewrite length_map, length_seq.
Qed.

Lemma ingest_trace_witness :
  exists r w' chunks points,
    rag_engine.process_and_store_document quiet_env upload start
      = (Ok r, w') /\
    length points = length chunks /\
    history w' =
    [EvExtract (lit "txt") upload]
      ++ map (EvEmbed (lit "retrieval_document")) chunks
      ++ flat_map (fun _ => [EvUuid4; EvUtcnow]) chunks
      ++ [EvUpsert points] ++ [EvRemove upload].
Proof.
  assert (match (rag_engine.process_and_store_document quiet_env upload
                   start).1 with
          | Ok _ => true
          | Err _ => false
          end = true) as Hok by (vm_compute; reflexivity).
  destruct (rag_engine.process_and_store_document quiet_env upload start)
    as [[r|e] w'] eqn:E; [|discriminate Hok].
  destruct (ingest_trace quiet_env upload start r w' E)
    as (chunks & base & w1 & points & _ & L & H).
  exists r, w', chunks, points. split; [reflexivity|].
  split; [exact L | exact H].
Defined.

(** X10. When the chunks were embedded and the index refuses the batch,
    the ingest raises the exception of the index as it is, the refused batch
    is the only one that was sent, and the file is deleted as long as
    [os.remove] does not fail. *)
Theorem ingest_upsert_failure (env : Env) (file_path : str) (w : World)
    (chunks : list str) (base_metadata : gmap str value) (w1 : World)
    (embeddings : list (list float)) (w2 : World) (e : exn) :
  document_processor.process_document env file_path w
    = (Ok (chunks, base_metadata), w1) ->
  rag_engine.embed_chunks env chunks w1 = (Ok embeddings, w2) ->
  (vector_store.add_documents env chunks embeddings
     (rag_engine.chunk_metadata base_metadata (length chunks)) w2).1
    = Err e ->
  let out := rag_engine.process_and_store_document env file_path w in
  out.1 = Err e /\
  (exists points,
     upserts (history out.2) = upserts (history w) ++ [points] /\
     exists h, qdrant_upsert env h points = Some e) /\
  (removable env file_path -> file_path ∉ files out.2).
Proof.
  intros PD EC Hadd out. unfold out. clear out.
  rewrite process_and_store_document_eq. cbv zeta. rewrite PD.
  destruct (process_document_ok env file_path w chunks base_metadata
              w1 PD) as (_ & _ & Hne & _).
  replace (truthy chunks) with true
    by (destruct chunks; [contradiction | reflexivity]).
  simpl negb. cbv iota. rewrite EC.
  destruct (add_documents_eq env chunks embeddings
              (rag_engine.chunk_metadata base_metadata (length chunks)) w2)
    as (points & w3 & Heq & U3 & _).
  rewrite Heq in Hadd |- *. simpl in Hadd.
  destruct (qdrant_upsert env (history w3) points) as [e'|] eqn:Hup;
    [|discriminate].
  injection Hadd as ->. simpl. split; [reflexivity|]. split.
  - exists points. split; [|eauto].
    rewrite delete_file_upserts, upserts_record, U3.
    apply embed_chunks_frame in EC as (-> & _).
    now apply process_document_frame in PD as (-> & _).
  - intros Hrm. now apply delete_file_removes.
Qed.

Lemma ingest_upsert_failure_witness :
  (rag_engine.process_and_store_document down_env upload start).1
    = Err (Exc (lit "UnexpectedResponse") (lit "503")) /\
  (upload ∉ files
     (rag_engine.process_and_store_document down_env upload start).2).
Proof.
  destruct (ingest_upsert_failure down_env upload start [hello]
              hello_metadata (record (EvExtract (lit "txt") upload) start)
              [[0%N; 0%N]]
              (record (EvEmbed (lit "retrieval_document") hello)
                 (record (EvExtract (lit "txt") upload) start))
              (Exc (lit "UnexpectedResponse") (lit "503")))
    as (Hout & _ & Hgone).
  - vm_compute. reflexivity.
  - reflexivity.
  - reflexivity.
  - split; [exact Hout|]. apply Hgone. intros h. reflexivity.
Defined.

End IngestMore.

(** ** The index adapter and the query: shapes, failures, round trips *)

Section RetrievalMore.
Import Py Runtime Observations Examples Examples2.

Lemma format_result_metadata (hit : ScoredPoint) (key : str) :
  key <> lit "text" ->
  vector_store.sr_metadata (vector_store.format_result hit) !! key
  = hit_payload hit !! key.
Proof.
  intros Hkey. unfold vector_store.format_result. simpl.
  rewrite map_lookup_filter.
  destruct (hit_payload hit !! key) as [x|]; [|reflexivity]. simpl.
  rewrite option_guard_True by exact Hkey. reflexivity.
Qed.

(** X11. A search result keeps the id and the score of the hit; its text
    is the [text] field of the payload, the empty string when there is none;
    its metadata has no [text] field and agrees with the payload on every
    other field. *)
Theorem format_result_fields (hit : ScoredPoint) :
  let result := vector_store.format_result hit in
  vector_store.sr_id result = hit_id hit /\
  vector_store.sr_score result = hit_score hit /\
  (hit_payload hit !! lit "text" = None ->
   vector_store.sr_text result = VStr []) /\
  (forall text, hit_payload hit !! lit "text" = Some text ->
                vector_store.sr_text result = text) /\
  vector_store.sr_metadata result !! lit "text" = None /\
  (forall key, key <> lit "text" ->
               vector_store.sr_metadata result !! key
               = hit_payload hit !! key).
Proof.
  cbv zeta. unfold vector_store.format_result. simpl.
  split; [reflexivity|]. split; [reflexivity|]. unfold get.
  split; [now intros ->|]. split; [now intros text ->|]. split.
  - apply map_lookup_filter_None. right. intros x _ H. now apply H.
  - intros key Hkey. now apply (format_result_metadata hit).
Qed.

(** What is known of an ingest that returned. *)
Lemma ingest_ok_inv env file_path w r w' :
  rag_engine.process_and_store_document env file_path w = (Ok r, w') ->
  exists chunks base w1 embeddings w2 points w3,
    document_processor.process_document env file_path w
      = (Ok (chunks, base), w1) /\
    rag_engine.embed_chunks env chunks w1 = (Ok embeddings, w2) /\
    length embeddings = length chunks /\
    Forall2 (stored_as env) points
      (zip (zip chunks embeddings)
         (rag_engine.chunk_metadata base (length chunks))) /\
    upserts (history w3) = upserts (history w) /\
    w' = (file_utils.delete_file env file_path
            (record (EvUpsert points) w3)).2 /\
    rag_engine.document_ids r = map point_id points.
Proof.
  rewrite process_and_store_document_eq. cbv zeta.
  destruct (document_processor.process_document env file_path w)
    as [[[chunks base]|e] w1] eqn:PD; [|discriminate].
  destruct (negb (truthy chunks)); [discriminate|].
  destruct (rag_engine.embed_chunks env chunks w1)
    as [[embeddings|e] w2] eqn:EC; [|discriminate].
  destruct (add_documents_eq env chunks embeddings
              (rag_engine.chunk_metadata base (length chunks)) w2)
    as (points & w3 & -> & U3 & _ & HF).
  destruct (qdrant_upsert env (history w3) points); [discriminate|].
  destruct (process_document_frame env _ _ _ _ PD) as (U1 & _ & HB).
  destruct (HB chunks base eq_refl) as (_ & _ & name & ->).
  destruct (embed_chunks_frame env _ _ _ _ EC) as (U2 & _ & HL).
  intros [= <- <-].
  exists chunks, base, w1, embeddings, w2, points, w3.
  split; [reflexivity|]. split; [exact EC|].
  split; [now apply HL|]. split; [exact HF|].
  split; [now rewrite U3, U2, U1|]. split; reflexivity.
Qed.

(** X12. Round trip through the index. Every point that an ingest stores,
    when a search gets it back as a hit, gives a result whose text is the
    chunk at the point's position, whose [chunk_index] is that position, and
    whose source filename is the basename of the ingested path. *)
Theorem ingested_point_retrieved (env : Env) (file_path : str) (w : World)
    (r : rag_engine.IngestResult) (w' : World) :
  rag_engine.process_and_store_document env file_path w = (Ok r, w') ->
  exists chunks base_metadata w1 points,
    document_processor.process_document env file_path w
      = (Ok (chunks, base_metadata), w1) /\
    upserts (history w') = upserts (history w) ++ [points] /\
    forall i point hit,
      points !! i = Some point ->
      hit_payload hit = point_payload point ->
      let result := vector_store.format_result hit in
      (exists chunk, chunks !! i = Some chunk /\
                     vector_store.sr_text result = VStr chunk) /\
      vector_store.sr_metadata result !! lit "chunk_index"
        = Some (VInt (Z.of_nat i)) /\
      filename_or_unknown result
        = VStr (document_processor.after_last 47%N file_path).
Proof.
  intros H.
  destruct (ingest_ok_inv env file_path w r w' H)
    as (chunks & base & w1 & embeddings & w2 & points & w3 &
        PD & EC & HL & HF & U & -> & _).
  exists chunks, base, w1, points. split; [exact PD|]. split.
  { now rewrite delete_file_upserts, upserts_record, U. }
  intros i point hit Hi Hpay result.
  destruct (process_document_ok env file_path w chunks base w1 PD)
    as (_ & _ & _ & _ & Hbase).
  destruct (Forall2_lookup_l _ _ _ _ _ HF Hi) as (item & Hitem & HP).
  destruct HP as (_ & _ & stamp & Hpayload).
  destruct item as [[chunk v] meta].
  apply lookup_zip_with_Some in Hitem as (cv & meta' & E1 & Hcv & Hmeta).
  apply lookup_zip_with_Some in Hcv as (chunk' & v' & E2 & Hchunk & _).
  simplify_eq.
  unfold rag_engine.chunk_metadata in Hmeta.
  rewrite list_lookup_fmap in Hmeta.
  destruct (seq 0 (length chunks) !! i) as [j|] eqn:Hj; [|discriminate].
  apply lookup_seq in Hj as [-> _]. simpl in Hmeta.
  injection Hmeta as <-. simpl in Hpayload.
  unfold result, filename_or_unknown.
  rewrite !format_result_metadata
    by (intros K; vm_compute in K; discriminate K).
  unfold vector_store.format_result, get. simpl vector_store.sr_text.
  rewrite Hpay, Hpayload, stored_payload_text.
  split; [eauto|].
  rewrite !stored_payload_other
    by (intros K; vm_compute in K; discriminate K).
  rewrite lookup_insert_eq. split; [reflexivity|].
  rewrite lookup_insert_ne by (intros K; vm_compute in K; discriminate K).
  rewrite lookup_insert_ne by (intros K; vm_compute in K; discriminate K).
  rewrite lookup_insert_ne by (intros K; vm_compute in K; discriminate K).
  rewrite lookup_insert_eq. reflexivity.
Qed.

Lemma ingested_point_retrieved_witness :
  exists r w' points,
    rag_engine.process_and_store_document long_env upload start
      = (Ok r, w') /\
    upserts (history w') = upserts (history start) ++ [points] /\
    forall i point hit,
      points !! i = Some point ->
      hit_payload hit = point_payload point ->
      filename_or_unknown (vector_store.format_result hit)
        = VStr (lit "notes.TXT").
Proof.
  assert (match (rag_engine.process_and_store_document long_env upload
                   start).1 with
          | Ok _ => true
          | Err _ => false
          end = true) as Hok by (vm_compute; reflexivity).
  destruct (rag_engine.process_and_store_document long_env upload start)
    as [[r|e] w'] eqn:E; [|discriminate Hok].
  destruct (ingested_point_retrieved long_env upload start r w' E)
    as (chunks & base & w1 & points & _ & U & Hall).
  exists r, w', points. split; [reflexivity|]. split; [exact U|].
  intros i point hit Hi Hp. now destruct (Hall i point hit Hi Hp) as (_ & _ & F).
Defined.

(** X13. [add_documents] builds one point per position that its three
    lists share, so as many as the shortest list has entries, draws one id
    and reads the clock once for each, and then calls the index exactly
    once, also for an empty batch; when the index returns, the ids returned
    are the ids of the points, in order. *)
Theorem add_documents_batch (env : Env) (texts : list str)
    (embeddings : list (list float)) (metadata : list (gmap str value))
    (w : World) :
  let out := vector_store.add_documents env texts embeddings metadata w in
  exists points,
    history out.2 =
    history w
      ++ flat_map (fun _ => [EvUuid4; EvUtcnow])
           (zip (zip texts embeddings) metadata)
      ++ [EvUpsert points] /\
    length points
      = (length texts `min` (length embeddings `min` length metadata))%nat /\
    files out.2 = files w /\
    (forall doc_ids, out.1 = Ok doc_ids -> doc_ids = map point_id points).
Proof.
  cbv zeta.
  pose proof (build_points_history env
                (zip (zip texts embeddings) metadata) w) as HB.
  destruct (build_points_spec env (zip (zip texts embeddings) metadata) w)
    as (points & w1 & Hbp & _ & F & HF).
  rewrite Hbp in HB. simpl in HB.
  exists points.
  unfold vector_store.add_documents, try_except, bind, call, ret, raise.
  rewrite Hbp.
  assert (length points
          = (length texts `min` (length embeddings `min` length metadata))%nat)
    as Hlen.
  { rewrite (Forall2_length _ _ _ HF), !length_zip_with. lia. }
  destruct (qdrant_upsert env (history w1) points); simpl;
    rewrite HB, <- app_assoc; repeat split; try assumption;
    intros ? [= <-]; reflexivity.
Qed.

Lemma generate_query_embedding_eq env query w :
  llm_client.generate_query_embedding env query w =
  (match embed_content env (history w) (lit "retrieval_query") query with
   | Ok vector => Ok vector
   | Err e => Err (Exception (lit "Failed to generate query embeddings: "
                                ++ exn_msg e))
   end, record (EvEmbed (lit "retrieval_query") query) w).
Proof.
  unfold llm_client.generate_query_embedding, try_except, call, raise.
  destruct (embed_content env (history w) _ query); reflexivity.
Qed.

Lemma ensure_conversation_id_frame env cid w :
  (rag_engine.ensure_conversation_id env cid w).2 = w \/
  (rag_engine.ensure_conversation_id env cid w).2 = record EvUuid4 w.
Proof. rewrite ensure_conversation_id_eq. destruct cid as [[|c cs]|]; auto. Qed.

(** X14. A query only reads: whatever it returns or raises, it hands no
    batch to [upsert] and leaves the files on disk as they were. *)
Theorem query_read_only (env : Env) (user_query : str) (cid : option str)
    (top_k : Z) (w : World) :
  let out := rag_engine.query env user_query cid top_k w in
  upserts (history out.2) = upserts (history w) /\ files out.2 = files w.
Proof.
  cbv zeta. rewrite query_eq.
  assert (upserts (history (rag_engine.ensure_conversation_id env cid w).2)
          = upserts (history w) /\
          files (rag_engine.ensure_conversation_id env cid w).2 = files w)
    as H0.
  { destruct (ensure_conversation_id_frame env cid w) as [-> | ->];
      [auto|]. rewrite upserts_record. simpl. now rewrite app_nil_r. }
  rewrite ensure_conversation_id_eq in *.
  destruct (match cid with
            | Some (c :: cs) => (Ok (c :: cs), w)
            | _ => (Ok (str_uuid (uuid4 env (history w))), record EvUuid4 w)
            end) as [[c|e] w0]; [|exact H0].
  cbn [snd] in H0. destruct H0 as [U0 F0]. rewrite <- U0, <- F0.
  rewrite generate_query_embedding_eq.
  destruct (embed_content env (history w0) _ user_query) as [v|e];
    [|cbn [snd]; rewrite upserts_record; split; [apply app_nil_r|reflexivity]].
  rewrite search_eq.
  destruct (qdrant_search env _ v top_k None) as [hits|e];
    [|cbn [snd]; rewrite !upserts_record, !app_nil_r; split; reflexivity].
  destruct (negb (truthy _)).
  - rewrite generate_response_eq.
    destruct (generate_content env _ _); cbn [snd];
      rewrite !upserts_record, !app_nil_r; split; reflexivity.
  - unfold llm_client.generate_rag_response, try_except, raise.
    rewrite generate_response_eq.
    destruct (generate_content env _ _); cbn [snd];
      rewrite !upserts_record, !app_nil_r; split; reflexivity.
Qed.

(** X15. When the embedding model refuses the query, the query raises
    [Exception("Failed to generate query embeddings: " + cause)] and calls
    neither the index nor the generation model. *)
Theorem query_embedding_failure (env : Env) (user_query : str)
    (cid : option str) (top_k : Z) (w : World) (c : str) (w0 : World)
    (e : exn) :
  rag_engine.ensure_conversation_id env cid w = (Ok c, w0) ->
  embed_content env (history w0) (lit "retrieval_query") user_query = Err e ->
  rag_engine.query env user_query cid top_k w =
  (Err (Exception (lit "Failed to generate query embeddings: "
                     ++ exn_msg e)),
   record (EvEmbed (lit "retrieval_query") user_query) w0).
Proof.
  intros Hc He.
  now rewrite query_eq, Hc, generate_query_embedding_eq, He.
Qed.

Lemma query_embedding_failure_witness :
  rag_engine.query failing_env (lit "What is X?") (Some (lit "abc123")) 5
    start =
  (Err (Exception (lit "Failed to generate query embeddings: quota")),
   {| history := [EvEmbed (lit "retrieval_query") (lit "What is X?")];
      files := {[upload]} |}).
Proof.
  exact (query_embedding_failure failing_env (lit "What is X?")
           (Some (lit "abc123")) 5 start _ _ _ eq_refl eq_refl).
Defined.

(** X16. When the index refuses the search, the query raises the
    exception of the index as it is and does not call the generation
    model. *)
Theorem query_search_failure (env : Env) (user_query : str)
    (cid : option str) (top_k : Z) (w : World) (c : str) (w0 : World)
    (v : list float) (w1 : World) (e : exn) :
  rag_engine.ensure_conversation_id env cid w = (Ok c, w0) ->
  llm_client.generate_query_embedding env user_query w0 = (Ok v, w1) ->
  qdrant_search env (history w1) v top_k None = Err e ->
  rag_engine.query env user_query cid top_k w =
  (Err e, record (EvSearch v top_k None) w1).
Proof.
  intros Hc Hv Hs. now rewrite query_eq, Hc, Hv, search_eq, Hs.
Qed.

Lemma query_search_failure_witness :
  rag_engine.query down_env (lit "What is X?") (Some (lit "abc123")) 5
    start =
  (Err (Exc (lit "UnexpectedResponse") (lit "503")),
   {| history := [EvEmbed (lit "retrieval_query") (lit "What is X?");
                  EvSearch [0%N; 0%N] 5 None];
      files := {[upload]} |}).
Proof.
  exact (query_search_failure down_env (lit "What is X?")
           (Some (lit "abc123")) 5 start _ _ _ _ _ eq_refl eq_refl eq_refl).
Defined.



(** X18. The passages of the prompt are numbered from 1 in the order of
    the context: the entry at position [k] is "Document k+1:", a line
    break, and the passage. *)
Theorem documents_numbered (context : list value) (k : nat) :
  llm_client.documents 0 context !! k =
  (fun doc => lit "Document " ++ str_of_Z (Z.of_nat k + 1) ++ lit ":"
                ++ llm_client.nl ++ format doc) <$> context !! k.
Proof.
  assert (forall i,
            llm_client.documents i context !! k =
            (fun doc => lit "Document " ++ str_of_Z (i + Z.of_nat k + 1)
                          ++ lit ":" ++ llm_client.nl ++ format doc)
              <$> context !! k) as H.
  { revert k. induction context as [|doc rest IH]; intros [|k] i;
      try reflexivity.
    - simpl. now rewrite Z.add_0_r.
    - rewrite Nat2Z.inj_succ.
      change (llm_client.documents (i + 1) rest !! k =
              (fun doc0 => lit "Document "
                             ++ str_of_Z (i + Z.succ (Z.of_nat k) + 1)
                             ++ lit ":" ++ llm_client.nl ++ format doc0)
                <$> rest !! k).
      rewrite IH.
      replace (i + 1 + Z.of_nat k + 1) with (i + Z.succ (Z.of_nat k) + 1)
        by lia.
      reflexivity. }
  apply (H 0).
Qed.

End RetrievalMore.

(** ** Uploads, statistics and the routes *)

Section Services.
Import Py Runtime Platform settings upload_utils Observations Examples
  Examples2.

Lemma process_document_blank_witness :
  document_processor.process_document blank_env upload start =
  (Err (ValueError (lit "No text could be extracted from document")),
   record (EvExtract (lit "txt") upload) start).
Proof.
  apply (process_document_blank blank_env upload start
           [32%N; 35%N; 9%N; 64%N; 32%N]).
  - vm_compute. right. left.
  - reflexivity.
  - intros c Hc.
    repeat (apply elem_of_cons in Hc as [-> | Hc]; [vm_compute; auto|]).
    inversion Hc.
Defined.

Lemma after_last_notin sep s :
  sep ∉ s -> document_processor.after_last sep s = s.
Proof.
  destruct s as [|c rest]; [reflexivity|]. intros H. simpl.
  rewrite bool_decide_eq_false_2 by (intros K; apply H; now right).
  destruct (N.eqb_spec c sep) as [-> | _]; [|reflexivity].
  destruct H. left.
Qed.

Lemma after_last_app sep pre s :
  sep ∈ s ->
  document_processor.after_last sep (pre ++ s)
  = document_processor.after_last sep s.
Proof.
  intros H. induction pre as [|c pre IH]; [reflexivity|]. simpl.
  rewrite bool_decide_eq_true_2; [exact IH|].
  apply elem_of_app. now right.
Qed.

Lemma after_last_app_sep sep pre s :
  sep ∉ s -> document_processor.after_last sep (pre ++ sep :: s) = s.
Proof.
  intros H. rewrite after_last_app by left. simpl.
  rewrite bool_decide_eq_false_2 by exact H. now rewrite N.eqb_refl.
Qed.

(** The string of a UUID is made of hexadecimal digits and dashes. *)
Lemma hex_fixed_chars width : forall v c,
  c ∈ hex_fixed width v ->
  (48 <= c <= 57)%N \/ (97 <= c <= 102)%N.
Proof.
  induction width as [|width IH]; intros v c H; cbn [hex_fixed] in H.
  { inversion H. }
  apply elem_of_app in H as [H | H]; [now apply (IH _ _ H)|].
  apply list_elem_of_singleton in H as ->. unfold hex_digit.
  pose proof (N.mod_lt v 16 ltac:(discriminate)) as Hlt.
  set (d := (v mod 16)%N) in *. clearbody d.
  destruct (N.ltb_spec d 10); lia.
Qed.

Lemma str_uuid_chars u c :
  c ∈ str_uuid u -> c <> 47%N /\ c <> 46%N.
Proof.
  unfold str_uuid. cbv zeta. intros H.
  assert (forall x, x ∈ hex_fixed 32 u -> x <> 47%N /\ x <> 46%N) as Hhex.
  { intros x Hx. apply hex_fixed_chars in Hx. lia. }
  assert (forall x, x ∈ lit "-" -> x <> 47%N /\ x <> 46%N) as Hdash.
  { intros x Hx. apply list_elem_of_singleton in Hx as ->.
    split; discriminate. }
  repeat (apply elem_of_app in H as [H | H];
          [first [ now apply Hdash
                 | apply Hhex; eapply subseteq_take; eassumption
                 | apply Hhex; eapply subseteq_drop, subseteq_take;
                   eassumption ]|]).
  apply Hhex. eapply subseteq_drop; eassumption.
Qed.

Lemma str_uuid_head u : exists c rest, str_uuid u = c :: rest.
Proof.
  destruct (str_uuid u) as [|c rest] eqn:E; [|eauto].
  apply (f_equal length) in E. unfold str_uuid in E. cbv zeta in E.
  rewrite !length_app in E. simpl in E. lia.
Qed.

(** The saved name: where it is put and what its last components are. *)
Lemma path_join_unique dir u name :
  let unique_filename := str_uuid u ++ lit "_" ++ name in
  let file_path := path_join dir unique_filename in
  (47%N ∉ name ->
   document_processor.after_last 47%N file_path = unique_filename) /\
  (46%N ∈ name ->
   document_processor.after_last 46%N file_path
   = document_processor.after_last 46%N name).
Proof.
  intros unique_filename file_path.
  destruct (str_uuid_head u) as (c & rest & Hu).
  assert (c <> 47%N) as Hc.
  { apply (str_uuid_chars u). rewrite Hu. left. }
  assert (exists pre, file_path = pre ++ unique_filename /\
                      (pre = [] \/ exists pre', pre = pre' ++ [47%N]))
    as (pre & -> & Hpre).
  { unfold file_path, path_join, unique_filename. rewrite Hu.
    rewrite bool_decide_eq_false_2 by (simpl; intros [= K]; contradiction).
    destruct (bool_decide_reflect (dir = [] \/ last dir = Some 47%N))
      as [[-> | Hl] | _].
    - exists []. auto.
    - exists dir. split; [reflexivity|]. right.
      apply last_Some in Hl as [pre' ->]. eauto.
    - exists (dir ++ lit "/"). rewrite <- app_assoc. split; [reflexivity|].
      right. eauto. }
  split.
  - intros Hname.
    assert (47%N ∉ unique_filename) as Hfree.
    { unfold unique_filename. intros K.
      apply elem_of_app in K as [K | K];
        [now apply str_uuid_chars in K as [? _]|].
      apply elem_of_cons in K as [K | K]; [discriminate K | contradiction]. }
    destruct Hpre as [-> | [pre' ->]]; [now apply after_last_notin|].
    rewrite <- app_assoc. now apply after_last_app_sep.
  - intros Hname. unfold unique_filename.
    rewrite !app_assoc. now apply after_last_app.
Qed.

(** X19. With the default settings, a filename passes
    [validate_file_type] exactly when the document processor supports its
    lower-cased extension. *)
Theorem validate_file_type_default (env : Env) (filename : str) :
  validate_file_type env defaults filename =
  bool_decide (lower env (document_processor.after_last 46%N filename)
               ∈ document_processor.supported_types).
Proof.
  unfold validate_file_type.
  assert (allowed_file_types_list defaults =
          [lit "pdf"; lit "xlsx"; lit "xls"; lit "txt"; lit "png";
           lit "jpg"; lit "jpeg"]) as -> by (vm_compute; reflexivity).
  unfold document_processor.supported_types.
  apply bool_decide_ext. rewrite !elem_of_cons, !elem_of_nil. tauto.
Qed.

(** X20. An upload whose type is not allowed, or whose content is larger
    than [MAX_FILE_SIZE_MB] megabytes, is refused with an [HTTPException]
    of status 400 before an id is drawn or anything is written. *)
Theorem save_upload_file_refuses (env : Env) (cfg : Settings)
    (pf : Platform) (upload_file : UploadFile) (w : World) :
  validate_file_type env cfg (upload_filename upload_file) = false \/
  MAX_FILE_SIZE_MB cfg * 1024 * 1024 < len (upload_content upload_file) ->
  exists detail,
    save_upload_file env cfg pf upload_file w
    = (Err (HTTPException pf 400 detail), w).
Proof.
  intros H. unfold save_upload_file.
  destruct (validate_file_type env cfg (upload_filename upload_file)).
  - destruct H as [H | H]; [discriminate|].
    unfold validate_file_size, max_file_size_bytes.
    rewrite (proj2 (Z.leb_gt _ _) H).
    change (negb true) with false. change (negb false) with true.
    cbv beta iota. unfold raise. eauto.
  - change (negb false) with true. cbv beta iota. unfold raise. eauto.
Qed.

Lemma save_upload_file_refuses_witness :
  exists detail,
    save_upload_file quiet_env defaults plain_platform word_upload fresh
    = (Err (HTTPException plain_platform 400 detail), fresh).
Proof.
  apply (save_upload_file_refuses quiet_env defaults plain_platform
           word_upload fresh).
  left. vm_compute. reflexivity.
Defined.

(** X21. An upload of an allowed type and size whose write succeeds is
    saved under [UPLOAD_DIR] as the string of a fresh UUID, an underscore
    and the client's filename: the file is then on disk, its basename is
    that name when the filename has no slash, and its extension is the one
    of the filename when the filename has a dot. *)
Theorem save_upload_file_saves (env : Env) (cfg : Settings) (pf : Platform)
    (upload_file : UploadFile) (w : World) :
  validate_file_type env cfg (upload_filename upload_file) = true ->
  len (upload_content upload_file) <= MAX_FILE_SIZE_MB cfg * 1024 * 1024 ->
  write_file pf (history w ++ [EvUuid4])
    (path_join (UPLOAD_DIR cfg)
       (str_uuid (uuid4 env (history w)) ++ lit "_"
          ++ upload_filename upload_file))
    (upload_content upload_file) = None ->
  let unique_filename :=
    str_uuid (uuid4 env (history w)) ++ lit "_"
      ++ upload_filename upload_file in
  let file_path := path_join (UPLOAD_DIR cfg) unique_filename in
  save_upload_file env cfg pf upload_file w =
  (Ok file_path,
   {| history := history w ++ [EvUuid4];
      files := files w ∪ {[file_path]} |}) /\
  (47%N ∉ upload_filename upload_file ->
   document_processor.after_last 47%N file_path = unique_filename) /\
  (46%N ∈ upload_filename upload_file ->
   document_processor.after_last 46%N file_path
   = document_processor.after_last 46%N (upload_filename upload_file)).
Proof.
  intros Hty Hsz Hwr unique_filename file_path. split.
  - unfold save_upload_file. rewrite Hty.
    unfold validate_file_size, max_file_size_bytes.
    rewrite (proj2 (Z.leb_le _ _) Hsz).
    change (negb true) with false. cbv beta iota.
    unfold bind, uuid4_str, call, try_except, write, ret.
    cbn [history record files]. rewrite Hwr. reflexivity.
  - apply path_join_unique.
Qed.

Lemma save_upload_file_saves_witness :
  save_upload_file quiet_env defaults plain_platform notes_upload fresh =
  (Ok (lit "uploads/00000000-0000-0000-0000-000000000000_Notes.TXT"),
   {| history := [EvUuid4];
      files :=
        ∅ ∪ {[lit "uploads/00000000-0000-0000-0000-000000000000_Notes.TXT"]}
   |}) /\
  document_processor.after_last 46%N
    (lit "uploads/00000000-0000-0000-0000-000000000000_Notes.TXT")
  = lit "TXT".
Proof.
  destruct (save_upload_file_saves quiet_env defaults plain_platform
              notes_upload fresh) as (Hsave & _ & Hext).
  - vm_compute. reflexivity.
  - vm_compute. discriminate.
  - reflexivity.
  - split; [exact Hsave|]. apply Hext. vm_compute.
    do 5 right. left.
Defined.

(** [delete_file] is the last step of every ingest. *)
Lemma ingest_removes env file_path w :
  removable env file_path ->
  file_path ∉ files (rag_engine.process_and_store_document env file_path w).2.
Proof.
  intros Hrm. rewrite process_and_store_document_eq. cbv zeta.
  destruct (document_processor.process_document env file_path w)
    as [[[chunks base]|e] w1]; [|now apply delete_file_removes].
  destruct (negb (truthy chunks)); [now apply delete_file_removes|].
  destruct (rag_engine.embed_chunks env chunks w1)
    as [[embeddings|e] w2]; [|now apply delete_file_removes].
  destruct (vector_store.add_documents env chunks embeddings _ w2)
    as [[doc_ids|e] w3]; [|now apply delete_file_removes].
  destruct (base !! lit "filename"); now apply delete_file_removes.
Qed.

(** The filename an ingest returns is the basename of its path. *)
Lemma ingest_ok_filename env file_path w r w' :
  rag_engine.process_and_store_document env file_path w = (Ok r, w') ->
  rag_engine.filename r
  = VStr (document_processor.after_last 47%N file_path).
Proof.
  rewrite process_and_store_document_eq. cbv zeta.
  destruct (document_processor.process_document env file_path w)
    as [[[chunks base]|e] w1] eqn:PD; [|discriminate].
  destruct (process_document_ok env file_path w chunks base w1 PD)
    as (_ & _ & _ & _ & ->).
  destruct (negb (truthy chunks)); [discriminate|].
  destruct (rag_engine.embed_chunks env chunks w1)
    as [[embeddings|e] w2]; [|discriminate].
  destruct (vector_store.add_documents env chunks embeddings _ w2)
    as [[doc_ids|e] w3]; [|discriminate].
  rewrite lookup_insert_ne by (intros K; vm_compute in K; discriminate K).
  rewrite lookup_insert_ne by (intros K; vm_compute in K; discriminate K).
  rewrite lookup_insert_eq. now intros [= <- _].
Qed.

(** What is known of a saved upload. *)
Lemma save_upload_file_ok_inv env cfg pf upload_file w file_path w1 :
  save_upload_file env cfg pf upload_file w = (Ok file_path, w1) ->
  file_path =
    path_join (UPLOAD_DIR cfg)
      (str_uuid (uuid4 env (history w)) ++ lit "_"
         ++ upload_filename upload_file) /\
  validate_file_type env cfg (upload_filename upload_file) = true /\
  history w1 = history w ++ [EvUuid4] /\
  file_path ∈ files w1.
Proof.
  unfold save_upload_file.
  destruct (validate_file_type env cfg (upload_filename upload_file));
    [|discriminate].
  change (negb true) with false. cbv beta iota.
  destruct (negb (validate_file_size cfg _)); [discriminate|].
  unfold bind, uuid4_str, call, try_except, write, ret, raise.
  cbn [history record files].
  destruct (write_file pf _ _ _) as [[e created]|]; [discriminate|].
  intros [= <- <-]. repeat split. simpl. set_solver.
Qed.

(** [handle_file_upload] in terms of its two steps. *)
Lemma handle_file_upload_eq env cfg pf file w :
  chat_service.handle_file_upload env cfg pf file w =
  match save_upload_file env cfg pf file w with
  | (Err e, w1) =>
      (Err (Exception (lit "Failed to process file: " ++ exn_msg e)), w1)
  | (Ok file_path, w1) =>
      match rag_engine.process_and_store_document env file_path w1 with
      | (Err e, w2) =>
          (Err (Exception (lit "Failed to process file: " ++ exn_msg e)), w2)
      | (Ok result, w2) => (Ok result, w2)
      end
  end.
Proof.
  unfold chat_service.handle_file_upload, try_except, bind, ret, raise.
  destruct (save_upload_file env cfg pf file w) as [[file_path|e] w1];
    [|reflexivity].
  destruct (rag_engine.process_and_store_document env file_path w1)
    as [[result|e] w2]; reflexivity.
Qed.

(** X22. An upload that was saved does not stay on disk: after
    [handle_file_upload], whether the document was stored or the processing
    raised, the saved file is gone, as long as [os.remove] does not fail on
    it. *)
Theorem handle_file_upload_cleans (env : Env) (cfg : Settings)
    (pf : Platform) (file : UploadFile) (w : World) (file_path : str)
    (w1 : World) :
  save_upload_file env cfg pf file w = (Ok file_path, w1) ->
  removable env file_path ->
  file_path ∈ files w1 /\
  file_path ∉ files (chat_service.handle_file_upload env cfg pf file w).2.
Proof.
  intros Hsave Hrm.
  split; [now apply save_upload_file_ok_inv in Hsave as (_ & _ & _ & H)|].
  rewrite handle_file_upload_eq, Hsave.
  pose proof (ingest_removes env file_path w1 Hrm) as H.
  destruct (rag_engine.process_and_store_document env file_path w1)
    as [[result|e] w2]; exact H.
Qed.

Lemma handle_file_upload_cleans_witness :
  lit "uploads/00000000-0000-0000-0000-000000000000_Notes.TXT"
    ∉ files (chat_service.handle_file_upload failing_env defaults
               plain_platform notes_upload fresh).2.
Proof.
  eapply (handle_file_upload_cleans failing_env defaults plain_platform
            notes_upload fresh).
  - vm_compute. reflexivity.
  - intros h. reflexivity.
Defined.

(** X23. The filename of an upload that was stored, which is also the
    [filename] of the metadata of its chunks, is not the client's filename
    but the saved one: the string of the UUID drawn for it, an underscore
    and the client's filename (when that has no slash). *)
Theorem upload_stored_name (env : Env) (cfg : Settings) (pf : Platform)
    (file : UploadFile) (w : World) (r : rag_engine.IngestResult)
    (w' : World) :
  chat_service.handle_file_upload env cfg pf file w = (Ok r, w') ->
  47%N ∉ upload_filename file ->
  rag_engine.filename r =
  VStr (str_uuid (uuid4 env (history w)) ++ lit "_" ++ upload_filename file).
Proof.
  rewrite handle_file_upload_eq.
  destruct (save_upload_file env cfg pf file w) as [[file_path|e] w1]
    eqn:Hsave; [|discriminate].
  destruct (rag_engine.process_and_store_document env file_path w1)
    as [[result|e] w2] eqn:Hing; [|discriminate].
  intros [= <- <-] Hname.
  rewrite (ingest_ok_filename env file_path w1 result w2 Hing).
  apply save_upload_file_ok_inv in Hsave as (-> & _).
  f_equal. now apply path_join_unique.
Qed.

Lemma upload_stored_name_witness :
  exists r w',
    chat_service.handle_file_upload quiet_env defaults plain_platform
      notes_upload fresh = (Ok r, w') /\
    rag_engine.filename r
    = VStr (lit "00000000-0000-0000-0000-000000000000_Notes.TXT").
Proof.
  assert (match (chat_service.handle_file_upload quiet_env defaults
                   plain_platform notes_upload fresh).1 with
          | Ok _ => true
          | Err _ => false
          end = true) as Hok by (vm_compute; reflexivity).
  destruct (chat_service.handle_file_upload quiet_env defaults
              plain_platform notes_upload fresh) as [[r|e] w'] eqn:E;
    [|discriminate Hok].
  exists r, w'. split; [reflexivity|].
  apply (upload_stored_name quiet_env defaults plain_platform notes_upload
           fresh r w' E).
  vm_compute. intros H.
  repeat (apply elem_of_cons in H as [H | H]; [discriminate H|]).
  inversion H.
Defined.

(** X24. The upload route never answers 400. When the class [Exception]
    is not a [ValueError], every failure of the upload, a refused file type
    and an unsupported or empty document included, is answered with status
    500 and the detail "Failed to process document: Failed to process
    file: " followed by the cause; a success is answered with the fields of
    the ingest result and its first document id. *)
Theorem upload_document_status (env : Env) (cfg : Settings) (pf : Platform)
    (file : UploadFile) (w : World) :
  is_ValueError pf (lit "Exception") = false ->
  match chat_service.handle_file_upload env cfg pf file w with
  | (Ok result, w') =>
      exists name,
        rag_engine.filename result = VStr name /\
        routes.upload_document env cfg pf file w =
        (Response
           {| routes.success := rag_engine.success result;
              routes.message := rag_engine.message result;
              routes.document_id := head (rag_engine.document_ids result);
              routes.filename := name |}, w')
  | (Err e, w') =>
      exists cause,
        e = Exception (lit "Failed to process file: " ++ cause) /\
        routes.upload_document env cfg pf file w =
        (HTTPError 500
           (lit "Failed to process document: Failed to process file: "
              ++ cause), w')
  end.
Proof.
  intros Hcls. unfold routes.upload_document.
  rewrite handle_file_upload_eq.
  destruct (save_upload_file env cfg pf file w) as [[file_path|e] w1].
  2:{ exists (exn_msg e). split; [reflexivity|].
      unfold Exception. cbn [exn_class exn_msg]. rewrite Hcls.
      reflexivity. }
  destruct (rag_engine.process_and_store_document env file_path w1)
    as [[result|e] w2] eqn:Hing.
  - exists (document_processor.after_last 47%N file_path).
    pose proof (ingest_ok_filename env file_path w1 result w2 Hing) as Hf.
    split; [exact Hf|]. rewrite Hf.
    destruct (rag_engine.document_ids result); reflexivity.
  - exists (exn_msg e). split; [reflexivity|].
    unfold Exception. cbn [exn_class exn_msg]. rewrite Hcls. reflexivity.
Qed.

Lemma upload_document_status_witness :
  is_ValueError plain_platform (lit "Exception") = false /\
  exists cause,
    routes.upload_document quiet_env defaults plain_platform word_upload
      fresh
    = (HTTPError 500
         (lit "Failed to process document: Failed to process file: "
            ++ cause), fresh).
Proof.
  split; [reflexivity|].
  pose proof (upload_document_status quiet_env defaults plain_platform
                word_upload fresh eq_refl) as H.
  assert (chat_service.handle_file_upload quiet_env defaults plain_platform
            word_upload fresh =
          (Err (Exception (lit "Failed to process file: 400: File type not allowed. Allowed types: pdf,xlsx,xls,txt,png,jpg,jpeg")),
           fresh)) as E by (vm_compute; reflexivity).
  rewrite E in H. destruct H as (cause & _ & Hr).
  exists cause. exact Hr.
Defined.

(** X25. The statistics never fail and never report an error: when the
    index answers, the service and the route return the collection name,
    the number of points and the status; when the index raises, they return
    the empty object, so the [error] entries of the two outer handlers and
    the status 500 of the route are never produced. *)
Theorem stats_never_fail (cfg : Settings) (pf : Platform) (w : World) :
  exists info,
    chat_service.get_stats cfg pf w = (Ok info, w) /\
    routes.get_stats cfg pf w = (Response info, w) /\
    info !! lit "error" = None /\
    match qdrant_get_collection pf (history w) (QDRANT_COLLECTION_NAME cfg)
    with
    | Ok (points_count, status) =>
        info !! lit "name" = Some (VStr (QDRANT_COLLECTION_NAME cfg)) /\
        info !! lit "points_count" = Some points_count /\
        info !! lit "status" = Some status /\
        size info = 3%nat
    | Err _ => info = ∅
    end.
Proof.
  unfold routes.get_stats, chat_service.get_stats,
    stats.get_collection_stats, stats.get_collection_info, try_except, ret.
  destruct (qdrant_get_collection pf (history w) _) as [[pc st]|e].
  - eexists. split; [reflexivity|]. split; [reflexivity|].
    split; [reflexivity|].
    split; [reflexivity|]. split; [reflexivity|]. split; [reflexivity|].
    rewrite !map_size_insert_None; reflexivity.
  - exists ∅. repeat split; reflexivity.
Qed.

End Services.

(** ** Keywords *)

Section Keywords.
Import Py Runtime keywords Examples.

Lemma longest_match_bounds env s n k :
  longest_match env s n = Some k -> (4 <= k <= n)%nat.
Proof.
  induction n as [|n IH]; cbn [longest_match]; [discriminate|].
  destruct (_ && _) eqn:E.
  - intros [= <-]. apply andb_true_iff in E as [E _].
    apply Nat.leb_le in E. lia.
  - intros H. apply IH in H. lia.
Qed.

Lemma letters_take s : forall k,
  (k <= letters_run s)%nat ->
  Forall (fun c => is_letter c = true) (take k s) /\ length (take k s) = k.
Proof.
  induction s as [|c rest IH]; intros [|k] Hk; simpl in *;
    try (split; [constructor | reflexivity]); try lia.
  destruct (is_letter c) eqn:Ec; [|lia].
  destruct (IH k ltac:(lia)) as [A B]. split; [now constructor | now rewrite B].
Qed.

(** Every match has at least 4 characters, all of them letters. *)
Lemma scan_words env s : forall prev skip w,
  w ∈ scan env prev s skip ->
  (4 <= length w)%nat /\ Forall (fun c => is_letter c = true) w.
Proof.
  induction s as [|c rest IH]; intros prev skip w H; simpl in H.
  { inversion H. }
  destruct skip as [|n]; [|now apply IH in H].
  destruct (match_at env prev (c :: rest)) as [k|] eqn:E;
    [|now apply IH in H].
  apply elem_of_cons in H as [-> | H]; [|now apply IH in H].
  unfold match_at in E. destruct (boundary env prev _); [|discriminate].
  apply longest_match_bounds in E.
  destruct (letters_take (c :: rest) k ltac:(lia)) as [A B].
  split; [lia | exact A].
Qed.

Lemma bump_keys word word_freq :
  map fst (bump word word_freq) =
  if bool_decide (word ∈ map fst word_freq) then map fst word_freq
  else map fst word_freq ++ [word].
Proof.
  induction word_freq as [|[w n] rest IH]; simpl.
  { reflexivity. }
  destruct (bool_decide_reflect (w = word)) as [-> | Hne]; simpl.
  - rewrite bool_decide_eq_true_2 by left. reflexivity.
  - rewrite IH.
    destruct (bool_decide_reflect (word ∈ map fst rest)) as [Hin | Hout].
    + rewrite bool_decide_eq_true_2 by now right. reflexivity.
    + rewrite bool_decide_eq_false_2; [reflexivity|].
      intros K. apply elem_of_cons in K as [K | K]; congruence.
Qed.

(** The count of [word] in a dictionary, 0 when it is not a key. *)
Lemma bump_counts word word_freq w n :
  NoDup (map fst word_freq) ->
  (w, n) ∈ bump word word_freq ->
  (w = word /\ (word ∉ map fst word_freq) /\ n = 1) \/
  (w = word /\ (w, n - 1) ∈ word_freq) \/
  (w <> word /\ (w, n) ∈ word_freq).
Proof.
  induction word_freq as [|[w0 n0] rest IH]; simpl; intros Hnd H.
  { apply list_elem_of_singleton in H as [= -> ->]. left.
    split; [reflexivity|]. split; [apply not_elem_of_nil | reflexivity]. }
  apply NoDup_cons in Hnd as [Hw0 Hnd].
  destruct (bool_decide_reflect (w0 = word)) as [-> | Hne].
  - apply elem_of_cons in H as [[= -> ->] | H].
    + right. left. split; [reflexivity|].
      replace (n0 + 1 - 1) with n0 by lia. left.
    + right. right. split; [|now right]. intros ->. apply Hw0.
      apply list_elem_of_In, in_map_iff. exists (word, n).
      split; [reflexivity | now apply list_elem_of_In].
  - apply elem_of_cons in H as [[= -> ->] | H].
    + right. right. split; [exact Hne | left].
    + destruct (IH Hnd H) as [(-> & Hout & ->) | [(-> & Hin) | (Hw & Hin)]].
      * left. split; [reflexivity|]. split; [|reflexivity].
        intros K. apply elem_of_cons in K as [K | K]; congruence.
      * right. left. split; [reflexivity | now right].
      * right. right. split; [exact Hw | now right].
Qed.

Lemma occurrences_snoc word words w :
  occurrences word (words ++ [w]) =
  occurrences word words + (if bool_decide (w = word) then 1 else 0).
Proof.
  unfold occurrences, len. rewrite List.filter_app, List.length_app. simpl.
  destruct (bool_decide (w = word)); simpl; lia.
Qed.

(** The dictionary of counts: its keys are distinct, they are words of
    the list, and each is paired with the number of its occurrences. *)
Lemma count_words_spec words :
  NoDup (map fst (count_words words)) /\
  forall w n, (w, n) ∈ count_words words ->
              w ∈ words /\ n = occurrences w words.
Proof.
  unfold count_words. induction words as [|x xs IH] using rev_ind.
  { split; [constructor|]. intros w n H. inversion H. }
  rewrite fold_left_app. simpl. destruct IH as [Hnd Hall]. split.
  - rewrite bump_keys. case_bool_decide as Hx; [exact Hnd|].
    apply NoDup_app. split; [exact Hnd|]. split.
    + intros y Hy Hy'. apply list_elem_of_singleton in Hy' as ->. contradiction.
    + apply NoDup_singleton.
  - intros w n H. rewrite occurrences_snoc.
    destruct (bump_counts _ _ _ _ Hnd H)
      as [(-> & Hout & ->) | [(-> & Hin) | (Hw & Hin)]].
    + split; [apply elem_of_app; right; left|].
      rewrite bool_decide_eq_true_2 by reflexivity.
      assert (occurrences x xs = 0) as ->; [|reflexivity].
      unfold occurrences, len.
      destruct (List.filter _ xs) as [|y ys] eqn:E; [reflexivity|].
      exfalso.
      assert (In y (List.filter (fun w => bool_decide (w = x)) xs))
        as Hy by (rewrite E; left; reflexivity).
      apply filter_In in Hy as [Hy Hyx].
      apply bool_decide_eq_true in Hyx as ->.
      (* x occurs, so it is a key *)
      apply Hout.
      clear -Hy. revert Hy. generalize xs. intros l Hx.
      assert (forall acc, x ∈ map fst acc \/ In x l ->
                x ∈ map fst (fold_left (fun f w => bump w f) l acc)) as G.
      { clear Hx. induction l as [|a l IHl]; intros acc [Ha | Hl]; simpl;
          try assumption; try contradiction.
        - apply IHl. left. rewrite bump_keys.
          destruct (bool_decide (a ∈ map fst acc)); [exact Ha|].
          apply elem_of_app. now left.
        - apply IHl. destruct Hl as [-> | Hl]; [left | now right].
          rewrite bump_keys.
          destruct (bool_decide_reflect (x ∈ map fst acc)); [assumption|].
          apply elem_of_app. right. left. }
      apply G. now right.
    + destruct (Hall _ _ Hin) as [Hmem Hn].
      split; [apply elem_of_app; now left|].
      rewrite bool_decide_eq_true_2 by reflexivity. lia.
    + destruct (Hall _ _ Hin) as [Hmem Hn].
      split; [apply elem_of_app; now left|].
      rewrite bool_decide_eq_false_2 by congruence. lia.
Qed.

Lemma insert_sorted_perm x l : insert_sorted x l ≡ₚ x :: l.
Proof.
  induction l as [|y rest IH]; simpl; [reflexivity|].
  destruct (x.2 <=? y.2); [|reflexivity].
  rewrite IH. apply Permutation_swap.
Qed.

Lemma insert_sorted_sorted x l :
  StronglySorted (fun a b => b.2 <= a.2) l ->
  StronglySorted (fun a b => b.2 <= a.2) (insert_sorted x l).
Proof.
  induction 1 as [|y rest Hs IH Hall]; simpl.
  { constructor; constructor. }
  destruct (Z.leb_spec x.2 y.2) as [Hle | Hgt].
  - constructor; [exact IH|].
    rewrite insert_sorted_perm. constructor; assumption.
  - constructor; [now constructor|]. constructor; [lia|].
    eapply Forall_impl; [exact Hall|]. simpl. intros z. lia.
Qed.

Lemma sorted_by_count_spec items :
  sorted_by_count items ≡ₚ items /\
  StronglySorted (fun a b => b.2 <= a.2) (sorted_by_count items).
Proof.
  unfold sorted_by_count.
  assert (forall acc,
            StronglySorted (fun a b => b.2 <= a.2) acc ->
            fold_left (fun acc x => insert_sorted x acc) items acc
              ≡ₚ acc ++ items /\
            StronglySorted (fun a b => b.2 <= a.2)
              (fold_left (fun acc x => insert_sorted x acc) items acc))
    as G.
  { induction items as [|x rest IH]; intros acc Hacc; simpl.
    - now rewrite app_nil_r.
    - destruct (IH (insert_sorted x acc) (insert_sorted_sorted x acc Hacc))
        as [P S]. split; [|exact S].
      rewrite P, insert_sorted_perm. simpl. apply Permutation_middle. }
  apply (G []). constructor.
Qed.

Lemma slice_prefix {A} (l : list A) (stop : Z) :
  exists k, slice l 0 stop = take k l.
Proof.
  unfold slice. change (adjust_index (len l) 0) with 0.
  rewrite (Z.min_r (len l) 0) by apply len_nonneg.
  eexists. reflexivity.
Qed.

Lemma sorted_lookup (l : list (str * Z)) :
  StronglySorted (fun a b => b.2 <= a.2) l ->
  forall i j a b, (i < j)%nat -> l !! i = Some a -> l !! j = Some b ->
                  b.2 <= a.2.
Proof.
  induction 1 as [|x rest Hs IH Hall]; intros i j a b Hij Hi Hj.
  { inversion Hi. }
  destruct j as [|j]; [lia|]. simpl in Hj. destruct i as [|i].
  - injection Hi as <-. rewrite Forall_forall in Hall.
    apply Hall. eapply list_elem_of_lookup_2, Hj.
  - simpl in Hi. apply (IH i j); [lia | assumption..].
Qed.

(** X26. Every keyword [extract_keywords] returns has at least four
    characters, all of them ASCII letters, and is not a stop word; no
    keyword is returned twice; for [top_n >= 0] there are at most [top_n]
    of them. *)
Theorem extract_keywords_words (env : Env) (text : str) (top_n : Z) :
  let result := extract_keywords env text top_n in
  (forall kw, kw ∈ result ->
              (4 <= length kw)%nat /\
              Forall (fun c => is_letter c = true) kw /\
              kw ∉ stop_words) /\
  NoDup result /\
  (0 <= top_n -> len result <= top_n).
Proof.
  cbv zeta. unfold extract_keywords. fold (counted_words env text).
  destruct (count_words_spec (counted_words env text)) as [Hnd Hall].
  destruct (sorted_by_count_spec (count_words (counted_words env text)))
    as [Hperm _].
  destruct (slice_prefix (sorted_by_count
                            (count_words (counted_words env text))) top_n)
    as [k Hk].
  split; [|split].
  - intros kw Hin. rewrite Hk in Hin.
    apply list_elem_of_In, in_map_iff in Hin as ([w n] & <- & Hin).
    apply list_elem_of_In, subseteq_take in Hin. rewrite Hperm in Hin.
    apply Hall in Hin as [Hin _]. unfold counted_words in Hin.
    apply list_elem_of_In, filter_In in Hin as [Hin Hstop].
    apply list_elem_of_In, scan_words in Hin as [A B].
    split; [exact A|]. split; [exact B|]. simpl.
    apply negb_true_iff, bool_decide_eq_false in Hstop. exact Hstop.
  - rewrite Hk. eapply sublist_NoDup.
    + rewrite <- Hperm in Hnd. exact Hnd.
    + apply (fmap_sublist fst), sublist_take.
  - intros Htop. unfold len. rewrite length_map.
    pose proof (length_slice (sorted_by_count
                                (count_words (counted_words env text)))
                  0 top_n ltac:(lia) Htop) as L.
    unfold len in L. lia.
Qed.

(** X27. The keywords are listed from the most to the least frequent: a
    keyword never occurs more often among the counted words than a keyword
    listed before it. *)
Theorem extract_keywords_ordered (env : Env) (text : str) (top_n : Z)
    (i j : nat) (kw1 kw2 : str) :
  (i < j)%nat ->
  extract_keywords env text top_n !! i = Some kw1 ->
  extract_keywords env text top_n !! j = Some kw2 ->
  1 <= occurrences kw2 (counted_words env text)
    <= occurrences kw1 (counted_words env text).
Proof.
  unfold extract_keywords. fold (counted_words env text).
  destruct (count_words_spec (counted_words env text)) as [Hnd Hall].
  destruct (sorted_by_count_spec (count_words (counted_words env text)))
    as [Hperm Hsorted].
  destruct (slice_prefix (sorted_by_count
                            (count_words (counted_words env text))) top_n)
    as [k ->].
  intros Hij Hi Hj.
  rewrite list_lookup_fmap in Hi, Hj.
  destruct (take k _ !! i) as [[w1 n1]|] eqn:E1; [|discriminate].
  destruct (take k _ !! j) as [[w2 n2]|] eqn:E2; [|discriminate].
  injection Hi as <-. injection Hj as <-. simpl.
  apply lookup_take_Some in E1 as [E1 _].
  apply lookup_take_Some in E2 as [E2 _].
  pose proof (sorted_lookup _ Hsorted i j _ _ Hij E1 E2) as Hle.
  apply list_elem_of_lookup_2 in E1, E2.
  rewrite Hperm in E1, E2.
  apply Hall in E1 as [_ ->]. apply Hall in E2 as [Hin ->].
  split; [|exact Hle].
  unfold occurrences, len.
  destruct (List.filter (fun w => bool_decide (w = w2))
                        (counted_words env text)) as [|y ys] eqn:E;
    [|simpl; lia].
  exfalso. apply list_elem_of_In in Hin.
  assert (In w2 (List.filter (fun w => bool_decide (w = w2))
                             (counted_words env text))) as K.
  { apply filter_In. split; [exact Hin|]. now apply bool_decide_eq_true. }
  rewrite E in K. contradiction.
Qed.

Lemma extract_keywords_ordered_witness :
  1 <= occurrences (lit "alpha")
         (counted_words quiet_env (lit "beta alpha beta alpha gamma"))
    <= occurrences (lit "beta")
         (counted_words quiet_env (lit "beta alpha beta alpha gamma")).
Proof.
  apply (extract_keywords_ordered quiet_env
           (lit "beta alpha beta alpha gamma") 2 0 1);
    [lia | reflexivity | reflexivity].
Defined.

End Keywords.
